(** * Encrypted salary store: client/server instruction protocol

    A shallow embedding of [src/client.py] and [src/server.py], and what it
    proves about the instruction protocol.

    - [Py]      : the Python values that travel through the programs (the
                  documents produced by [json.loads]), the built-ins the code
                  calls on them ([int], [str], subscripting), the events a
                  program produces, and a state and exception monad in which
                  a raised exception keeps the mutations made before it, as
                  in Python.
    - [Store]   : the [Employees] table and the four SQL statements of the
                  server.
    - [Crypto]  : the calls into the encryption libraries ([phe], [pyope]),
                  which are outside the repository.  In the same way
                  [Py.Interpreter] holds what the interpreter settles for
                  text outside ASCII, for reals and for long numerals, and
                  [Store.Collation] the order the database puts on a
                  [TEXT] column.
    - [Server]  : [Key], [Instruction] and [app] of [server.py].
    - [Client]  : [Keys], [Instruction] and [app] of [client.py].
    - [Toy]     : small concrete instances of [Crypto], [Store.Collation]
                  and [Py.Interpreter], used to run whole sessions.
    - [Session] : the two programs connected back to back.
    - [Example] : concrete stores, frames and operator rounds.
    - [Frames]  : the instruction frames as the client builds them.
    - [Launch]  : the start of the server, with [_listen_to],
                  [_accept_connection] and [_connect_to_db] in full.
    - [Between] : what the client holds between two rounds.

    The facts follow the definitions: text and table lemmas, the server's
    turn and loop, the client's frames, set-up, the instructions one by one,
    the two loops round by round, and sessions run on concrete inputs. *)

From Stdlib Require Import ZArith List String Ascii Bool Lia.
From Stdlib Require Import DecimalString.
From Stdlib Require DecimalPos.
From Stdlib Require PrimFloat SpecFloat FloatOps.
Import ListNotations.

Set Warnings "-register-all".

Local Open Scope string_scope.
Local Open Scope Z_scope.

(* ===================================================================== *)
(** ** Python values and built-ins *)
(* ===================================================================== *)

Module Py.

(** What [json.loads] returns, and what [json.dumps] accepts: [None],
    booleans, integers of any size, reals (binary64 numbers, [NaN] and the
    two infinities included, as [loads] accepts them), text, lists and dicts
    (insertion ordered, hence an association list).

    A text is the sequence of the bytes of its UTF-8 encoding: a character
    of ASCII is one byte below 128, and every byte of a character outside
    ASCII is 128 or above. *)
Inductive json : Type :=
| JNull
| JBool (b : bool)
| JInt (z : Z)
| JReal (f : PrimFloat.float)
| JStr (s : string)
| JList (l : list json)
| JObj (d : list (string * json)).

Definition dict : Type := list (string * json).

(** The exceptions the two programs can meet.  All handlers of the source
    are bare [except:] clauses but one ([except ValueError] in the client's
    [read_instruction]), so the constructor matters only there. *)
Inductive exn : Type :=
| KeyError | TypeError | ValueError | IndexError | AttributeError
| OverflowError | OSError | DatabaseError | CryptoError.

Inductive res (A : Type) : Type :=
| Ok (a : A)
| Raise (e : exn).
Arguments Ok {A} a.
Arguments Raise {A} e.

Definition res_bind {A B} (r : res A) (k : A -> res B) : res B :=
  match r with
  | Ok a => k a
  | Raise e => Raise e
  end.

(** What the interpreter settles and the source does not say.
    - [int_of_unicode s] : [int(s)] for a text [s] that holds a character
                           outside ASCII, where the digits and the white
                           space of Unicode count; [None] stands for
                           [ValueError].
    - [limits_digits]    : whether [int] refuses a numeral of more than 4300
                           digits, as CPython does at its default setting
                           from 3.10.7 and 3.11 on.
    - [repr_float f]     : [repr(f)] for a real [f].
    - [repr_unicode s]   : [repr(s)] for a text [s] that holds a character
                           outside ASCII. *)
Class Interpreter : Type := {
  int_of_unicode : string -> option Z;
  limits_digits : bool;
  repr_float : PrimFloat.float -> string;
  repr_unicode : string -> string
}.

(** *** dict operations *)

Fixpoint dict_get (d : dict) (k : string) : option json :=
  match d with
  | [] => None
  | (k', v) :: d' => if String.eqb k k' then Some v else dict_get d' k
  end.

(** [d[k] = v]: an existing key keeps its position, a new one goes last. *)
Fixpoint dict_set (d : dict) (k : string) (v : json) : dict :=
  match d with
  | [] => [(k, v)]
  | (k', v') :: d' =>
      if String.eqb k k' then (k', v) :: d' else (k', v') :: dict_set d' k v
  end.

(** [x[k]] for a text key [k]: only a dict can be subscripted by text. *)
Definition getitem (x : json) (k : string) : res json :=
  match x with
  | JObj d =>
      match dict_get d k with
      | Some v => Ok v
      | None => Raise KeyError
      end
  | _ => Raise TypeError
  end.

(** *** [int(...)] *)

(** The digits of ASCII.  The digits of other scripts, which [int] takes as
    well, are left to [int_of_unicode]. *)
Definition is_digit (c : ascii) : bool :=
  let n := N_of_ascii c in (48 <=? n)%N && (n <=? 57)%N.

Definition digit_val (c : ascii) : Z := Z.of_N (N_of_ascii c) - 48.

(** White space as [int] skips it around an ASCII numeral: tab, line feed,
    vertical tab, form feed, carriage return and space. *)
Definition is_space (c : ascii) : bool :=
  let n := N_of_ascii c in
  ((9 <=? n)%N && (n <=? 13)%N) || (n =? 32)%N.

Fixpoint lstrip (s : string) : string :=
  match s with
  | String c s' => if is_space c then lstrip s' else s
  | EmptyString => EmptyString
  end.

Fixpoint rstrip (s : string) : string :=
  match s with
  | String c s' =>
      match rstrip s' with
      | EmptyString => if is_space c then EmptyString else String c EmptyString
      | t => String c t
      end
  | EmptyString => EmptyString
  end.

(** Digits, with single underscores allowed between two digits. *)
Fixpoint parse_digits (s : string) (acc : Z) (after_digit : bool) : option Z :=
  match s with
  | EmptyString => if after_digit then Some acc else None
  | String c s' =>
      if is_digit c then parse_digits s' (10 * acc + digit_val c) true
      else if Ascii.eqb c "_" then
             if after_digit then parse_digits s' acc false else None
           else None
  end.

(** [int(s)] for an ASCII text: white space around, an optional sign,
    decimal digits. *)
Definition int_of_ascii (s : string) : res Z :=
  let body := rstrip (lstrip s) in
  let parsed :=
    match body with
    | String "-" t => option_map Z.opp (parse_digits t 0 false)
    | String "+" t => parse_digits t 0 false
    | t => parse_digits t 0 false
    end in
  match parsed with
  | Some z => Ok z
  | None => Raise ValueError
  end.

Fixpoint is_ascii (s : string) : bool :=
  match s with
  | EmptyString => true
  | String c t => (N_of_ascii c <? 128)%N && is_ascii t
  end.

Fixpoint count_digits (s : string) : Z :=
  match s with
  | EmptyString => 0
  | String c t => (if is_digit c then 1 else 0) + count_digits t
  end.

(** [int(f)] for a real: the integer part; [NaN] and the infinities are
    refused. *)
Definition int_of_float (f : PrimFloat.float) : res Z :=
  match FloatOps.Prim2SF f with
  | SpecFloat.S754_zero _ => Ok 0
  | SpecFloat.S754_finite negative m e =>
      let v := if (0 <=? e)%Z then Z.shiftl (Zpos m) e else Z.shiftr (Zpos m) (- e) in
      Ok (if negative then - v else v)
  | SpecFloat.S754_infinity _ => Raise OverflowError
  | SpecFloat.S754_nan => Raise ValueError
  end.

(** [f == n] for a real [f] and an integer [n]: the values are compared
    exactly. *)
Definition float_eq_int (f : PrimFloat.float) (n : Z) : bool :=
  match FloatOps.Prim2SF f with
  | SpecFloat.S754_zero _ => (n =? 0)%Z
  | SpecFloat.S754_finite negative m e =>
      if (0 <=? e)%Z then
        ((if negative then - Z.shiftl (Zpos m) e else Z.shiftl (Zpos m) e) =? n)%Z
      else
        (Z.land (Zpos m) (Z.ones (- e)) =? 0)%Z &&
        ((if negative then - Z.shiftr (Zpos m) (- e) else Z.shiftr (Zpos m) (- e)) =? n)%Z
  | _ => false
  end.

Section WithInterpreter.
Context {interp : Interpreter}.

(** [int(s)] for a text of a document or of the store.  Such a text came
    through a frame, and a frame has at most 4096 bytes ([recv(4096)]): its
    numerals are shorter than the 4300 digits an interpreter may refuse. *)
Definition int_of_text (s : string) : res Z :=
  if is_ascii s then int_of_ascii s
  else match int_of_unicode s with
       | Some z => Ok z
       | None => Raise ValueError
       end.

(** [int(input(...))]: what the operator types has any length. *)
Definition int_of_input (s : string) : res Z :=
  if is_ascii s then
    if limits_digits && (4300 <? count_digits s)%Z then Raise ValueError
    else int_of_ascii s
  else match int_of_unicode s with
       | Some z => Ok z
       | None => Raise ValueError
       end.

(** Plain decimal text: digits only.  [decimal s 0] is its value. *)
Fixpoint all_digits (s : string) : bool :=
  match s with
  | EmptyString => true
  | String c t => is_digit c && all_digits t
  end.

Fixpoint decimal (s : string) (acc : Z) : Z :=
  match s with
  | EmptyString => acc
  | String c t => decimal t (10 * acc + digit_val c)
  end.

(** [int(x)] on a loaded document. *)
Definition int (x : json) : res Z :=
  match x with
  | JInt z => Ok z
  | JBool b => Ok (if b then 1 else 0)
  | JReal f => int_of_float f
  | JStr s => int_of_text s
  | JNull | JList _ | JObj _ => Raise TypeError
  end.

(** *** [str(...)] *)

(** [str(z)] for an integer: its decimal numeral.  The integers the programs
    hand to [str] have come through [int] or through a frame, so they are
    below the length at which an interpreter that limits digits refuses to
    print. *)
Definition str_of_Z (z : Z) : string := NilZero.string_of_int (Z.to_int z).

Definition hex_digit (n : N) : ascii :=
  if (n <? 10)%N then ascii_of_N (48 + n) else ascii_of_N (87 + n).

(** One character inside [repr] of a text, [q] being the quote in use. *)
Definition repr_char (q c : ascii) : string :=
  let n := N_of_ascii c in
  if Ascii.eqb c "\" then "\\"
  else if Ascii.eqb c q then String "\" (String q EmptyString)
  else if (n =? 9)%N then "\t"
  else if (n =? 10)%N then "\n"
  else if (n =? 13)%N then "\r"
  else if (n <? 32)%N || (n =? 127)%N then
         String "\" (String "x" (String (hex_digit (n / 16))
                                        (String (hex_digit (n mod 16)) EmptyString)))
  else String c EmptyString.

Fixpoint has_char (q : ascii) (s : string) : bool :=
  match s with
  | EmptyString => false
  | String c s' => Ascii.eqb c q || has_char q s'
  end.

Fixpoint repr_chars (q : ascii) (s : string) : string :=
  match s with
  | EmptyString => EmptyString
  | String c s' => repr_char q c ++ repr_chars q s'
  end.

Definition dquote : ascii := ascii_of_N 34.
Definition squote : ascii := "'"%char.

(** [repr] of a text: single quotes, unless it holds a single quote and no
    double quote. *)
Definition repr_text (s : string) : string :=
  if is_ascii s then
    let q := if has_char squote s && negb (has_char dquote s) then dquote else squote in
    String q (repr_chars q s ++ String q EmptyString)
  else repr_unicode s.

Fixpoint join (sep : string) (l : list string) : string :=
  match l with
  | [] => EmptyString
  | [x] => x
  | x :: l' => x ++ sep ++ join sep l'
  end.

Fixpoint repr (x : json) : string :=
  match x with
  | JNull => "None"
  | JBool b => if b then "True" else "False"
  | JInt z => str_of_Z z
  | JReal f => repr_float f
  | JStr s => repr_text s
  | JList l => "[" ++ join ", " (map repr l) ++ "]"
  | JObj d =>
      "{" ++ join ", " (map (fun kv => repr_text (fst kv) ++ ": " ++ repr (snd kv)) d) ++ "}"
  end.

(** [str(x)]: a text is itself, anything else is its [repr]. *)
Definition str (x : json) : string :=
  match x with
  | JStr s => s
  | _ => repr x
  end.

End WithInterpreter.

(** *** Events, state and exceptions

    What a program does to the outside: socket writes, console output (the
    text between the colour codes) and error-level log lines. *)
Inductive event : Type :=
| Connected
| Sent (j : json)
| SendFailed (j : json)
| Printed (text : string)
| LogError (msg : string)
| Closed.

(** A computation over a mutable state [S] that emits events and may raise.
    The state reached when the exception is raised is kept: an assignment
    made before a [raise] is still visible in the handler, as in Python. *)
Definition M (S A : Type) : Type := S -> res A * S * list event.

Definition ret {S A} (a : A) : M S A := fun s => (Ok a, s, []).

Definition bind {S A B} (m : M S A) (k : A -> M S B) : M S B :=
  fun s =>
    match m s with
    | (Ok a, s', ev) => let '(r, s'', ev') := k a s' in (r, s'', (ev ++ ev')%list)
    | (Raise e, s', ev) => (Raise e, s', ev)
    end.

Definition raise {S A} (e : exn) : M S A := fun s => (Raise e, s, []).

Definition lift {S A} (r : res A) : M S A := fun s => (r, s, []).

Definition get {S} : M S S := fun s => (Ok s, s, []).

Definition modify {S} (f : S -> S) : M S unit := fun s => (Ok tt, f s, []).

Definition emit {S} (e : event) : M S unit := fun s => (Ok tt, s, [e]).

(** [try: m  except: h] with a bare [except]. *)
Definition try_except {S A} (m : M S A) (h : M S A) : M S A :=
  fun s =>
    match m s with
    | (Ok a, s', ev) => (Ok a, s', ev)
    | (Raise _, s', ev) => let '(r, s'', ev') := h s' in (r, s'', (ev ++ ev')%list)
    end.

(** [try: m  except E: h] for the single exception [ValueError]. *)
Definition try_except_ValueError {S A} (m : M S A) (h : M S A) : M S A :=
  fun s =>
    match m s with
    | (Raise ValueError, s', ev) => let '(r, s'', ev') := h s' in (r, s'', (ev ++ ev')%list)
    | other => other
    end.

(** [try: m  finally: f]: [f] runs on every exit of [m]; an exception of [f]
    replaces the outcome of [m]. *)
Definition try_finally {S A} (m : M S A) (f : M S unit) : M S A :=
  fun s =>
    let '(r, s', ev) := m s in
    match f s' with
    | (Ok _, s'', ev') => (r, s'', (ev ++ ev')%list)
    | (Raise e, s'', ev') => (Raise e, s'', (ev ++ ev')%list)
    end.

Declare Scope py_scope.
Delimit Scope py_scope with py.
Notation "x <- c ;; k" := (bind c (fun x => k))
  (at level 61, c at next level, right associativity) : py_scope.
Notation "c ;; k" := (bind c (fun _ => k))
  (at level 61, right associativity) : py_scope.

(** *** The wire

    A frame is what one [recv(4096)] returns.  The codec ([json.dumps],
    [json.loads], UTF-8) is library code: a frame that [loads] accepts is
    represented by the document it decodes to, any other by its raw text,
    and a [recv] that raises by [RecvError]. *)
Inductive received : Type :=
| RecvError
| Garbage (raw : string)
| Doc (j : json).

(** [loads(sock.recv(4096).decode('utf-8'))]. *)
Definition recv_loads (f : received) : res json :=
  match f with
  | RecvError => Raise OSError
  | Garbage _ => Raise ValueError
  | Doc j => Ok j
  end.

End Py.

(* ===================================================================== *)
(** ** The relational store *)
(* ===================================================================== *)

Module Store.

(** One line of [Employees]: [id INT AUTO_INCREMENT PRIMARY KEY],
    [phe_salary TEXT], [ope_salary TEXT]. *)
Record row : Type := mk_row {
  row_id : Z;
  phe_salary : string;
  ope_salary : string
}.

Record database : Type := mk_database {
  tables : list string;
  employees : list row;
  auto_increment : Z
}.

(** The primary key: no two lines share an id. *)
Definition unique_ids (db : database) : Prop :=
  NoDup (map row_id (employees db)).

(** What [AUTO_INCREMENT] and the primary key maintain: ids are unique and
    below the next id to be given. *)
Definition well_formed (db : database) : Prop :=
  unique_ids db /\
  Forall (fun r => (row_id r < auto_increment db)%Z) (employees db).

(** The order of two [TEXT] values is that of the collation of the column,
    which the database settles: the source names none for it. *)
Class Collation : Type := {
  collate : string -> string -> comparison
}.

(** What the collations of MySQL have in common on decimal texts that begin
    with different digits: the first digit decides. *)
Definition first_digit_decides (coll : Collation) : Prop :=
  forall c1 t1 c2 t2,
    Py.all_digits (String c1 t1) = true ->
    Py.all_digits (String c2 t2) = true ->
    (N_of_ascii c1 < N_of_ascii c2)%N ->
    collate (String c1 t1) (String c2 t2) = Lt /\
    collate (String c2 t2) (String c1 t1) = Gt.

(** [SHOW TABLES;] then [fetchall()]: one 1-tuple per table. *)
Definition show_tables (db : database) : list (list string) :=
  map (fun t => [t]) (tables db).

(** [INSERT INTO Employees (phe_salary, ope_salary) VALUES (%s, %s);]
    followed by [commit()]. *)
Definition insert_employee (db : database) (phe ope : string) : database :=
  {| tables := tables db;
     employees := employees db ++ [mk_row (auto_increment db) phe ope];
     auto_increment := auto_increment db + 1 |}.

Definition id_in (a b : Z) (r : row) : bool :=
  (row_id r =? a)%Z || (row_id r =? b)%Z.

Section WithCollation.
Context {coll : Collation}.

(** The first line, in scan order, that no other line beats. *)
Fixpoint top_by_ope (best : option row) (rows : list row) : option row :=
  match rows with
  | [] => best
  | r :: rows' =>
      match best with
      | None => top_by_ope (Some r) rows'
      | Some b =>
          match collate (ope_salary b) (ope_salary r) with
          | Lt => top_by_ope (Some r) rows'
          | _ => top_by_ope (Some b) rows'
          end
      end
  end.

(** [SELECT id FROM Employees WHERE id IN (%s, %s)
     ORDER BY ope_salary DESC LIMIT 1;] then [fetchone()]: a 1-tuple, or
    [None] when no line matches.  Among lines whose [ope_salary] compare
    equal the server is free to return any; the model returns the first. *)
Definition select_top_id (db : database) (a b : Z) : option Z :=
  option_map row_id (top_by_ope None (filter (id_in a b) (employees db))).

End WithCollation.

(** [SELECT phe_salary FROM Employees WHERE id=%s OR id=%s;] then
    [fetchall()]. *)
Definition select_phe (db : database) (a b : Z) : list string :=
  map phe_salary (filter (id_in a b) (employees db)).

End Store.

(* ===================================================================== *)
(** ** The encryption libraries *)
(* ===================================================================== *)

(** What the two programs call in [phe] and [pyope].  A Paillier public key
    is its modulus [n]; randomness is an explicit argument.
    - [phe_encrypt n m r]   : [PaillierPublicKey(n).encrypt(m).ciphertext()]
    - [phe_add n c1 c2 r]   :
        [(EncryptedNumber(pk, c1) + EncryptedNumber(pk, c2)).ciphertext()]
    - [phe_decrypt sk n c]  : [sk.decrypt(EncryptedNumber(pk, c))]
    - [ope_encrypt k m]     : [OPE(k).encrypt(m)] *)
Class Crypto : Type := {
  private_key : Type;
  ope_key : Type;
  phe_encrypt : Z -> Z -> Z -> Py.res Z;
  phe_add : Z -> Z -> Z -> Z -> Py.res Z;
  phe_decrypt : private_key -> Z -> Z -> Py.res Z;
  ope_encrypt : ope_key -> Z -> Py.res Z
}.

(* ===================================================================== *)
(** ** server.py *)
(* ===================================================================== *)

Module Server.
Import Py.
Local Open Scope py_scope.

(** [class Key]: the Paillier public key, [None] until rebuilt.  A
    [PaillierPublicKey] is built from its modulus alone. *)
Record Key : Type := mk_Key {
  phe_public_key : option Z
}.

(** [class Instruction]. *)
Record Instruction : Type := mk_Instruction {
  instruction : option Z;
  instruction_data : json;
  result_data : dict
}.

(** [Instruction()]: both dicts start empty. *)
Definition new_Instruction : Instruction := mk_Instruction None (JObj []) [].

(** What the outside decides during one turn of the dispatch loop: the frame
    that [recv] yields, whether the store answers, the randomness drawn by
    [phe], and whether the two possible [send]s go through. *)
Record round : Type := mk_round {
  incoming : received;
  db_up : bool;
  noise : Z;
  send_ok : bool;
  retry_ok : bool
}.

(** The mutable objects the handlers work on. *)
Record state : Type := mk_state {
  self : Instruction;
  db : Store.database
}.

Definition set_instruction (v : option Z) : M state unit :=
  modify (fun s =>
    mk_state (mk_Instruction v (instruction_data (self s)) (result_data (self s))) (db s)).

Definition set_instruction_data (j : json) : M state unit :=
  modify (fun s =>
    mk_state (mk_Instruction (instruction (self s)) j (result_data (self s))) (db s)).

(** [self.result_data[k] = v] *)
Definition set_result (k : string) (v : json) : M state unit :=
  modify (fun s =>
    mk_state (mk_Instruction (instruction (self s)) (instruction_data (self s))
                             (dict_set (result_data (self s)) k v)) (db s)).

(** [self.result_data.clear()] *)
Definition clear_result : M state unit :=
  modify (fun s =>
    mk_state (mk_Instruction (instruction (self s)) (instruction_data (self s)) []) (db s)).

(** States a turn passes through: a frame was loaded into
    [instruction_data]; a handler gave up with a result code; the result was
    cleared after the send. *)
Definition after_read (s : state) (j : json) : state :=
  mk_state (mk_Instruction (instruction (self s)) j (result_data (self s))) (db s).

Definition failed (s : state) (code : string) : state :=
  mk_state
    (mk_Instruction None (instruction_data (self s))
                    (dict_set (result_data (self s)) "result" (JStr code)))
    (db s).

Definition emptied (v : option Z) (s : state) : state :=
  mk_state (mk_Instruction v (instruction_data (self s)) []) (db s).

(** What holds whenever the loop is about to read: the result of the
    previous round was cleared, and the table is as the store keeps it. *)
Definition ready (s : state) : Prop :=
  result_data (self s) = [] /\ Store.well_formed (db s).

(** [self.instruction_data['data'][k]] *)
Definition data_field (k : string) : M state json :=
  s <- get ;;
  d <- lift (getitem (instruction_data (self s)) "data") ;;
  lift (getitem d k).

(** [db_cursor.execute(...)]: raises when the store does not answer. *)
Definition db_execute (env : round) : M state unit :=
  if db_up env then ret tt else raise DatabaseError.

(** [server_socket.send(dumps(self.result_data).encode('utf-8'))] *)
Definition send (ok : bool) : M state unit :=
  s <- get ;;
  if ok then emit (Sent (JObj (result_data (self s))))
  else (emit (SendFailed (JObj (result_data (self s)))) ;; raise OSError).

Section WithCrypto.
Context {interp : Interpreter} {coll : Store.Collation}.
Context `{Crypto}.

(** *** [Key] *)

Definition rebuild_pailler_public_key (key : Key) (phe_public_key : json)
  : Key * list event :=
  match res_bind (getitem phe_public_key "n") int with
  | Ok n => (mk_Key (Some n), [])
  | Raise _ => (key, [LogError "failed to rebuild paillier public key!"])
  end.

Definition read_paillier_public_key (key : Key) (frame : received)
  : Key * list event :=
  match recv_loads frame with
  | Ok phe_public_key => rebuild_pailler_public_key key phe_public_key
  | Raise _ => (key, [LogError "failed to get paillier public key!"])
  end.

(** *** [Instruction] *)

Definition read_instruction (env : round) : M state bool :=
  try_except
    (j <- lift (recv_loads (incoming env)) ;;
     set_instruction_data j ;;
     ret true)
    (set_instruction None ;;
     set_result "result" (JStr "1") ;;
     ret false).

Definition quit : M state unit :=
  set_result "result" (JStr "0") ;;
  set_result "data" (JStr "quit").

Definition get_table (env : round) : M state unit :=
  db_execute env ;;
  set_result "result" (JStr "0") ;;
  s <- get ;;
  set_result "data"
    (JList (map (fun t => JList (map JStr t)) (Store.show_tables (db s)))).

Definition add_employee (env : round) : M state unit :=
  p <- data_field "paillier_salary" ;;
  o <- data_field "ope_salary" ;;
  db_execute env ;;
  modify (fun s => mk_state (self s) (Store.insert_employee (db s) (str p) (str o))) ;;
  set_result "result" (JStr "0") ;;
  set_result "data" (JStr "OK").

(** When no line matches, [fetchone()] is [None] and subscripting it
    raises, after [result] was set. *)
Definition compare_employees (env : round) : M state unit :=
  v1 <- data_field "id_1" ;;
  id_1 <- lift (int v1) ;;
  v2 <- data_field "id_2" ;;
  id_2 <- lift (int v2) ;;
  db_execute env ;;
  set_result "result" (JStr "0") ;;
  s <- get ;;
  match Store.select_top_id (db s) id_1 id_2 with
  | Some winner =>
      set_result "data" (JStr ("Id " ++ str_of_Z winner ++ " has a higher salary"))
  | None => raise TypeError
  end.

(** [int(results[i][0])] *)
Definition salary_at (results : list string) (i : nat) : res Z :=
  match nth_error results i with
  | Some text => int_of_text text
  | None => Raise IndexError
  end.

(** With the public key still [None], building or adding the
    [EncryptedNumber]s raises. *)
Definition get_salaries_sum (env : round) (key : Key) : M state unit :=
  v1 <- data_field "id_1" ;;
  id_1 <- lift (int v1) ;;
  v2 <- data_field "id_2" ;;
  id_2 <- lift (int v2) ;;
  db_execute env ;;
  s <- get ;;
  let results := Store.select_phe (db s) id_1 id_2 in
  first_salary <- lift (salary_at results 0) ;;
  second_salary <- lift (salary_at results 1) ;;
  encrypted_sum <- lift (match phe_public_key key with
                         | Some n => phe_add n first_salary second_salary (noise env)
                         | None => Raise TypeError
                         end) ;;
  set_result "result" (JStr "0") ;;
  set_result "data" (JInt encrypted_sum).

Definition wrong_instruction_value : M state unit :=
  set_result "result" (JStr "21") ;;
  set_result "data" (JStr "wrong instruction value") ;;
  emit (LogError "wrong instruction value").

(** The body of the [try] of [execute_instruction]. *)
Definition dispatch (env : round) (key : Key) : M state unit :=
  s <- get ;;
  v <- lift (getitem (instruction_data (self s)) "instruction") ;;
  code <- lift (int v) ;;
  set_instruction (Some code) ;;
  match code with
  | 0 => quit
  | 1 => get_table env
  | 2 => add_employee env
  | 3 => compare_employees env
  | 4 => get_salaries_sum env key
  | _ => wrong_instruction_value
  end.

Definition execute_instruction (env : round) (key : Key) : M state bool :=
  try_except
    (dispatch env key ;; ret true)
    (set_instruction None ;;
     set_result "result" (JStr "2") ;;
     ret false).

Definition send_result (env : round) : M state bool :=
  try_finally
    (try_except
       (send (send_ok env) ;; ret true)
       (set_instruction None ;;
        clear_result ;;
        set_result "result" (JStr "3") ;;
        send (retry_ok env) ;;
        ret false))
    clear_result.

(** *** [app] *)

(** How the dispatch loop stands once the given rounds are used up. *)
Inductive status : Type :=
| Finished   (* the loop was left on instruction 0 *)
| Aborted    (* an exception reached the handler of [app] *)
| Waiting.   (* blocked in [recv] *)

Definition quit_seen (s : state) : bool :=
  match instruction (self s) with
  | Some 0 => true
  | _ => false
  end.

Definition report_send (sent : bool) : M state unit :=
  if sent then ret tt else emit (LogError "failed to send result").

(** The part of a turn that comes before the result is sent: the
    instruction is read and, if that went well, executed. *)
Definition prepare (env : round) (key : Key) : M state unit :=
  got <- read_instruction env ;;
  if got then
    done <- execute_instruction env key ;;
    if done then ret tt else emit (LogError "failed to execute instruction")
  else
    emit (LogError "failed to read instruction").

(** The body of the [while] loop of [app]. *)
Definition turn (env : round) (key : Key) : M state unit :=
  got <- read_instruction env ;;
  if got then
    done <- execute_instruction env key ;;
    (if done then ret tt else emit (LogError "failed to execute instruction")) ;;
    sent <- send_result env ;;
    report_send sent
  else
    emit (LogError "failed to read instruction") ;;
    sent <- send_result env ;;
    report_send sent.

(** The [while instruction.instruction != 0] loop, one round per turn. *)
Fixpoint serve (key : Key) (rounds : list round) : M state status :=
  fun s =>
    if quit_seen s then (Ok Finished, s, [])
    else
      match rounds with
      | [] => (Ok Waiting, s, [])
      | env :: rest => (turn env key ;; serve key rest) s
      end.

(** [CREATE TABLE IF NOT EXISTS Employees (...)] then [TRUNCATE Employes;]:
    the second statement names another table, so [Employees] keeps the
    lines it had. *)
Definition connect_to_db (existing : Store.database) : Store.database * list event :=
  let created :=
    if existsb (String.eqb "Employees") (Store.tables existing) then existing
    else Store.mk_database (Store.tables existing ++ ["Employees"]) [] 1 in
  if existsb (String.eqb "Employes") (Store.tables created) then (created, [])
  else (created, [LogError "failed to create a new table"]).

(** The [try ... except ... finally] around the loop: an exception is
    logged, and the sockets and the store are closed on the way out. *)
Definition conclude (r : res status) (ev : list event) : status * list event :=
  match r with
  | Ok Waiting => (Waiting, ev)
  | Ok st => (st, ev ++ [Closed])
  | Raise _ => (Aborted, ev ++ [LogError "something went wrong!"; Closed])
  end%list.

Definition app (key_frame : received) (existing : Store.database)
  (rounds : list round) : status * state * list event :=
  let '(key, ev_key) := read_paillier_public_key (mk_Key None) key_frame in
  let '(db0, ev_db) := connect_to_db existing in
  let '(r, s, ev) := serve key rounds (mk_state new_Instruction db0) in
  let '(st, ev') := conclude r ev in
  (st, s, ev_key ++ ev_db ++ ev')%list.

End WithCrypto.

End Server.

(* ===================================================================== *)
(** ** client.py *)
(* ===================================================================== *)

Module Client.
Import Py.
Local Open Scope py_scope.

(** [class Instruction].  [result_data] is whatever [loads] returned. *)
Record Instruction : Type := mk_Instruction {
  instruction : option Z;
  instruction_data : dict;
  result_data : json
}.

Definition new_Instruction : Instruction := mk_Instruction None [] (JObj []).

(** What the outside decides during one turn of the client loop: the lines
    the operator types (the command, then up to two answers), the
    randomness drawn by [phe], whether [send] goes through, and the frame
    that [recv] yields. *)
Record round : Type := mk_round {
  command : string;
  answer_1 : string;
  answer_2 : string;
  noise : Z;
  send_ok : bool;
  reply : received
}.

Definition set_instruction (v : option Z) : M Instruction unit :=
  modify (fun i => mk_Instruction v (instruction_data i) (result_data i)).

(** [self.instruction_data[k] = v] *)
Definition set_data (k : string) (v : json) : M Instruction unit :=
  modify (fun i => mk_Instruction (instruction i) (dict_set (instruction_data i) k v)
                                  (result_data i)).

(** [self.instruction_data.clear()] *)
Definition clear_data : M Instruction unit :=
  modify (fun i => mk_Instruction (instruction i) [] (result_data i)).

Definition set_result_data (j : json) : M Instruction unit :=
  modify (fun i => mk_Instruction (instruction i) (instruction_data i) j).

(** [self.result_data.clear()]: dicts and lists have [clear], nothing else
    that [loads] returns does. *)
Definition clear_result : M Instruction unit :=
  i <- get ;;
  match result_data i with
  | JObj _ => set_result_data (JObj [])
  | JList _ => set_result_data (JList [])
  | _ => raise AttributeError
  end.

(** [client_socket.send(dumps(self.instruction_data).encode('utf-8'))] *)
Definition send (env : round) : M Instruction unit :=
  i <- get ;;
  if send_ok env then emit (Sent (JObj (instruction_data i)))
  else (emit (SendFailed (JObj (instruction_data i))) ;; raise OSError).

(** The value of [None] or of an integer under [str]. *)
Definition str_of_instruction (v : option Z) : string :=
  match v with
  | Some z => str_of_Z z
  | None => "None"
  end.

(** [subject == n] for an integer literal [n], as a [case n:] tests it: a
    text never equals a number. *)
Definition eq_literal (subject : json) (n : Z) : bool :=
  match subject with
  | JInt z => (z =? n)%Z
  | JBool b => ((if b then 1 else 0) =? n)%Z
  | JReal f => float_eq_int f n
  | _ => false
  end.

Section WithCrypto.
Context {interp : Interpreter}.
Context `{Crypto}.

Definition read_instruction (env : round) : M Instruction bool :=
  try_except_ValueError
    (code <- lift (int_of_input (command env)) ;;
     set_instruction (Some code) ;;
     ret true)
    (set_instruction None ;;
     emit (LogError "wrong input type") ;;
     ret false).

Definition quit (env : round) : M Instruction unit := send env.

Definition get_table (env : round) : M Instruction unit := send env.

Definition compare_employees (env : round) : M Instruction unit :=
  set_data "data" (JObj [("id_1", JStr (answer_1 env)); ("id_2", JStr (answer_2 env))]) ;;
  send env.

Definition get_salaries_sum (env : round) : M Instruction unit :=
  set_data "data" (JObj [("id_1", JStr (answer_1 env)); ("id_2", JStr (answer_2 env))]) ;;
  send env.

(** [class Keys]: an attribute that [generate] never assigned is [None]
    here; reading it raises [AttributeError]. *)
Record Keys : Type := mk_Keys {
  phe_public_key : option Z;
  phe_private_key : option private_key;
  ope_key_of : option ope_key
}.

(** The frames the client may write, given its keys and what the operator
    typed.  Outside the loop: the public modulus.  In a round, by the
    command typed: the code alone for 0 and 1; for 2, the two ciphertexts of
    the salary typed in that round; for 3 and 4, the two ids typed in that
    round. *)
Inductive client_frame (keys : Keys) (rounds : list round) : json -> Prop :=
| frame_key n :
    phe_public_key keys = Some n ->
    client_frame keys rounds (JObj [("n", JInt n)])
| frame_bare env code :
    In env rounds ->
    int_of_input (command env) = Ok code ->
    code = 0 \/ code = 1 ->
    client_frame keys rounds (JObj [("instruction", JStr (str_of_Z code))])
| frame_add env salary n k c1 c2 :
    In env rounds ->
    int_of_input (command env) = Ok 2 ->
    int_of_input (answer_1 env) = Ok salary ->
    phe_public_key keys = Some n ->
    ope_key_of keys = Some k ->
    phe_encrypt n salary (noise env) = Ok c1 ->
    ope_encrypt k salary = Ok c2 ->
    client_frame keys rounds
      (JObj [("instruction", JStr "2");
             ("data", JObj [("paillier_salary", JInt c1); ("ope_salary", JInt c2)])])
| frame_ids env code :
    In env rounds ->
    int_of_input (command env) = Ok code ->
    code = 3 \/ code = 4 ->
    client_frame keys rounds
      (JObj [("instruction", JStr (str_of_Z code));
             ("data", JObj [("id_1", JStr (answer_1 env));
                            ("id_2", JStr (answer_2 env))])]).

(** How [generate] fares. *)
Inductive keygen : Type :=
| Generated (n : Z) (sk : private_key) (k : ope_key)
| PaillierFailed
| OpeFailed (n : Z) (sk : private_key).

(** [Keys()], that is [generate]. *)
Definition generate (g : keygen) : Keys * list event :=
  match g with
  | Generated n sk k => (mk_Keys (Some n) (Some sk) (Some k), [])
  | PaillierFailed => (mk_Keys None None None, [LogError "keys generation failed!"])
  | OpeFailed n sk => (mk_Keys (Some n) (Some sk) None, [LogError "keys generation failed!"])
  end.

Definition send_public_key (keys : Keys) (ok : bool) : list event :=
  match phe_public_key keys with
  | Some n =>
      if ok then [Sent (JObj [("n", JInt n)])]
      else [SendFailed (JObj [("n", JInt n)]); LogError "failed to send paillier public key!"]
  | None => [LogError "failed to send paillier public key!"]
  end.

Definition attr {A} (field : option A) : res A :=
  match field with
  | Some a => Ok a
  | None => Raise AttributeError
  end.

Definition add_employee (env : round) (keys : Keys) : M Instruction unit :=
  salary <- lift (int_of_input (answer_1 env)) ;;
  pk <- lift (attr (phe_public_key keys)) ;;
  paillier_salary <- lift (phe_encrypt pk salary (noise env)) ;;
  k <- lift (attr (ope_key_of keys)) ;;
  ope_salary <- lift (ope_encrypt k salary) ;;
  set_data "data" (JObj [("paillier_salary", JInt paillier_salary);
                         ("ope_salary", JInt ope_salary)]) ;;
  send env.

Definition send_instruction (env : round) (keys : Keys) : M Instruction bool :=
  try_finally
    (try_except
       (i <- get ;;
        set_data "instruction" (JStr (str_of_instruction (instruction i))) ;;
        match instruction i with
        | Some 0 => quit env ;; ret true
        | Some 1 => get_table env ;; ret true
        | Some 2 => add_employee env keys ;; ret true
        | Some 3 => compare_employees env ;; ret true
        | Some 4 => get_salaries_sum env ;; ret true
        | _ => emit (LogError "wrong input value") ;; ret false
        end)
       (set_instruction None ;; ret false))
    clear_data.

(** The [case 0:] branch of [read_result]. *)
Definition show_success (keys : Keys) : M Instruction unit :=
  i <- get ;;
  match instruction i with
  | Some 4 =>
      pk <- lift (attr (phe_public_key keys)) ;;
      v <- lift (getitem (result_data i) "data") ;;
      c <- lift (int v) ;;
      sk <- lift (attr (phe_private_key keys)) ;;
      m <- lift (phe_decrypt sk pk c) ;;
      emit (Printed (str_of_Z m))
  | _ =>
      v <- lift (getitem (result_data i) "data") ;;
      emit (Printed (str v))
  end.

Definition read_result (env : round) (keys : Keys) : M Instruction bool :=
  try_finally
    (try_except
       (j <- lift (recv_loads (reply env)) ;;
        set_result_data j ;;
        code <- lift (getitem j "result") ;;
        (if eq_literal code 0 then show_success keys
         else if eq_literal code 1 then emit (LogError "server failed to read instruction")
         else if eq_literal code 2 then emit (LogError "server failed to execute instruction")
         else if eq_literal code 21 then
                v <- lift (getitem j "data") ;;
                emit (LogError ("server error: " ++ str v))
         else if eq_literal code 3 then emit (LogError "server failed to send result")
         else emit (LogError ("unknown result code: " ++ str code))) ;;
        ret true)
       (ret false))
    clear_result.

(** How the client loop stands once the given rounds are used up. *)
Inductive status : Type :=
| Finished   (* the loop was left on instruction 0 *)
| Aborted    (* an exception reached the handler of [app] *)
| Waiting.   (* blocked on the operator *)

Definition quit_seen (i : Instruction) : bool :=
  match instruction i with
  | Some 0 => true
  | _ => false
  end.

(** The body of the [while] loop of [app]. *)
Definition turn (env : round) (keys : Keys) : M Instruction unit :=
  got <- read_instruction env ;;
  if got then
    sent <- send_instruction env keys ;;
    if sent then
      shown <- read_result env keys ;;
      if shown then ret tt else emit (LogError "failed to read result")
    else
      emit (LogError "failed to send instruction")
  else
    emit (LogError "failed to read instruction").

(** The [while instruction.instruction != 0] loop, one round per turn. *)
Fixpoint run (keys : Keys) (rounds : list round) : M Instruction status :=
  fun i =>
    if quit_seen i then (Ok Finished, i, [])
    else
      match rounds with
      | [] => (Ok Waiting, i, [])
      | env :: rest => (turn env keys ;; run keys rest) i
      end.

(** The [try ... except ... finally] around the loop: an exception is
    logged, and the socket is closed on the way out. *)
Definition conclude (r : res status) (ev : list event) : status * list event :=
  match r with
  | Ok Waiting => (Waiting, ev)
  | Ok st => (st, ev ++ [Closed])
  | Raise _ => (Aborted, ev ++ [LogError "something went wrong!"; Closed])
  end%list.

Definition app (g : keygen) (key_sent : bool) (rounds : list round)
  : status * Instruction * list event :=
  let '(keys, ev_gen) := generate g in
  let ev_key := send_public_key keys key_sent in
  let '(r, i, ev) := run keys rounds new_Instruction in
  let '(st, ev') := conclude r ev in
  (st, i, [Connected] ++ ev_gen ++ ev_key ++ ev')%list.

End WithCrypto.

End Client.

(* ===================================================================== *)
(** ** A concrete instance of the two schemes *)
(* ===================================================================== *)

(** Textbook Paillier over two small primes and an affine order-preserving
    map.  It stands in for [phe] and [pyope] where a session is run on
    concrete numbers. *)
Module Toy.
Import Py.

Fixpoint powmod_pos (b : Z) (e : positive) (m : Z) : Z :=
  match e with
  | xH => b mod m
  | xO e' => let h := powmod_pos b e' m in (h * h) mod m
  | xI e' => let h := powmod_pos b e' m in ((h * h) mod m * b) mod m
  end.

Definition powmod (b e m : Z) : Z :=
  match e with
  | Zpos p => powmod_pos b p m
  | _ => 1 mod m
  end.

Definition p : Z := 211.
Definition q : Z := 223.
Definition n : Z := p * q.

(** [lambda = lcm(p-1, q-1)] and [mu = lambda^-1 mod n]. *)
Definition lambda : Z := Z.lcm (p - 1) (q - 1).
Definition mu : Z := powmod lambda ((p - 1) * (q - 1) - 1) n.

Definition max_int (n : Z) : Z := n / 3 - 1.

Definition encrypt (n m r : Z) : res Z :=
  if (Z.abs m <=? max_int n)%Z
  then Ok ((((1 + n * (m mod n)) mod (n * n)) * powmod r n (n * n)) mod (n * n))
  else Raise ValueError.

Definition add (n c1 c2 r : Z) : res Z :=
  Ok ((((c1 * c2) mod (n * n)) * powmod r n (n * n)) mod (n * n)).

Definition decrypt (sk : Z * Z) (n c : Z) : res Z :=
  let '(l, m) := sk in
  let plain := (((powmod c l (n * n) - 1) / n) * m) mod n in
  if (plain <=? max_int n)%Z then Ok plain
  else if (n - max_int n <=? plain)%Z then Ok (plain - n)
  else Raise CryptoError.

Definition ope (k m : Z) : res Z :=
  if (0 <=? m)%Z && (m <? 32768)%Z then Ok (k * m + 977) else Raise ValueError.

#[export] Instance crypto : Crypto := {|
  private_key := Z * Z;
  ope_key := Z;
  phe_encrypt := encrypt;
  phe_add := add;
  phe_decrypt := decrypt;
  ope_encrypt := ope
|}.

Definition keys : Client.keygen := Client.Generated n (lambda, mu) 65003.

(** A collation: [utf8mb4_general_ci] on ASCII text, where letters weigh as
    their capitals and the shorter text is padded with spaces. *)
Definition weight (c : ascii) : N :=
  let n := N_of_ascii c in
  if (97 <=? n)%N && (n <=? 122)%N then (n - 32)%N else n.

Fixpoint spaces_vs (s : string) : comparison :=
  match s with
  | EmptyString => Eq
  | String c t =>
      match (32 ?= weight c)%N with
      | Eq => spaces_vs t
      | r => r
      end
  end.

Fixpoint collate (s1 s2 : string) : comparison :=
  match s1, s2 with
  | EmptyString, _ => spaces_vs s2
  | _, EmptyString => CompOpp (spaces_vs s1)
  | String c1 t1, String c2 t2 =>
      match (weight c1 ?= weight c2)%N with
      | Eq => collate t1 t2
      | r => r
      end
  end.

#[export] Instance collation : Store.Collation := {|
  Store.collate := collate
|}.

(** An interpreter for runs on ASCII text without reals: one that limits the
    digits of a numeral.  The runs never ask it about anything else. *)
#[export] Instance interpreter : Interpreter := {|
  int_of_unicode := fun _ => None;
  limits_digits := true;
  repr_float := fun _ => EmptyString;
  repr_unicode := fun s => s
|}.

End Toy.

(* ===================================================================== *)
(** ** Both programs, back to back *)
(* ===================================================================== *)

Module Session.
Import Py.

Definition frames_sent (ev : list event) : list json :=
  flat_map (fun e => match e with Sent j => [j] | _ => [] end) ev.

(** Every frame handed to [send], delivered or not. *)
Definition writes (ev : list event) : list json :=
  flat_map (fun e => match e with Sent j | SendFailed j => [j] | _ => [] end) ev.

(** The result codes of the server, as it writes them. *)
Definition result_codes : list string := ["0"; "1"; "2"; "3"; "21"].

Definition coded (j : json) : Prop :=
  exists c, getitem j "result" = Ok (JStr c) /\ In c result_codes.

Definition printed (ev : list event) : list string :=
  flat_map (fun e => match e with Printed t => [t] | _ => [] end) ev.

(** The server's side of a round in which the store answers and the socket
    delivers. *)
Definition server_round (f : json) (noise : Z) : Server.round :=
  Server.mk_round (Doc f) true noise true true.

Definition with_reply (op : Client.round) (r : received) : Client.round :=
  Client.mk_round (Client.command op) (Client.answer_1 op) (Client.answer_2 op)
                  (Client.noise op) (Client.send_ok op) r.

Section WithCrypto.
Context {interp : Py.Interpreter} {coll : Store.Collation}.
Context `{Crypto}.

(** The instruction loops of the two programs over a channel that delivers
    every frame: what the client writes in a round is what the server reads
    in that round, and the server's answer is what the client reads.  A
    round in which the client writes nothing does not reach the server.
    Returns the events of the client and those of the server. *)
Fixpoint play (keys : Client.Keys) (key : Server.Key) (ops : list Client.round)
  (ci : Client.Instruction) (ss : Server.state) : list event * list event :=
  match ops with
  | [] => ([], [])
  | op :: rest =>
      let '(_, ci_quiet, written) := Client.run keys [op] ci in
      match frames_sent written with
      | [] =>
          let '(cev, sev) := play keys key rest ci_quiet ss in
          (written ++ cev, sev)%list
      | f :: _ =>
          let '(_, ss', answered) :=
            Server.serve key [server_round f (Client.noise op)] ss in
          let r := match frames_sent answered with
                   | j :: _ => Doc j
                   | [] => RecvError
                   end in
          let '(_, ci', shown) := Client.run keys [with_reply op r] ci in
          let '(cev, sev) := play keys key rest ci' ss' in
          (shown ++ cev, answered ++ sev)%list
      end
  end.

(** Set-up followed by the loops: the server rebuilds its key from the frame
    the client announces. *)
Definition back_to_back (g : Client.keygen) (existing : Store.database)
  (ops : list Client.round) : list event * list event :=
  let '(keys, _) := Client.generate g in
  let announced := match frames_sent (Client.send_public_key keys true) with
                   | f :: _ => Doc f
                   | [] => RecvError
                   end in
  let '(key, _) := Server.read_paillier_public_key (Server.mk_Key None) announced in
  let '(db0, _) := Server.connect_to_db existing in
  play keys key ops Client.new_Instruction (Server.mk_state Server.new_Instruction db0).

End WithCrypto.

End Session.

(* ===================================================================== *)
(** ** Concrete inputs *)
(* ===================================================================== *)

Module Example.
Import Py.

(** A store with no table yet. *)
Definition fresh : Store.database := Store.mk_database [] [] 1.

(** An operator round on a working socket; the reply is filled in by
    [Session.play]. *)
Definition op (command answer_1 answer_2 : string) (noise : Z) : Client.round :=
  Client.mk_round command answer_1 answer_2 noise true RecvError.

(** ADD(5000), ADD(7000), SUM(1,2). *)
Definition add_add_sum : list Client.round :=
  [op "2" "5000" "" 17; op "2" "7000" "" 23; op "4" "1" "2" 31].

Definition key : Server.Key := Server.mk_Key (Some Toy.n).

Definition start (db : Store.database) : Server.state :=
  Server.mk_state Server.new_Instruction db.

(** A server round in which the store answers and the socket delivers. *)
Definition heard (j : json) : Server.round := Server.mk_round (Doc j) true 0 true true.

Definition instr (code : string) : json := JObj [("instruction", JStr code)].

Definition instr_ids (code id_1 id_2 : string) : json :=
  JObj [("instruction", JStr code);
        ("data", JObj [("id_1", JStr id_1); ("id_2", JStr id_2)])].

(** Two employees whose order ciphertexts have different lengths. *)
Definition nine_and_ten : Store.database :=
  Store.mk_database ["Employees"]
    [Store.mk_row 1 "1827328072" "9"; Store.mk_row 2 "2124259098" "10"] 3.

(** Two employees as ADD(5000), ADD(7000) leaves them under [Toy]. *)
Definition two_employees : Store.database :=
  Store.mk_database ["Employees"]
    [Store.mk_row 1 "1827328072" "325015977"; Store.mk_row 2 "2124259098" "455021977"] 3.

Definition one_employee : Store.database :=
  Store.mk_database ["Employees"] [Store.mk_row 1 "1827328072" "325015977"] 2.

End Example.

(* ===================================================================== *)
(** ** Frames as the client builds them *)
(* ===================================================================== *)

Module Frames.
Import Py.

(** What [add_employee] of the client writes for the two ciphertexts. *)
Definition add (paillier_salary ope_salary : Z) : json :=
  JObj [("instruction", JStr "2");
        ("data", JObj [("paillier_salary", JInt paillier_salary);
                       ("ope_salary", JInt ope_salary)])].

(** What [compare_employees] and [get_salaries_sum] of the client write when
    the operator types the two ids in decimal. *)
Definition ids (code id_1 id_2 : Z) : json :=
  JObj [("instruction", JStr (str_of_Z code));
        ("data", JObj [("id_1", JStr (str_of_Z id_1));
                       ("id_2", JStr (str_of_Z id_2))])].

(** What [quit] and [get_table] of the client write. *)
Definition bare (code : Z) : json :=
  JObj [("instruction", JStr (str_of_Z code))].

End Frames.

(* ===================================================================== *)
(** ** The start of the server *)
(* ===================================================================== *)

Module Launch.
Import Py.

(** How [_listen_to] fares: the socket listens; [bind] or [listen] raised
    [OSError], which is logged; or the socket could not even be made, and
    the [return] then names a variable that was never assigned. *)
Inductive listening : Type :=
| Listening
| BindFailed
| NoSocket.

(** What the outside decides before the loop. *)
Record startup : Type := mk_startup {
  listen : listening;
  accept_ok : bool;
  db_connected : bool;
  db_user : string
}.

(** [Some tt]: the function returned; [None]: an exception left it. *)
Definition _listen_to (l : listening) : option unit * list event :=
  match l with
  | Listening => (Some tt, [])
  | BindFailed => (Some tt, [LogError "failed to start listening socket!"])
  | NoSocket => (None, [LogError "failed to start listening socket!"])
  end.

(** When [accept] raises, the handler's log call names [client_address],
    which was never assigned: a second exception leaves the function before
    anything is logged. *)
Definition _accept_connection (ok : bool) : option unit :=
  if ok then Some tt else None.

(** [_connect_to_db] in full.  When the connection cannot be made both
    [try] blocks fail and are logged, and the [return] names variables that
    were never assigned. *)
Definition _connect_to_db (connected : bool) (user : string)
  (existing : Store.database) : option Store.database * list event :=
  if connected then
    let '(db0, ev) := Server.connect_to_db existing in (Some db0, ev)
  else
    (None,
     [LogError ("failed to connect to 127.0.0.1 database with " ++ user);
      LogError "failed to create a new table"]).

(** How [app] of the server ends. *)
Inductive outcome : Type :=
| Died (ev : list event)
| Served (st : Server.status) (s : Server.state) (ev : list event).

Section WithCrypto.
Context {interp : Py.Interpreter} {coll : Store.Collation}.
Context `{Crypto}.

(** [app] with its first four calls: none of them is inside the [try], so
    an exception there ends the process at once, with nothing closed. *)
Definition app (up : startup) (key_frame : received) (existing : Store.database)
  (rounds : list Server.round) : outcome :=
  match _listen_to (listen up) with
  | (None, ev_listen) => Died ev_listen
  | (Some _, ev_listen) =>
      match _accept_connection (accept_ok up) with
      | None => Died ev_listen
      | Some _ =>
          let '(key, ev_key) :=
            Server.read_paillier_public_key (Server.mk_Key None) key_frame in
          match _connect_to_db (db_connected up) (db_user up) existing with
          | (None, ev_db) => Died (ev_listen ++ ev_key ++ ev_db)%list
          | (Some db0, ev_db) =>
              let '(r, s, ev) :=
                Server.serve key rounds (Server.mk_state Server.new_Instruction db0) in
              let '(st, ev') := Server.conclude r ev in
              Served st s (ev_listen ++ ev_key ++ ev_db ++ ev')%list
          end
      end
  end.

End WithCrypto.

End Launch.

(* ===================================================================== *)
(** ** The client between two rounds *)
(* ===================================================================== *)

Module Between.
Import Py.

(** The client's instruction object as every completed turn of its loop
    leaves it: [instruction_data] cleared, and [result_data] cleared as a
    dict or, after a reply that was a list, as a list. *)
Definition client_cleared (i : Client.Instruction) : Prop :=
  Client.instruction_data i = [] /\
  (Client.result_data i = JObj [] \/ Client.result_data i = JList []).

(** A document that has [clear()]. *)
Definition container (j : json) : bool :=
  match j with
  | JObj _ | JList _ => true
  | _ => false
  end.

End Between.

(* ===================================================================== *)
(** * Facts *)
(* ===================================================================== *)

Import Py.

(** ** Proof steps *)

Ltac run_step :=
  match goal with
  | H : (_, _, _) = (_, _, _) |- _ => inversion H; subst; clear H
  | H : context [match ?x with _ => _ end] |- _ =>
      destruct x eqn:?; try discriminate
  end.

Ltac ev_norm := cbn; rewrite ?app_nil_r, <- ?app_assoc; cbn; try reflexivity.

Ltac unfold_handlers :=
  unfold Server.dispatch, Server.quit, Server.get_table, Server.add_employee,
    Server.compare_employees, Server.get_salaries_sum, Server.wrong_instruction_value,
    Server.data_field, Server.db_execute, Server.set_result, Server.set_instruction,
    bind, get, lift, modify, ret, raise, emit.

Section Facts.
Context {interp : Interpreter} {coll : Store.Collation}.

(** ** Dicts and decimal text *)

Lemma dict_get_set_same d k v : dict_get (dict_set d k v) k = Some v.
Proof.
  induction d as [|[k' v'] d IH]; cbn.
  - now rewrite String.eqb_refl.
  - destruct (String.eqb k k') eqn:E; cbn; rewrite E; auto.
Qed.

Lemma dict_get_set_other d k k' v :
  k <> k' -> dict_get (dict_set d k v) k' = dict_get d k'.
Proof.
  intros Hne. induction d as [|[k0 v0] d IH]; cbn.
  - destruct (String.eqb k' k) eqn:E; auto. apply String.eqb_eq in E. congruence.
  - destruct (String.eqb k k0) eqn:E; cbn.
    + apply String.eqb_eq in E. subst k0.
      destruct (String.eqb k' k) eqn:E'; auto. apply String.eqb_eq in E'. congruence.
    + destruct (String.eqb k' k0); auto.
Qed.

Lemma digit_not_space c : is_digit c = true -> is_space c = false.
Proof.
  unfold is_digit, is_space. intros Hd.
  apply andb_true_iff in Hd. destruct Hd as [H1 H2].
  apply N.leb_le in H1, H2.
  apply orb_false_iff. split.
  - apply andb_false_iff. right. apply N.leb_gt. lia.
  - apply N.eqb_neq. lia.
Qed.

Lemma digits_ascii s : all_digits s = true -> is_ascii s = true.
Proof.
  induction s as [|c t IH]; cbn; intros Hall; auto.
  apply andb_true_iff in Hall. destruct Hall as [Hc Ht].
  rewrite (IH Ht), andb_true_r. apply N.ltb_lt.
  unfold is_digit in Hc. apply andb_true_iff in Hc. destruct Hc as [_ Hc].
  apply N.leb_le in Hc. lia.
Qed.

Lemma int_of_text_ascii s : is_ascii s = true -> int_of_text s = int_of_ascii s.
Proof. intros Ha. unfold int_of_text. now rewrite Ha. Qed.

(** A text that holds a character outside ASCII is the interpreter's to
    read, for the operator's input as for a document. *)
Lemma int_of_input_unicode s :
  is_ascii s = false ->
  int_of_input s = int_of_text s.
Proof. intros Ha. unfold int_of_input, int_of_text. now rewrite Ha. Qed.

(** An interpreter that limits digits refuses an input of more than 4300
    digits, leading zeros included. *)
Lemma int_of_input_long s :
  limits_digits = true -> is_ascii s = true -> 4300 < count_digits s ->
  int_of_input s = Raise ValueError.
Proof.
  intros Hl Ha Hn. unfold int_of_input. rewrite Ha, Hl.
  now rewrite (proj2 (Z.ltb_lt _ _) Hn).
Qed.

(** The separators 0x1C to 0x1F are no white space for [int] in an ASCII
    text. *)
Lemma int_refuses_separators c :
  (28 <= N_of_ascii c <= 31)%N ->
  int_of_text (String c "0") = Raise ValueError /\
  int_of_input (String c "0") = Raise ValueError.
Proof.
  intros Hc.
  assert (Hcases : c = ascii_of_N 28 \/ c = ascii_of_N 29 \/
                   c = ascii_of_N 30 \/ c = ascii_of_N 31).
  { rewrite <- (ascii_N_embedding c).
    assert (N_of_ascii c = 28 \/ N_of_ascii c = 29 \/
            N_of_ascii c = 30 \/ N_of_ascii c = 31)%N as [-> |[-> |[-> | ->]]] by lia;
      auto. }
  unfold int_of_input.
  destruct Hcases as [-> |[-> |[-> | ->]]]; cbn; destruct limits_digits; split; reflexivity.
Qed.

Lemma parse_digits_all s :
  all_digits s = true ->
  forall acc, parse_digits s acc true = Some (decimal s acc).
Proof.
  induction s as [|c t IH]; cbn; intros Hall acc; auto.
  apply andb_true_iff in Hall. destruct Hall as [Hc Ht].
  rewrite Hc. now apply IH.
Qed.

Lemma rstrip_digits s : all_digits s = true -> rstrip s = s.
Proof.
  induction s as [|c t IH]; cbn; intros Hall; auto.
  apply andb_true_iff in Hall. destruct Hall as [Hc Ht].
  rewrite (IH Ht). destruct t; auto.
  now rewrite (digit_not_space c Hc).
Qed.

Lemma lstrip_digits s : all_digits s = true -> lstrip s = s.
Proof.
  destruct s as [|c t]; cbn; intros Hall; auto.
  apply andb_true_iff in Hall. destruct Hall as [Hc Ht].
  now rewrite (digit_not_space c Hc).
Qed.

(** ** Lines of the table *)

Lemma at_most_one_row a rows :
  NoDup (map Store.row_id rows) ->
  (List.length (filter (Store.id_in a a) rows) <= 1)%nat.
Proof.
  induction rows as [|r rows IH]; cbn; intros Hnd; [lia|].
  inversion Hnd as [|x l Hnotin Hnd']; subst.
  specialize (IH Hnd').
  unfold Store.id_in at 1. rewrite orb_diag.
  destruct (Z.eqb_spec (Store.row_id r) a) as [Heq|Hne]; cbn; [|lia].
  assert (Hnone : filter (Store.id_in a a) rows = []).
  { clear IH Hnd Hnd'. induction rows as [|r' rows IH']; cbn; auto.
    unfold Store.id_in at 1. rewrite orb_diag.
    destruct (Z.eqb_spec (Store.row_id r') a) as [Heq'|Hne'].
    - exfalso. apply Hnotin. cbn. left. congruence.
    - apply IH'. intros Hin. apply Hnotin. cbn. now right. }
  rewrite Hnone. cbn. lia.
Qed.

Lemma row_of_id rows r r' :
  NoDup (map Store.row_id rows) ->
  In r rows -> In r' rows -> Store.row_id r = Store.row_id r' -> r = r'.
Proof.
  induction rows as [|r0 rows IH]; cbn; intros Hnd Hin Hin' Hid; [tauto|].
  inversion Hnd as [|x l Hnotin Hnd']; subst.
  destruct Hin as [->|Hin], Hin' as [->|Hin']; auto.
  - exfalso. apply Hnotin. rewrite Hid. now apply in_map.
  - exfalso. apply Hnotin. rewrite <- Hid. now apply in_map.
Qed.

Lemma two_members {A} (l : list A) (x y : A) :
  NoDup l -> x <> y ->
  (forall z, In z l <-> z = x \/ z = y) ->
  l = [x; y] \/ l = [y; x].
Proof.
  intros Hnd Hxy Hmem.
  destruct l as [|u [|v [|w l]]].
  - exfalso. apply (proj2 (Hmem x)). now left.
  - exfalso.
    assert (Hx : In x [u]) by (apply Hmem; now left).
    assert (Hy : In y [u]) by (apply Hmem; now right).
    cbn in Hx, Hy. destruct Hx as [Hx|[]], Hy as [Hy|[]]. congruence.
  - assert (Hu : u = x \/ u = y) by (apply Hmem; cbn; auto).
    assert (Hv : v = x \/ v = y) by (apply Hmem; cbn; auto).
    inversion Hnd as [|? ? Hnotin _]; subst. cbn in Hnotin.
    destruct Hu as [->| ->], Hv as [->| ->]; auto; exfalso; apply Hnotin; auto.
  - exfalso.
    assert (Hu : u = x \/ u = y) by (apply Hmem; cbn; auto).
    assert (Hv : v = x \/ v = y) by (apply Hmem; cbn; auto).
    assert (Hw : w = x \/ w = y) by (apply Hmem; cbn; auto).
    inversion Hnd as [|? ? Hn1 Hnd1]; subst.
    inversion Hnd1 as [|? ? Hn2 _]; subst. cbn in Hn1, Hn2.
    destruct Hu as [->| ->], Hv as [->| ->], Hw as [->| ->]; tauto.
Qed.

Lemma filter_two_rows rows r1 r2 :
  NoDup (map Store.row_id rows) ->
  In r1 rows -> In r2 rows -> Store.row_id r1 <> Store.row_id r2 ->
  let f := filter (Store.id_in (Store.row_id r1) (Store.row_id r2)) rows in
  f = [r1; r2] \/ f = [r2; r1].
Proof.
  intros Hnd H1 H2 Hne f.
  apply two_members.
  - apply NoDup_filter. eapply NoDup_map_inv; eauto.
  - congruence.
  - intros z. unfold f. rewrite filter_In. unfold Store.id_in.
    rewrite orb_true_iff, !Z.eqb_eq. split.
    + intros [Hz [Hid|Hid]]; [left|right]; eapply row_of_id; eauto.
    + intros [->| ->]; auto.
Qed.

Lemma NoDup_snoc {A} (l : list A) (x : A) :
  NoDup l -> ~ In x l -> NoDup (l ++ [x]).
Proof.
  induction l as [|y l IH]; cbn; intros Hnd Hnotin.
  - constructor; [tauto|constructor].
  - inversion Hnd as [|? ? Hy Hnd']; subst. constructor.
    + rewrite in_app_iff. cbn. intros [Hin|[Heq|[]]]; [tauto|].
      apply Hnotin. now left.
    + apply IH; auto.
Qed.

Lemma insert_well_formed db phe ope :
  Store.well_formed db -> Store.well_formed (Store.insert_employee db phe ope).
Proof.
  intros [Hnd Hlt]. unfold Store.well_formed, Store.unique_ids, Store.insert_employee.
  cbn. split.
  - rewrite map_app. cbn. apply NoDup_snoc; [exact Hnd|].
    intros Hin. apply in_map_iff in Hin. destruct Hin as (r & Hid & Hin).
    rewrite Forall_forall in Hlt. specialize (Hlt r Hin). lia.
  - apply Forall_app. split.
    + eapply Forall_impl; [|exact Hlt]. cbn. intros r Hr. lia.
    + constructor; [cbn; lia|constructor].
Qed.

(** ** The server *)

Section ServerFacts.
Context `{Crypto}.

Lemma send_result_ok env s :
  Server.send_ok env = true ->
  Server.send_result env s =
    (Ok true,
     Server.mk_state (Server.mk_Instruction (Server.instruction (Server.self s))
        (Server.instruction_data (Server.self s)) []) (Server.db s),
     [Sent (JObj (Server.result_data (Server.self s)))]).
Proof.
  intros Hs. unfold Server.send_result, Server.send, try_finally, try_except, bind, get.
  rewrite Hs. reflexivity.
Qed.

Lemma send_result_retry env s :
  Server.send_ok env = false -> Server.retry_ok env = true ->
  Server.send_result env s =
    (Ok false,
     Server.mk_state (Server.mk_Instruction None
        (Server.instruction_data (Server.self s)) []) (Server.db s),
     [SendFailed (JObj (Server.result_data (Server.self s)));
      Sent (JObj [("result", JStr "3")])]).
Proof.
  intros Hs Hr. unfold Server.send_result, Server.send, try_finally, try_except, bind, get.
  rewrite Hs. cbn. rewrite Hr. reflexivity.
Qed.

Lemma send_result_lost env s :
  Server.send_ok env = false -> Server.retry_ok env = false ->
  Server.send_result env s =
    (Raise OSError,
     Server.mk_state (Server.mk_Instruction None
        (Server.instruction_data (Server.self s)) []) (Server.db s),
     [SendFailed (JObj (Server.result_data (Server.self s)));
      SendFailed (JObj [("result", JStr "3")])]).
Proof.
  intros Hs Hr. unfold Server.send_result, Server.send, try_finally, try_except, bind, get.
  rewrite Hs. cbn. rewrite Hr. reflexivity.
Qed.


Lemma read_instruction_doc env s j :
  Server.incoming env = Doc j ->
  Server.read_instruction env s = (Ok true, Server.after_read s j, []).
Proof.
  intros Hi. unfold Server.read_instruction, try_except, bind, lift.
  rewrite Hi. reflexivity.
Qed.

Lemma read_instruction_unreadable env s e :
  recv_loads (Server.incoming env) = Raise e ->
  Server.read_instruction env s = (Ok false, Server.failed s "1", []).
Proof.
  intros Hr. unfold Server.read_instruction, try_except, bind, lift.
  rewrite Hr. reflexivity.
Qed.

Lemma execute_instruction_raised env key s e s1 ev1 :
  Server.dispatch env key s = (Raise e, s1, ev1) ->
  Server.execute_instruction env key s = (Ok false, Server.failed s1 "2", ev1).
Proof.
  intros Hd. unfold Server.execute_instruction, try_except, bind.
  rewrite Hd. cbn. now rewrite app_nil_r.
Qed.

Lemma execute_instruction_done env key s s1 ev1 :
  Server.dispatch env key s = (Ok tt, s1, ev1) ->
  Server.execute_instruction env key s = (Ok true, s1, ev1).
Proof.
  intros Hd. unfold Server.execute_instruction, try_except, bind.
  rewrite Hd. cbn. now rewrite app_nil_r.
Qed.

Lemma prepare_unreadable env key s e :
  recv_loads (Server.incoming env) = Raise e ->
  Server.prepare env key s =
    (Ok tt, Server.failed s "1", [LogError "failed to read instruction"]).
Proof.
  intros Hr. unfold Server.prepare, bind.
  rewrite (read_instruction_unreadable _ _ _ Hr). reflexivity.
Qed.

Lemma prepare_raised env key s j e s1 ev1 :
  Server.incoming env = Doc j ->
  Server.dispatch env key (Server.after_read s j) = (Raise e, s1, ev1) ->
  Server.prepare env key s =
    (Ok tt, Server.failed s1 "2", (ev1 ++ [LogError "failed to execute instruction"])%list).
Proof.
  intros Hi Hd. unfold Server.prepare, bind.
  rewrite (read_instruction_doc _ _ _ Hi), (execute_instruction_raised _ _ _ _ _ _ Hd).
  reflexivity.
Qed.

Lemma prepare_done env key s j s1 ev1 :
  Server.incoming env = Doc j ->
  Server.dispatch env key (Server.after_read s j) = (Ok tt, s1, ev1) ->
  Server.prepare env key s = (Ok tt, s1, ev1).
Proof.
  intros Hi Hd. unfold Server.prepare, bind.
  rewrite (read_instruction_doc _ _ _ Hi), (execute_instruction_done _ _ _ _ _ Hd).
  cbn. now rewrite app_nil_r.
Qed.

Lemma prepare_total env key s :
  exists s1 ev1, Server.prepare env key s = (Ok tt, s1, ev1).
Proof.
  destruct (recv_loads (Server.incoming env)) as [j|e] eqn:Hr.
  - assert (Hi : Server.incoming env = Doc j).
    { destruct (Server.incoming env); cbn in Hr; congruence. }
    destruct (Server.dispatch env key (Server.after_read s j)) as [[[[]|e] s1] ev1] eqn:Hd.
    + eexists _, _. eapply prepare_done; eauto.
    + eexists _, _. eapply prepare_raised; eauto.
  - eexists _, _. eapply prepare_unreadable; eauto.
Qed.

Lemma turn_prepare env key s :
  Server.turn env key s =
    bind (Server.prepare env key)
         (fun _ => bind (Server.send_result env) Server.report_send) s.
Proof.
  unfold Server.turn, Server.prepare, bind.
  destruct (Server.read_instruction env s) as [[[[|]|e] s0] ev0]; try reflexivity.
  - destruct (Server.execute_instruction env key s0) as [[[[|]|e] s1] ev1]; try reflexivity;
      cbn; destruct (Server.send_result env s1) as [[[b|e] s2] ev2]; cbn;
      try destruct (Server.report_send b s2) as [[r s3] ev3]; ev_norm.
  - cbn. destruct (Server.send_result env s0) as [[[b|e] s2] ev2]; cbn;
      try destruct (Server.report_send b s2) as [[r s3] ev3]; ev_norm.
Qed.

Lemma turn_delivered env key s s1 ev1 :
  Server.prepare env key s = (Ok tt, s1, ev1) ->
  Server.send_ok env = true ->
  Server.turn env key s =
    (Ok tt, Server.emptied (Server.instruction (Server.self s1)) s1,
     (ev1 ++ [Sent (JObj (Server.result_data (Server.self s1)))])%list).
Proof.
  intros Hp Hs. rewrite turn_prepare. unfold bind at 1. rewrite Hp.
  unfold bind. rewrite (send_result_ok _ _ Hs). ev_norm.
Qed.

Lemma turn_degraded env key s s1 ev1 :
  Server.prepare env key s = (Ok tt, s1, ev1) ->
  Server.send_ok env = false -> Server.retry_ok env = true ->
  Server.turn env key s =
    (Ok tt, Server.emptied None s1,
     (ev1 ++ [SendFailed (JObj (Server.result_data (Server.self s1)));
              Sent (JObj [("result", JStr "3")]);
              LogError "failed to send result"])%list).
Proof.
  intros Hp Hs Hr. rewrite turn_prepare. unfold bind at 1. rewrite Hp.
  unfold bind. rewrite (send_result_retry _ _ Hs Hr). ev_norm.
Qed.

Lemma turn_lost env key s s1 ev1 :
  Server.prepare env key s = (Ok tt, s1, ev1) ->
  Server.send_ok env = false -> Server.retry_ok env = false ->
  Server.turn env key s =
    (Raise OSError, Server.emptied None s1,
     (ev1 ++ [SendFailed (JObj (Server.result_data (Server.self s1)));
              SendFailed (JObj [("result", JStr "3")])])%list).
Proof.
  intros Hp Hs Hr. rewrite turn_prepare. unfold bind at 1. rewrite Hp.
  unfold bind. rewrite (send_result_lost _ _ Hs Hr). ev_norm.
Qed.

Lemma serve_cons key env rest s :
  Server.quit_seen s = false ->
  Server.serve key (env :: rest) s =
    bind (Server.turn env key) (fun _ => Server.serve key rest) s.
Proof. intros Hq. cbn. now rewrite Hq. Qed.


Lemma dispatch_unknown env key s j code :
  res_bind (getitem j "instruction") int = Ok code ->
  code < 0 \/ 4 < code ->
  Server.dispatch env key (Server.after_read s j) =
    (Ok tt,
     Server.mk_state
       (Server.mk_Instruction (Some code) j
          (dict_set (dict_set (Server.result_data (Server.self s)) "result" (JStr "21"))
                    "data" (JStr "wrong instruction value")))
       (Server.db s),
     [LogError "wrong instruction value"]).
Proof.
  intros Hc Hr. unfold Server.dispatch, bind, get, lift. cbn.
  destruct (getitem j "instruction") as [v|]; cbn in Hc; [|discriminate].
  rewrite Hc. cbn.
  destruct code as [|p|p]; [lia| |reflexivity].
  do 3 (destruct p as [p|p|]; try lia; try reflexivity).
Qed.

(** Claim C8.  A frame that is a mapping whose instruction code is an integer
    outside 0..4 (99, say) is answered by the frame with result code 21 and
    the message "wrong instruction value", and the loop goes on with the
    rounds that follow, from a state that holds the same store and has not
    seen a QUIT. *)
Theorem unknown_code_yields_21 key env rest s j code :
  Server.quit_seen s = false ->
  Server.result_data (Server.self s) = [] ->
  Server.incoming env = Doc j ->
  res_bind (getitem j "instruction") int = Ok code ->
  code < 0 \/ 4 < code ->
  Server.send_ok env = true ->
  let s' := Server.mk_state (Server.mk_Instruction (Some code) j []) (Server.db s) in
  Server.quit_seen s' = false /\
  Server.serve key (env :: rest) s =
    let '(r, s'', ev) := Server.serve key rest s' in
    (r, s'',
     ([LogError "wrong instruction value";
       Sent (JObj [("result", JStr "21"); ("data", JStr "wrong instruction value")])]
      ++ ev)%list).
Proof.
  intros Hq He Hi Hc Hr Hs s'. split.
  - unfold Server.quit_seen, s'. cbn. destruct code as [|p|p]; auto. lia.
  - rewrite serve_cons by assumption. unfold bind at 1.
    erewrite turn_delivered;
      [| eapply prepare_done; [eassumption | eapply dispatch_unknown; eassumption]
       | assumption ].
    cbn. rewrite He. unfold Server.emptied. cbn. fold s'.
    destruct (Server.serve key rest s') as [[r s''] ev]. reflexivity.
Qed.

Lemma dispatch_raised_shape env key s e s1 ev1 :
  Server.result_data (Server.self s) = [] ->
  Server.dispatch env key s = (Raise e, s1, ev1) ->
  ev1 = [] /\
  dict_set (Server.result_data (Server.self s1)) "result" (JStr "2") = [("result", JStr "2")] /\
  Server.db s1 = Server.db s /\
  Server.instruction_data (Server.self s1) = Server.instruction_data (Server.self s).
Proof.
  intros He. unfold_handlers. intros Hrun.
  repeat run_step; cbn; rewrite ?He; cbn; auto.
Qed.

(** *** What makes a handler raise

    The failures the handlers meet: the store does not answer, the payload
    is missing, an id is no number, no line matches. *)

Lemma dispatch_store_down env key s j :
  res_bind (getitem j "instruction") int = Ok 1 ->
  Server.db_up env = false ->
  exists s1, Server.dispatch env key (Server.after_read s j) = (Raise DatabaseError, s1, []).
Proof.
  intros Hc Hup.
  destruct (getitem j "instruction") as [v|] eqn:Hv; cbn in Hc; [|discriminate].
  unfold Server.dispatch, Server.get_table, Server.db_execute, Server.set_instruction,
    bind, get, lift, raise, ret, modify.
  repeat (cbn; rewrite ?Hv, ?Hc, ?Hup). eauto.
Qed.

Lemma dispatch_missing_payload env key s j code e :
  res_bind (getitem j "instruction") int = Ok code ->
  code = 2 \/ code = 3 \/ code = 4 ->
  getitem j "data" = Raise e ->
  exists s1, Server.dispatch env key (Server.after_read s j) = (Raise e, s1, []).
Proof.
  intros Hc Hcode Hd.
  destruct (getitem j "instruction") as [v|] eqn:Hv; cbn in Hc; [|discriminate].
  unfold Server.dispatch, Server.add_employee, Server.compare_employees,
    Server.get_salaries_sum, Server.data_field, Server.set_instruction,
    bind, get, lift, raise, ret, modify.
  destruct Hcode as [->|[->| ->]]; repeat (cbn; rewrite ?Hv, ?Hc, ?Hd); eauto.
Qed.

Lemma dispatch_bad_id env key s j code d v e :
  res_bind (getitem j "instruction") int = Ok code ->
  code = 3 \/ code = 4 ->
  getitem j "data" = Ok d ->
  getitem d "id_1" = Ok v ->
  int v = Raise e ->
  exists s1, Server.dispatch env key (Server.after_read s j) = (Raise e, s1, []).
Proof.
  intros Hc Hcode Hd Hv1 Hbad.
  destruct (getitem j "instruction") as [v0|] eqn:Hv; cbn in Hc; [|discriminate].
  unfold Server.dispatch, Server.compare_employees,
    Server.get_salaries_sum, Server.data_field, Server.set_instruction,
    bind, get, lift, raise, ret, modify.
  destruct Hcode as [->| ->]; repeat (cbn; rewrite ?Hv, ?Hc, ?Hd, ?Hv1, ?Hbad); eauto.
Qed.

Lemma dispatch_compare_nobody env key s j a b :
  res_bind (getitem j "instruction") int = Ok 3 ->
  res_bind (res_bind (getitem j "data") (fun d => getitem d "id_1")) int = Ok a ->
  res_bind (res_bind (getitem j "data") (fun d => getitem d "id_2")) int = Ok b ->
  Server.db_up env = true ->
  filter (Store.id_in a b) (Store.employees (Server.db s)) = [] ->
  exists s1, Server.dispatch env key (Server.after_read s j) = (Raise TypeError, s1, []).
Proof.
  intros Hc Ha Hb Hup Hnone.
  destruct (getitem j "instruction") as [v|] eqn:Hv; cbn in Hc; [|discriminate].
  destruct (getitem j "data") as [d|] eqn:Hd; cbn in Ha, Hb; [|discriminate].
  destruct (getitem d "id_1") as [v1|] eqn:Hv1; cbn in Ha; [|discriminate].
  destruct (getitem d "id_2") as [v2|] eqn:Hv2; cbn in Hb; [|discriminate].
  unfold Server.dispatch, Server.compare_employees, Server.data_field, Server.db_execute,
    Server.set_instruction, Server.set_result, Store.select_top_id,
    bind, get, lift, raise, ret, modify.
  repeat (cbn; rewrite ?Hv, ?Hc, ?Hd, ?Hv1, ?Ha, ?Hv2, ?Hb, ?Hup, ?Hnone). eauto.
Qed.

Lemma turn_failed_execution key env s j e s1 ev1 :
  Server.result_data (Server.self s) = [] ->
  Server.incoming env = Doc j ->
  Server.dispatch env key (Server.after_read s j) = (Raise e, s1, ev1) ->
  Server.send_ok env = true ->
  Server.turn env key s =
    (Ok tt, Server.mk_state (Server.mk_Instruction None j []) (Server.db s),
     [LogError "failed to execute instruction"; Sent (JObj [("result", JStr "2")])]).
Proof.
  intros He Hi Hd Hs.
  destruct (dispatch_raised_shape env key (Server.after_read s j) e s1 ev1 He Hd)
    as (-> & Hres & Hdb & Hdata).
  erewrite turn_delivered; [| eapply prepare_raised; eassumption | assumption].
  unfold Server.emptied, Server.failed. cbn. now rewrite Hres, Hdb, Hdata.
Qed.

Lemma serve_step key env rest s s' evs :
  Server.quit_seen s = false ->
  Server.turn env key s = (Ok tt, s', evs) ->
  Server.serve key (env :: rest) s =
    let '(r, s'', ev) := Server.serve key rest s' in (r, s'', (evs ++ ev)%list).
Proof.
  intros Hq Ht. rewrite serve_cons by assumption. unfold bind. now rewrite Ht.
Qed.

Lemma turn_failed_execution_retried key env s j e s1 ev1 :
  Server.result_data (Server.self s) = [] ->
  Server.incoming env = Doc j ->
  Server.dispatch env key (Server.after_read s j) = (Raise e, s1, ev1) ->
  Server.send_ok env = false -> Server.retry_ok env = true ->
  Server.turn env key s =
    (Ok tt, Server.mk_state (Server.mk_Instruction None j []) (Server.db s),
     [LogError "failed to execute instruction";
      SendFailed (JObj [("result", JStr "2")]);
      Sent (JObj [("result", JStr "3")]);
      LogError "failed to send result"]).
Proof.
  intros He Hi Hd Hs Hr.
  destruct (dispatch_raised_shape env key (Server.after_read s j) e s1 ev1 He Hd)
    as (-> & Hres & Hdb & Hdata).
  erewrite turn_degraded; [| eapply prepare_raised; eassumption | assumption..].
  unfold Server.emptied, Server.failed. cbn. now rewrite Hres, Hdb, Hdata.
Qed.

(** Claim C4.  When the handlers raise while executing an instruction
    (whatever the exception), the exception stops at [execute_instruction]:
    the server logs the failure and hands the frame with result code 2, and
    nothing else, to [send]; the loop goes on with the rounds that follow,
    whether that frame is delivered or only the retry with code 3 is. *)
Theorem failed_execution_yields_2 key env rest s j e s1 ev1 :
  Server.quit_seen s = false ->
  Server.result_data (Server.self s) = [] ->
  Server.incoming env = Doc j ->
  Server.dispatch env key (Server.after_read s j) = (Raise e, s1, ev1) ->
  Server.send_ok env = true \/ Server.retry_ok env = true ->
  let s' := Server.mk_state (Server.mk_Instruction None j []) (Server.db s) in
  let code_2 := JObj [("result", JStr "2")] in
  Server.quit_seen s' = false /\
  Server.serve key (env :: rest) s =
    let '(r, s'', ev) := Server.serve key rest s' in
    (r, s'',
     ([LogError "failed to execute instruction"]
      ++ (if Server.send_ok env then [Sent code_2]
          else [SendFailed code_2; Sent (JObj [("result", JStr "3")]);
                LogError "failed to send result"])
      ++ ev)%list).
Proof.
  intros Hq He Hi Hd Hsend s' code_2. split; [reflexivity|].
  destruct (Server.send_ok env) eqn:Hs.
  - rewrite (serve_step key env rest s _ _ Hq
               (turn_failed_execution key env s j e s1 ev1 He Hi Hd Hs)).
    fold s'. now destruct (Server.serve key rest s') as [[r s''] ev].
  - destruct Hsend as [Hs'|Hr]; [discriminate|].
    rewrite (serve_step key env rest s _ _ Hq
               (turn_failed_execution_retried key env s j e s1 ev1 He Hi Hd Hs Hr)).
    fold s'. now destruct (Server.serve key rest s') as [[r s''] ev].
Qed.

Lemma sum_short_raises env key s j a b :
  res_bind (getitem j "instruction") int = Ok 4 ->
  res_bind (res_bind (getitem j "data") (fun d => getitem d "id_1")) int = Ok a ->
  res_bind (res_bind (getitem j "data") (fun d => getitem d "id_2")) int = Ok b ->
  (List.length (Store.select_phe (Server.db s) a b) < 2)%nat ->
  exists e s1 ev1, Server.dispatch env key (Server.after_read s j) = (Raise e, s1, ev1).
Proof.
  intros Hc Ha Hb Hlen.
  destruct (getitem j "instruction") as [v|] eqn:Hv; cbn in Hc; [|discriminate].
  destruct (getitem j "data") as [d|] eqn:Hd; cbn in Ha, Hb; [|discriminate].
  destruct (getitem d "id_1") as [v1|] eqn:Hv1; cbn in Ha; [|discriminate].
  destruct (getitem d "id_2") as [v2|] eqn:Hv2; cbn in Hb; [|discriminate].
  unfold Server.dispatch, Server.get_salaries_sum, Server.data_field, Server.db_execute,
    Server.set_instruction, bind, get, lift, raise, ret, modify.
  repeat (cbn; rewrite ?Hv, ?Hc, ?Hd, ?Hv1, ?Ha, ?Hv2, ?Hb).
  destruct (Server.db_up env); cbn; [|eauto].
  unfold Server.salary_at.
  destruct (Store.select_phe (Server.db s) a b) as [|t0 [|t1 l]]; cbn in Hlen |- *;
    [eauto| |lia].
  destruct (int_of_text t0); cbn; eauto.
Qed.

(** Claim C10.  A SUM whose two ids are equal, or for which fewer than two
    lines of the table match, fetches fewer than two lines; the handler
    raises and the round is answered by the frame with result code 2 and no
    data, so no sum, and in particular no doubled salary, is returned. *)
Theorem sum_of_fewer_than_two_rows_yields_2 key env rest s j a b :
  Server.quit_seen s = false ->
  Server.result_data (Server.self s) = [] ->
  Store.unique_ids (Server.db s) ->
  Server.incoming env = Doc j ->
  res_bind (getitem j "instruction") int = Ok 4 ->
  res_bind (res_bind (getitem j "data") (fun d => getitem d "id_1")) int = Ok a ->
  res_bind (res_bind (getitem j "data") (fun d => getitem d "id_2")) int = Ok b ->
  a = b \/ (List.length (filter (Store.id_in a b) (Store.employees (Server.db s))) < 2)%nat ->
  Server.send_ok env = true ->
  let s' := Server.mk_state (Server.mk_Instruction None j []) (Server.db s) in
  (List.length (Store.select_phe (Server.db s) a b) < 2)%nat /\
  Server.serve key (env :: rest) s =
    let '(r, s'', ev) := Server.serve key rest s' in
    (r, s'',
     ([LogError "failed to execute instruction"; Sent (JObj [("result", JStr "2")])]
      ++ ev)%list).
Proof.
  intros Hq He Hu Hi Hc Ha Hb Hfew Hs s'.
  assert (Hlen : (List.length (Store.select_phe (Server.db s) a b) < 2)%nat).
  { unfold Store.select_phe. rewrite length_map.
    destruct Hfew as [->|Hlt]; [|exact Hlt].
    pose proof (at_most_one_row b _ Hu). lia. }
  split; [exact Hlen|].
  destruct (sum_short_raises env key s j a b Hc Ha Hb Hlen) as (e & s1 & ev1 & Hd).
  apply serve_step; [assumption|].
  eapply turn_failed_execution; eassumption.
Qed.

(** The success path of SUM: with two matching lines whose [phe_salary] are
    numbers, the answer carries the combination [phe] computes from them. *)
Lemma turn_sum_combines key env s j a b t1 t2 others n c1 c2 c :
  Server.result_data (Server.self s) = [] ->
  Server.incoming env = Doc j ->
  res_bind (getitem j "instruction") int = Ok 4 ->
  res_bind (res_bind (getitem j "data") (fun d => getitem d "id_1")) int = Ok a ->
  res_bind (res_bind (getitem j "data") (fun d => getitem d "id_2")) int = Ok b ->
  Server.db_up env = true ->
  Store.select_phe (Server.db s) a b = t1 :: t2 :: others ->
  int_of_text t1 = Ok c1 ->
  int_of_text t2 = Ok c2 ->
  Server.phe_public_key key = Some n ->
  phe_add n c1 c2 (Server.noise env) = Ok c ->
  Server.send_ok env = true ->
  Server.turn env key s =
    (Ok tt,
     Server.mk_state (Server.mk_Instruction (Some 4) j []) (Server.db s),
     [Sent (JObj [("result", JStr "0"); ("data", JInt c)])]).
Proof.
  intros He Hi Hc Ha Hb Hup Hrows H1 H2 Hn Hadd Hs.
  assert (Hd : Server.dispatch env key (Server.after_read s j) =
               (Ok tt,
                Server.mk_state
                  (Server.mk_Instruction (Some 4) j
                     [("result", JStr "0"); ("data", JInt c)])
                  (Server.db s),
                [])).
  { destruct (getitem j "instruction") as [v|] eqn:Hv; cbn in Hc; [|discriminate].
    destruct (getitem j "data") as [d|] eqn:Hd; cbn in Ha, Hb; [|discriminate].
    destruct (getitem d "id_1") as [v1|] eqn:Hv1; cbn in Ha; [|discriminate].
    destruct (getitem d "id_2") as [v2|] eqn:Hv2; cbn in Hb; [|discriminate].
    unfold Server.dispatch, Server.get_salaries_sum, Server.data_field,
      Server.db_execute, Server.set_instruction, Server.set_result, Server.salary_at,
      bind, get, lift, raise, ret, modify.
    repeat (cbn; rewrite ?Hv, ?Hc, ?Hd, ?Hv1, ?Ha, ?Hv2, ?Hb, ?Hup, ?Hrows,
                         ?H1, ?H2, ?Hn, ?Hadd, ?He).
    reflexivity. }
  erewrite turn_delivered; [| eapply prepare_done; eassumption | assumption].
  reflexivity.
Qed.

Lemma dispatch_no_code env key s j e :
  getitem j "instruction" = Raise e ->
  Server.dispatch env key (Server.after_read s j) = (Raise e, Server.after_read s j, []).
Proof.
  intros Hg. unfold Server.dispatch, bind, get, lift. cbn. now rewrite Hg.
Qed.

Lemma turn_unreadable key env s e :
  Server.result_data (Server.self s) = [] ->
  recv_loads (Server.incoming env) = Raise e ->
  Server.send_ok env = true ->
  Server.turn env key s =
    (Ok tt,
     Server.mk_state
       (Server.mk_Instruction None (Server.instruction_data (Server.self s)) [])
       (Server.db s),
     [LogError "failed to read instruction"; Sent (JObj [("result", JStr "1")])]).
Proof.
  intros He Hr Hs.
  erewrite turn_delivered; [| eapply prepare_unreadable; eassumption | assumption].
  unfold Server.emptied, Server.failed. cbn. now rewrite He.
Qed.

(** Claim C6, as amended.  A frame that cannot be received or decoded is
    answered with result code 1 and the loop goes on.  A frame that decodes
    but is no mapping, or lacks the instruction field, passes
    [read_instruction]; it fails in [execute_instruction] and is answered
    with result code 2, and the loop goes on likewise. *)
Theorem undecodable_frame_yields_1 key env rest s :
  Server.quit_seen s = false ->
  Server.result_data (Server.self s) = [] ->
  Server.send_ok env = true ->
  (forall e, recv_loads (Server.incoming env) = Raise e ->
     Server.serve key (env :: rest) s =
       let '(r, s'', ev) :=
         Server.serve key rest
           (Server.mk_state
              (Server.mk_Instruction None (Server.instruction_data (Server.self s)) [])
              (Server.db s)) in
       (r, s'',
        ([LogError "failed to read instruction"; Sent (JObj [("result", JStr "1")])]
         ++ ev)%list))
  /\
  (forall j e, Server.incoming env = Doc j -> getitem j "instruction" = Raise e ->
     Server.serve key (env :: rest) s =
       let '(r, s'', ev) :=
         Server.serve key rest
           (Server.mk_state (Server.mk_Instruction None j []) (Server.db s)) in
       (r, s'',
        ([LogError "failed to execute instruction"; Sent (JObj [("result", JStr "2")])]
         ++ ev)%list)).
Proof.
  intros Hq He Hs. split.
  - intros e Hr. apply serve_step; [assumption|].
    eapply turn_unreadable; eassumption.
  - intros j e Hi Hg. apply serve_step; [assumption|].
    eapply turn_failed_execution; try eassumption.
    apply dispatch_no_code. eassumption.
Qed.

Lemma dispatch_events env key s r s1 ev1 :
  Server.dispatch env key s = (r, s1, ev1) -> Session.writes ev1 = [].
Proof.
  unfold_handlers. intros Hrun.
  repeat run_step; reflexivity.
Qed.

Lemma prepare_writes_nothing env key s r s1 ev1 :
  Server.prepare env key s = (r, s1, ev1) -> Session.writes ev1 = [].
Proof.
  intros Hp.
  destruct (recv_loads (Server.incoming env)) as [j|e] eqn:Hr.
  - assert (Hi : Server.incoming env = Doc j).
    { destruct (Server.incoming env); cbn in Hr; congruence. }
    destruct (Server.dispatch env key (Server.after_read s j)) as [[[[]|e] s2] ev2] eqn:Hd.
    + rewrite (prepare_done _ _ _ _ _ _ Hi Hd) in Hp. inversion Hp; subst.
      eapply dispatch_events; eauto.
    + rewrite (prepare_raised _ _ _ _ _ _ _ Hi Hd) in Hp. inversion Hp; subst.
      unfold Session.writes. rewrite flat_map_app. cbn. rewrite app_nil_r.
      eapply dispatch_events; eauto.
  - rewrite (prepare_unreadable _ _ _ _ Hr) in Hp. inversion Hp; subst. reflexivity.
Qed.

(** Claim C7, as amended.  When the send of a result fails, nothing was
    written before it in that round and the server tries once more, with the
    frame of result code 3.  If the retry is delivered the failure is logged
    and the loop goes on.  If the retry fails too, the exception leaves
    [send_result] and the loop: no further round is read, and the handler of
    [app] logs it and closes the session. *)
Theorem undelivered_result_retried_once key env rest s :
  Server.quit_seen s = false ->
  Server.send_ok env = false ->
  exists s1 ev1,
    Server.prepare env key s = (Ok tt, s1, ev1) /\ Session.writes ev1 = [] /\
    (Server.retry_ok env = true ->
       Server.serve key (env :: rest) s =
         let '(r, s'', ev) := Server.serve key rest (Server.emptied None s1) in
         (r, s'',
          (ev1 ++ [SendFailed (JObj (Server.result_data (Server.self s1)));
                   Sent (JObj [("result", JStr "3")]);
                   LogError "failed to send result"] ++ ev)%list)) /\
    (Server.retry_ok env = false ->
       let lost := (ev1 ++ [SendFailed (JObj (Server.result_data (Server.self s1)));
                            SendFailed (JObj [("result", JStr "3")])])%list in
       Server.serve key (env :: rest) s = (Raise OSError, Server.emptied None s1, lost) /\
       Server.conclude (Raise OSError) lost =
         (Server.Aborted, (lost ++ [LogError "something went wrong!"; Closed])%list)).
Proof.
  intros Hq Hs.
  destruct (prepare_total env key s) as (s1 & ev1 & Hp).
  exists s1, ev1. split; [exact Hp|]. split; [eapply prepare_writes_nothing; eauto|].
  split; intros Hr.
  - rewrite (serve_step key env rest s _ _ Hq (turn_degraded _ _ _ _ _ Hp Hs Hr)).
    destruct (Server.serve key rest (Server.emptied None s1)) as [[r s''] ev].
    now rewrite <- app_assoc.
  - split; [|reflexivity].
    rewrite serve_cons by assumption. unfold bind.
    now rewrite (turn_lost _ _ _ _ _ Hp Hs Hr).
Qed.

Lemma dispatch_coded env key s s1 ev1 :
  Server.dispatch env key s = (Ok tt, s1, ev1) ->
  Session.coded (JObj (Server.result_data (Server.self s1))).
Proof.
  unfold Session.coded, Session.result_codes, getitem. unfold_handlers. intros Hrun.
  repeat run_step; cbn;
    repeat (rewrite ?dict_get_set_same, ?dict_get_set_other by discriminate);
    eexists; (split; [reflexivity|cbn; tauto]).
Qed.

Lemma failed_coded s c :
  In c Session.result_codes ->
  Session.coded (JObj (Server.result_data (Server.self (Server.failed s c)))).
Proof.
  intros Hin. exists c. split; [|exact Hin].
  unfold getitem, Server.failed. cbn. now rewrite dict_get_set_same.
Qed.

Lemma prepare_coded env key s s1 ev1 :
  Server.prepare env key s = (Ok tt, s1, ev1) ->
  Session.coded (JObj (Server.result_data (Server.self s1))).
Proof.
  intros Hp.
  destruct (recv_loads (Server.incoming env)) as [j|e] eqn:Hr.
  - assert (Hi : Server.incoming env = Doc j).
    { destruct (Server.incoming env); cbn in Hr; congruence. }
    destruct (Server.dispatch env key (Server.after_read s j)) as [[[[]|e] s2] ev2] eqn:Hd.
    + rewrite (prepare_done _ _ _ _ _ _ Hi Hd) in Hp. inversion Hp; subst.
      eapply dispatch_coded; eauto.
    + rewrite (prepare_raised _ _ _ _ _ _ _ Hi Hd) in Hp. inversion Hp; subst.
      apply failed_coded. cbn. tauto.
  - rewrite (prepare_unreadable _ _ _ _ Hr) in Hp. inversion Hp; subst.
    apply failed_coded. cbn. tauto.
Qed.

Lemma writes_app ev ev' : Session.writes (ev ++ ev') = (Session.writes ev ++ Session.writes ev')%list.
Proof. unfold Session.writes. apply flat_map_app. Qed.

Lemma degraded_coded : Session.coded (JObj [("result", JStr "3")]).
Proof. exists "3". split; [reflexivity|cbn; tauto]. Qed.

Lemma turn_writes_coded env key s r s' ev :
  Server.turn env key s = (r, s', ev) ->
  Forall Session.coded (Session.writes ev).
Proof.
  intros Ht.
  destruct (prepare_total env key s) as (s1 & ev1 & Hp).
  pose proof (prepare_writes_nothing _ _ _ _ _ _ Hp) as Hw.
  pose proof (prepare_coded _ _ _ _ _ Hp) as Hc.
  destruct (Server.send_ok env) eqn:Hs; [|destruct (Server.retry_ok env) eqn:Hr].
  - rewrite (turn_delivered _ _ _ _ _ Hp Hs) in Ht. inversion Ht; subst.
    rewrite writes_app, Hw. cbn. auto.
  - rewrite (turn_degraded _ _ _ _ _ Hp Hs Hr) in Ht. inversion Ht; subst.
    rewrite writes_app, Hw. cbn. auto using degraded_coded.
  - rewrite (turn_lost _ _ _ _ _ Hp Hs Hr) in Ht. inversion Ht; subst.
    rewrite writes_app, Hw. cbn. auto using degraded_coded.
Qed.

Lemma serve_writes_coded key rounds :
  forall s r s' ev,
    Server.serve key rounds s = (r, s', ev) -> Forall Session.coded (Session.writes ev).
Proof.
  induction rounds as [|env rest IH]; intros s r s' ev Hrun.
  - cbn in Hrun. destruct (Server.quit_seen s); inversion Hrun; subst; constructor.
  - destruct (Server.quit_seen s) eqn:Hq.
    + cbn in Hrun. rewrite Hq in Hrun. inversion Hrun; subst; constructor.
    + rewrite serve_cons in Hrun by assumption. unfold bind in Hrun.
      destruct (Server.turn env key s) as [[[[]|e] s1] ev1] eqn:Ht.
      * destruct (Server.serve key rest s1) as [[r2 s2] ev2] eqn:Hrest.
        inversion Hrun; subst. rewrite writes_app. apply Forall_app. split.
        -- eapply turn_writes_coded; eauto.
        -- eapply IH; eauto.
      * inversion Hrun; subst. eapply turn_writes_coded; eauto.
Qed.

Lemma read_result_text_code env keys ci j c :
  Client.reply env = Doc j ->
  getitem j "result" = Ok (JStr c) ->
  Client.read_result env keys ci =
    (Ok true,
     Client.mk_Instruction (Client.instruction ci) (Client.instruction_data ci) (JObj []),
     [LogError ("unknown result code: " ++ c)]).
Proof.
  intros Hr Hg.
  unfold Client.read_result, try_finally, try_except, bind, lift.
  rewrite Hr. cbn. rewrite Hg. cbn.
  destruct j; cbn in Hg; try discriminate. reflexivity.
Qed.

(** Claim C9.  Every frame the server hands to [send] carries its result code
    as one of the texts "0", "1", "2", "3", "21"; the client, which compares
    the code with integer literals, takes none of its coded branches on such
    a frame: whatever its keys and its state, [read_result] only logs
    "unknown result code". *)
Theorem server_results_reach_default_branch key rounds s r s' ev j :
  Server.serve key rounds s = (r, s', ev) ->
  In j (Session.writes ev) ->
  exists c,
    In c Session.result_codes /\
    getitem j "result" = Ok (JStr c) /\
    forall env keys ci,
      Client.reply env = Doc j ->
      Client.read_result env keys ci =
        (Ok true,
         Client.mk_Instruction (Client.instruction ci) (Client.instruction_data ci)
                               (JObj []),
         [LogError ("unknown result code: " ++ c)]).
Proof.
  intros Hrun Hin.
  pose proof (serve_writes_coded key rounds s r s' ev Hrun) as Hall.
  rewrite Forall_forall in Hall. destruct (Hall j Hin) as (c & Hg & Hc).
  exists c. repeat split; auto.
  intros env keys ci Hr. exact (read_result_text_code env keys ci j c Hr Hg).
Qed.

(** *** Between rounds

    Every round of a session starts in a [ready] state, so what is proved of
    one round from such a state holds of each round of the loop. *)

Lemma dispatch_well_formed env key s r s1 ev1 :
  Store.well_formed (Server.db s) ->
  Server.dispatch env key s = (r, s1, ev1) ->
  Store.well_formed (Server.db s1).
Proof.
  intros Hwf. unfold_handlers. intros Hrun.
  repeat run_step; cbn; auto using insert_well_formed.
Qed.

Lemma prepare_well_formed env key s s1 ev1 :
  Store.well_formed (Server.db s) ->
  Server.prepare env key s = (Ok tt, s1, ev1) ->
  Store.well_formed (Server.db s1).
Proof.
  intros Hwf Hp.
  destruct (recv_loads (Server.incoming env)) as [j|e] eqn:Hr.
  - assert (Hi : Server.incoming env = Doc j).
    { destruct (Server.incoming env); cbn in Hr; congruence. }
    destruct (Server.dispatch env key (Server.after_read s j)) as [[[[]|e] s2] ev2] eqn:Hd.
    + rewrite (prepare_done _ _ _ _ _ _ Hi Hd) in Hp. inversion Hp; subst.
      eapply dispatch_well_formed; [|exact Hd]. exact Hwf.
    + rewrite (prepare_raised _ _ _ _ _ _ _ Hi Hd) in Hp. inversion Hp; subst.
      cbn. eapply dispatch_well_formed; [|exact Hd]. exact Hwf.
  - rewrite (prepare_unreadable _ _ _ _ Hr) in Hp. inversion Hp; subst. exact Hwf.
Qed.

Lemma turn_ready env key s r s' ev :
  Store.well_formed (Server.db s) ->
  Server.turn env key s = (r, s', ev) ->
  Server.ready s'.
Proof.
  intros Hwf Ht.
  destruct (prepare_total env key s) as (s1 & ev1 & Hp).
  pose proof (prepare_well_formed _ _ _ _ _ Hwf Hp) as Hwf1.
  destruct (Server.send_ok env) eqn:Hs; [|destruct (Server.retry_ok env) eqn:Hr].
  - rewrite (turn_delivered _ _ _ _ _ Hp Hs) in Ht. inversion Ht; subst. now split.
  - rewrite (turn_degraded _ _ _ _ _ Hp Hs Hr) in Ht. inversion Ht; subst. now split.
  - rewrite (turn_lost _ _ _ _ _ Hp Hs Hr) in Ht. inversion Ht; subst. now split.
Qed.

Lemma serve_ready key rounds : forall s r s' ev,
  Server.ready s ->
  Server.serve key rounds s = (r, s', ev) ->
  Server.ready s'.
Proof.
  induction rounds as [|env rest IH]; intros s r s' ev Hready Hrun.
  - cbn in Hrun. destruct (Server.quit_seen s); inversion Hrun; subst; exact Hready.
  - destruct (Server.quit_seen s) eqn:Hq.
    + cbn in Hrun. rewrite Hq in Hrun. inversion Hrun; subst; exact Hready.
    + rewrite serve_cons in Hrun by assumption. unfold bind in Hrun.
      destruct (Server.turn env key s) as [[[[]|e] s1] ev1] eqn:Ht.
      * pose proof (turn_ready _ _ _ _ _ _ (proj2 Hready) Ht) as Hready1.
        destruct (Server.serve key rest s1) as [[r2 s2] ev2] eqn:Hrest.
        inversion Hrun; subst. eapply IH; eauto.
      * inversion Hrun; subst. eapply turn_ready; [exact (proj2 Hready)|exact Ht].
Qed.

(** Rounds served so far, then more rounds. *)
Lemma serve_app key rounds more : forall s s1 ev1,
  Server.serve key rounds s = (Ok Server.Waiting, s1, ev1) ->
  Server.serve key (rounds ++ more) s =
    let '(r, s2, ev2) := Server.serve key more s1 in (r, s2, (ev1 ++ ev2)%list).
Proof.
  induction rounds as [|env rest IH]; intros s s1 ev1 Hrun.
  - cbn in Hrun. destruct (Server.quit_seen s); inversion Hrun; subst.
    cbn [app]. now destruct (Server.serve key more s1) as [[r s2] ev2].
  - destruct (Server.quit_seen s) eqn:Hq.
    + cbn in Hrun. rewrite Hq in Hrun. discriminate.
    + change ((env :: rest) ++ more)%list with (env :: (rest ++ more)%list).
      rewrite serve_cons in Hrun |- * by assumption. unfold bind in Hrun |- *.
      destruct (Server.turn env key s) as [[[[]|e] s0] ev0]; [|discriminate].
      destruct (Server.serve key rest s0) as [[r1 s1'] ev1'] eqn:Hrest.
      inversion Hrun; subst.
      rewrite (IH _ _ _ Hrest).
      destruct (Server.serve key more s1) as [[r s2] ev2].
      now rewrite app_assoc.
Qed.

(** The loop of [app] starts ready when the store it finds is well formed. *)
Lemma app_starts_ready existing :
  Store.well_formed existing ->
  Server.ready (Server.mk_state Server.new_Instruction
                                (fst (Server.connect_to_db existing))).
Proof.
  intros Hwf. split; [reflexivity|].
  unfold Server.connect_to_db.
  destruct (existsb (String.eqb "Employees") (Store.tables existing)); cbn.
  - destruct (existsb _ _); exact Hwf.
  - destruct (existsb _ _); cbn; (split; [constructor|constructor]).
Qed.

Lemma dispatch_compare env key s j a b w :
  res_bind (getitem j "instruction") int = Ok 3 ->
  res_bind (res_bind (getitem j "data") (fun d => getitem d "id_1")) int = Ok a ->
  res_bind (res_bind (getitem j "data") (fun d => getitem d "id_2")) int = Ok b ->
  Server.db_up env = true ->
  Store.select_top_id (Server.db s) a b = Some w ->
  Server.dispatch env key (Server.after_read s j) =
    (Ok tt,
     Server.mk_state
       (Server.mk_Instruction (Some 3) j
          (dict_set (dict_set (Server.result_data (Server.self s)) "result" (JStr "0"))
             "data" (JStr ("Id " ++ str_of_Z w ++ " has a higher salary"))))
       (Server.db s),
     []).
Proof.
  intros Hc Ha Hb Hup Hw.
  destruct (getitem j "instruction") as [v|] eqn:Hv; cbn in Hc; [|discriminate].
  destruct (getitem j "data") as [d|] eqn:Hd; cbn in Ha, Hb; [|discriminate].
  destruct (getitem d "id_1") as [v1|] eqn:Hv1; cbn in Ha; [|discriminate].
  destruct (getitem d "id_2") as [v2|] eqn:Hv2; cbn in Hb; [|discriminate].
  unfold Server.dispatch, Server.compare_employees, Server.data_field, Server.db_execute,
    Server.set_instruction, Server.set_result, bind, get, lift, raise, ret, modify.
  repeat (cbn; rewrite ?Hv, ?Hc, ?Hd, ?Hv1, ?Ha, ?Hv2, ?Hb, ?Hup, ?Hw).
  reflexivity.
Qed.

End ServerFacts.

(** ** The client *)

Section ClientFacts.
Context `{Crypto}.

Lemma client_frame_mono keys rounds rounds' j :
  (forall env, In env rounds -> In env rounds') ->
  Client.client_frame keys rounds j -> Client.client_frame keys rounds' j.
Proof.
  intros Hsub Hf. destruct Hf; econstructor; eauto.
Qed.

Lemma send_instruction_frames env keys i r i' ev code :
  Client.instruction_data i = [] ->
  Client.instruction i = Some code ->
  int_of_input (Client.command env) = Ok code ->
  Client.send_instruction env keys i = (r, i', ev) ->
  Client.instruction_data i' = [] /\
  Forall (Client.client_frame keys [env]) (Session.writes ev).
Proof.
  intros He Hi Hcmd.
  unfold Client.send_instruction,
    Client.quit, Client.get_table, Client.add_employee, Client.compare_employees,
    Client.get_salaries_sum, Client.send, Client.clear_data,
    Client.set_data, Client.set_instruction,
    Client.attr,
    try_finally, try_except,
    bind, get, lift, modify, ret, raise, emit.
  rewrite Hi. intros Hrun.
  repeat run_step; cbn; rewrite ?He; cbn; (split; [reflexivity|]);
    repeat constructor.
  all: repeat match goal with
              | Heq : Ok _ = Ok _ |- _ => inversion Heq; subst; clear Heq
              end.
  all: try (eapply (Client.frame_bare keys [env] env 0); cbn; eauto; fail).
  all: try (eapply (Client.frame_bare keys [env] env 1); cbn; eauto; fail).
  all: try (eapply (Client.frame_add keys [env] env); cbn; eauto; fail).
  all: try (eapply (Client.frame_ids keys [env] env 3); cbn; eauto; fail).
  all: try (eapply (Client.frame_ids keys [env] env 4); cbn; eauto; fail).
Qed.

Lemma read_result_writes env keys i r i' ev :
  Client.read_result env keys i = (r, i', ev) ->
  Client.instruction_data i' = Client.instruction_data i /\ Session.writes ev = [].
Proof.
  unfold Client.read_result, Client.show_success, Client.clear_result,
    Client.set_result_data, Client.attr,
    try_finally, try_except, bind, get, lift, modify, ret, raise, emit.
  intros Hrun.
  repeat run_step; cbn; auto.
Qed.

Lemma read_instruction_writes env i r i' ev :
  Client.read_instruction env i = (r, i', ev) ->
  Client.instruction_data i' = Client.instruction_data i /\ Session.writes ev = [] /\
  (r = Ok true ->
   exists code, Client.instruction i' = Some code /\
                int_of_input (Client.command env) = Ok code).
Proof.
  unfold Client.read_instruction, Client.set_instruction,
    try_except_ValueError, bind, get, lift, modify, ret, raise, emit.
  intros Hrun.
  repeat run_step; cbn; repeat split; auto; try discriminate.
  intros _. eauto.
Qed.

Lemma turn_frames env keys i r i' ev :
  Client.instruction_data i = [] ->
  Client.turn env keys i = (r, i', ev) ->
  Client.instruction_data i' = [] /\ Forall (Client.client_frame keys [env]) (Session.writes ev).
Proof.
  intros He. unfold Client.turn. unfold bind at 1.
  destruct (Client.read_instruction env i) as [[r0 i0] ev0] eqn:Hread.
  destruct (read_instruction_writes _ _ _ _ _ Hread) as (Hd0 & Hw0 & Hcode).
  rewrite He in Hd0.
  destruct r0 as [[|]|e]; cbn.
  - destruct (Hcode eq_refl) as (code & Hi0 & Hcmd).
    unfold bind at 1.
    destruct (Client.send_instruction env keys i0) as [[r1 i1] ev1] eqn:Hsend.
    destruct (send_instruction_frames _ _ _ _ _ _ _ Hd0 Hi0 Hcmd Hsend) as [Hd1 Hw1].
    destruct r1 as [[|]|e]; cbn.
    + unfold bind at 1.
      destruct (Client.read_result env keys i1) as [[r2 i2] ev2] eqn:Hres.
      destruct (read_result_writes _ _ _ _ _ _ Hres) as [Hd2 Hw2].
      rewrite Hd1 in Hd2.
      destruct r2 as [[|]|e]; cbn; intros Hrun; inversion Hrun; subst;
        (split; [assumption|]);
        rewrite !writes_app, Hw0, Hw2; cbn; rewrite ?app_nil_r; assumption.
    + intros Hrun; inversion Hrun; subst. split; [assumption|].
      rewrite !writes_app, Hw0. cbn. rewrite ?app_nil_r. assumption.
    + intros Hrun; inversion Hrun; subst. split; [assumption|].
      rewrite !writes_app, Hw0. cbn. assumption.
  - intros Hrun; inversion Hrun; subst. split; [assumption|].
    rewrite !writes_app, Hw0. cbn. constructor.
  - intros Hrun; inversion Hrun; subst. split; [assumption|].
    rewrite Hw0. constructor.
Qed.

Lemma run_frames keys rounds : forall i r i' ev,
  Client.instruction_data i = [] ->
  Client.run keys rounds i = (r, i', ev) ->
  Forall (Client.client_frame keys rounds) (Session.writes ev).
Proof.
  induction rounds as [|env rest IH]; intros i r i' ev He Hrun.
  - cbn in Hrun. destruct (Client.quit_seen i); inversion Hrun; subst; constructor.
  - cbn in Hrun. destruct (Client.quit_seen i).
    + inversion Hrun; subst; constructor.
    + unfold bind in Hrun.
      destruct (Client.turn env keys i) as [[r1 i1] ev1] eqn:Ht.
      destruct (turn_frames _ _ _ _ _ _ He Ht) as [Hd1 Hw1].
      assert (Hw1' : Forall (Client.client_frame keys (env :: rest)) (Session.writes ev1)).
      { eapply Forall_impl; [|exact Hw1].
        intros j. apply client_frame_mono. cbn. tauto. }
      destruct r1 as [[]|e].
      * destruct (Client.run keys rest i1) as [[r2 i2] ev2] eqn:Hrest.
        inversion Hrun; subst. rewrite writes_app. apply Forall_app. split; auto.
        eapply Forall_impl; [|eapply IH; eauto].
        intros j. apply client_frame_mono. cbn. tauto.
      * inversion Hrun; subst. assumption.
Qed.

Lemma writes_conclude r ev :
  Session.writes (snd (Client.conclude r ev)) = Session.writes ev.
Proof.
  destruct r as [[]|e]; cbn; rewrite ?writes_app; cbn; now rewrite ?app_nil_r.
Qed.

(** Claim C3.  Every frame the client hands to [send] in a session is the
    public modulus, an instruction code alone, an instruction code with two
    typed ids, or the code 2 with exactly two numbers: the Paillier
    ciphertext and the order-preserving ciphertext of the salary typed in
    that round.  The salary itself is in no frame. *)
Theorem client_writes_only_ciphertexts g key_sent rounds st i ev j :
  Client.app g key_sent rounds = (st, i, ev) ->
  In j (Session.writes ev) ->
  Client.client_frame (fst (Client.generate g)) rounds j.
Proof.
  unfold Client.app.
  destruct (Client.generate g) as [keys ev_gen] eqn:Hgen. cbn [fst].
  destruct (Client.run keys rounds Client.new_Instruction) as [[r i0] ev0] eqn:Hrun.
  pose proof (writes_conclude r ev0) as Hwc.
  destruct (Client.conclude r ev0) as [st0 ev'] eqn:Hcon. cbn [snd] in Hwc.
  intros Happ Hin. inversion Happ; subst. clear Happ.
  change ([Connected] ++ ev_gen ++ Client.send_public_key keys key_sent ++ ev')%list
    with (Connected :: (ev_gen ++ Client.send_public_key keys key_sent ++ ev')%list) in Hin.
  change (Session.writes (Connected :: ?l)) with (Session.writes l) in Hin.
  rewrite !writes_app, Hwc in Hin.
  rewrite !in_app_iff in Hin. destruct Hin as [Hin|[Hin|Hin]].
  - exfalso. destruct g; inversion Hgen; subst; cbn in Hin; tauto.
  - unfold Client.send_public_key in Hin.
    destruct (Client.phe_public_key keys) as [n|] eqn:Hn; [|cbn in Hin; tauto].
    destruct key_sent; cbn in Hin; destruct Hin as [<-|[]]; now constructor.
  - pose proof (run_frames keys rounds Client.new_Instruction _ _ _ eq_refl Hrun) as Hall.
    rewrite Forall_forall in Hall. auto.
Qed.

End ClientFacts.

(** ** Set-up *)

Section SetupFacts.
Context `{Crypto}.

Lemma generate_failed g :
  (forall n sk k, g <> Client.Generated n sk k) ->
  snd (Client.generate g) = [LogError "keys generation failed!"].
Proof.
  intros Hg. destruct g as [n sk k| |n sk]; cbn; auto.
  exfalso. now apply (Hg n sk k).
Qed.

Lemma rebuild_failed key j e :
  res_bind (getitem j "n") int = Raise e ->
  Server.read_paillier_public_key key (Doc j) =
    (key, [LogError "failed to rebuild paillier public key!"]).
Proof.
  intros Hn. unfold Server.read_paillier_public_key, Server.rebuild_pailler_public_key.
  cbn. now rewrite Hn.
Qed.

(** Claim C5, as amended.  A failed key generation on the client and a
    failed rebuild of the public key on the server (modulus absent or not a
    number) are logged and the session goes on: the client is connected
    before it generates keys, runs its instruction loop on whatever keys it
    has, and writes no key frame when the Paillier key is missing; the
    server runs its loop with its public key unset. *)
Theorem setup_failures_are_logged_and_skipped :
  (forall g key_sent rounds,
     (forall n sk k, g <> Client.Generated n sk k) ->
     Client.app g key_sent rounds =
       let keys := fst (Client.generate g) in
       let '(r, i, ev) := Client.run keys rounds Client.new_Instruction in
       let '(st, ev') := Client.conclude r ev in
       (st, i,
        ([Connected; LogError "keys generation failed!"]
         ++ Client.send_public_key keys key_sent ++ ev')%list))
  /\
  (forall key_sent,
     Session.writes
       (Client.send_public_key (fst (Client.generate Client.PaillierFailed)) key_sent) = [])
  /\
  (forall j e existing rounds,
     res_bind (getitem j "n") int = Raise e ->
     Server.app (Doc j) existing rounds =
       let '(db0, ev_db) := Server.connect_to_db existing in
       let '(r, s, ev) :=
         Server.serve (Server.mk_Key None) rounds
                      (Server.mk_state Server.new_Instruction db0) in
       let '(st, ev') := Server.conclude r ev in
       (st, s,
        ([LogError "failed to rebuild paillier public key!"] ++ ev_db ++ ev')%list)).
Proof.
  split; [|split].
  - intros g key_sent rounds Hg. unfold Client.app.
    pose proof (generate_failed g Hg) as Hlog.
    destruct (Client.generate g) as [keys ev_gen]. cbn in Hlog |- *. subst ev_gen.
    destruct (Client.run keys rounds Client.new_Instruction) as [[r i] ev].
    destruct (Client.conclude r ev) as [st ev']. reflexivity.
  - intros key_sent. reflexivity.
  - intros j e existing rounds Hn. unfold Server.app.
    rewrite (rebuild_failed _ _ _ Hn).
    destruct (Server.connect_to_db existing) as [db0 ev_db].
    destruct (Server.serve (Server.mk_Key None) rounds _) as [[r s] ev].
    destruct (Server.conclude r ev) as [st ev']. reflexivity.
Qed.

End SetupFacts.

(** ** Decimal text written by [str] *)

Ltac digit_value :=
  match goal with
  | |- context [digit_val ?c] =>
      let v := eval vm_compute in (digit_val c) in change (digit_val c) with v
  end.

Lemma string_of_uint_digits d : all_digits (NilEmpty.string_of_uint d) = true.
Proof. induction d; cbn; auto. Qed.

Lemma decimal_uint_acc d : forall acc : positive,
  decimal (NilEmpty.string_of_uint d) (Zpos acc) = Zpos (Pos.of_uint_acc d acc).
Proof.
  induction d; intros acc; cbn [NilEmpty.string_of_uint decimal Pos.of_uint_acc];
    try reflexivity;
    match goal with
    | |- decimal _ ?a = Zpos (Pos.of_uint_acc _ ?b) =>
        replace a with (Zpos b);
        [apply IHd | digit_value; lia]
    end.
Qed.

Lemma decimal_uint d :
  decimal (NilEmpty.string_of_uint d) 0 = Z.of_N (Pos.of_uint d).
Proof.
  induction d; cbn [NilEmpty.string_of_uint decimal Pos.of_uint];
    try reflexivity;
    try (change (10 * 0 + digit_val _) with 0; exact IHd);
    match goal with
    | |- decimal _ ?a = Z.of_N (Npos (Pos.of_uint_acc _ ?b)) =>
        change a with (Zpos b); apply decimal_uint_acc
    end.
Qed.

Lemma int_of_text_all_digits s :
  all_digits s = true -> s <> EmptyString -> int_of_text s = Ok (decimal s 0).
Proof.
  intros Hall Hne. rewrite (int_of_text_ascii s (digits_ascii s Hall)).
  unfold int_of_ascii.
  rewrite (lstrip_digits s Hall), (rstrip_digits s Hall).
  destruct s as [|c t]; [congruence|].
  cbn in Hall. apply andb_true_iff in Hall. destruct Hall as [Hc Ht].
  assert (Hgo : parse_digits (String c t) 0 false = Some (decimal (String c t) 0)).
  { cbn. rewrite Hc. now apply parse_digits_all. }
  destruct c as [[] [] [] [] [] [] [] []]; try discriminate Hc;
    cbn in Hgo |- *; rewrite ?Hgo; reflexivity.
Qed.

Lemma string_of_pos_nonempty p :
  NilEmpty.string_of_uint (Pos.to_uint p) <> EmptyString.
Proof.
  pose proof (DecimalPos.Unsigned.to_uint_nonnil p) as Hnn.
  destruct (Pos.to_uint p); cbn; congruence.
Qed.

Lemma str_of_pos p :
  NilZero.string_of_uint (Pos.to_uint p) = NilEmpty.string_of_uint (Pos.to_uint p).
Proof.
  pose proof (DecimalPos.Unsigned.to_uint_nonnil p) as Hnn.
  destruct (Pos.to_uint p); cbn; congruence.
Qed.

Lemma int_of_text_pos p :
  int_of_text (NilEmpty.string_of_uint (Pos.to_uint p)) = Ok (Zpos p).
Proof.
  rewrite int_of_text_all_digits;
    [| apply string_of_uint_digits | apply string_of_pos_nonempty].
  now rewrite decimal_uint, DecimalPos.Unsigned.of_to.
Qed.

Lemma int_of_text_str z : int_of_text (str_of_Z z) = Ok z.
Proof.
  unfold str_of_Z. destruct z as [|p|p]; cbn [Z.to_int NilZero.string_of_int].
  - reflexivity.
  - rewrite str_of_pos. apply int_of_text_pos.
  - rewrite str_of_pos.
    set (t := NilEmpty.string_of_uint (Pos.to_uint p)).
    assert (Hall : all_digits t = true) by apply string_of_uint_digits.
    assert (Hne : t <> EmptyString) by apply string_of_pos_nonempty.
    assert (Ha : is_ascii (String "-" t) = true)
      by (cbn; apply (digits_ascii t Hall)).
    rewrite (int_of_text_ascii _ Ha). unfold int_of_ascii.
    assert (Hl : lstrip (String "-" t) = String "-" t) by reflexivity.
    rewrite Hl.
    assert (Hr : rstrip (String "-" t) = String "-" t).
    { cbn [rstrip]. rewrite (rstrip_digits t Hall).
      destruct t; [congruence|reflexivity]. }
    rewrite Hr.
    assert (Hp : parse_digits t 0 false = Some (Zpos p)).
    { pose proof (int_of_text_pos p) as Hpos. fold t in Hpos.
      pose proof (int_of_text_all_digits t Hall Hne) as Hd.
      rewrite Hd in Hpos. injection Hpos as Hpos.
      destruct t as [|c t']; [congruence|].
      cbn in Hall. apply andb_true_iff in Hall. destruct Hall as [Hc Ht].
      cbn. rewrite Hc. rewrite parse_digits_all by assumption.
      cbn in Hpos. now rewrite Hpos. }
    cbn. rewrite Hp. reflexivity.
Qed.

(** ** The store across rounds *)

Section StoreAcrossRounds.
Context `{Crypto}.

Lemma dispatch_db env key s r s1 ev1 :
  Server.dispatch env key s = (r, s1, ev1) ->
  Server.db s1 = Server.db s \/
  (res_bind (getitem (Server.instruction_data (Server.self s)) "instruction") int = Ok 2 /\
   r = Ok tt /\
   exists p o, Server.db s1 = Store.insert_employee (Server.db s) p o).
Proof.
  unfold_handlers. intros Hrun.
  repeat run_step; cbn; try (left; reflexivity).
  all: right; repeat match goal with Heq : _ = Ok _ |- _ => rewrite Heq; cbn end.
  all: repeat split; eauto.
Qed.

Lemma turn_db env key s r s' ev :
  Server.turn env key s = (r, s', ev) ->
  exists s1 ev1,
    Server.prepare env key s = (Ok tt, s1, ev1) /\ Server.db s' = Server.db s1.
Proof.
  intros Ht.
  destruct (prepare_total env key s) as (s1 & ev1 & Hp).
  exists s1, ev1. split; [exact Hp|].
  destruct (Server.send_ok env) eqn:Hs; [|destruct (Server.retry_ok env) eqn:Hr].
  - rewrite (turn_delivered _ _ _ _ _ Hp Hs) in Ht. now inversion Ht.
  - rewrite (turn_degraded _ _ _ _ _ Hp Hs Hr) in Ht. now inversion Ht.
  - rewrite (turn_lost _ _ _ _ _ Hp Hs Hr) in Ht. now inversion Ht.
Qed.

Lemma prepare_db env key s s1 ev1 :
  Server.prepare env key s = (Ok tt, s1, ev1) ->
  Server.db s1 = Server.db s \/
  (exists j, Server.incoming env = Doc j /\
             res_bind (getitem j "instruction") int = Ok 2) /\
  exists p o, Server.db s1 = Store.insert_employee (Server.db s) p o.
Proof.
  intros Hp.
  destruct (recv_loads (Server.incoming env)) as [j|e] eqn:Hr.
  - assert (Hi : Server.incoming env = Doc j).
    { destruct (Server.incoming env); cbn in Hr; congruence. }
    destruct (Server.dispatch env key (Server.after_read s j)) as [[[[]|e] s2] ev2] eqn:Hd.
    + rewrite (prepare_done _ _ _ _ _ _ Hi Hd) in Hp. inversion Hp; subst.
      destruct (dispatch_db _ _ _ _ _ _ Hd) as [Hsame|(Hc & _ & Hins)]; [now left|].
      right. split; [exists j; split; [exact Hi|exact Hc]|exact Hins].
    + rewrite (prepare_raised _ _ _ _ _ _ _ Hi Hd) in Hp. inversion Hp; subst.
      destruct (dispatch_db _ _ _ _ _ _ Hd) as [Hsame|(_ & Habs & _)]; [now left|discriminate].
  - rewrite (prepare_unreadable _ _ _ _ Hr) in Hp. inversion Hp; subst. now left.
Qed.

(** A round of the server whose frame does not carry instruction code 2 leaves
    the store as it was, whatever the frame holds and whatever the store and
    the socket do: only ADD writes. *)
Theorem only_add_changes_store env key s r s' ev :
  Server.turn env key s = (r, s', ev) ->
  (forall j, Server.incoming env = Doc j ->
             res_bind (getitem j "instruction") int <> Ok 2) ->
  Server.db s' = Server.db s.
Proof.
  intros Ht Hnot.
  destruct (turn_db _ _ _ _ _ _ Ht) as (s1 & ev1 & Hp & ->).
  destruct (prepare_db _ _ _ _ _ Hp) as [Hsame|[(j & Hi & Hc) _]]; [exact Hsame|].
  exfalso. exact (Hnot j Hi Hc).
Qed.

Lemma serve_grows key rounds : forall s r s' ev,
  Server.serve key rounds s = (r, s', ev) ->
  exists added,
    Store.employees (Server.db s') = (Store.employees (Server.db s) ++ added)%list /\
    Store.tables (Server.db s') = Store.tables (Server.db s) /\
    Store.auto_increment (Server.db s') =
      Store.auto_increment (Server.db s) + Z.of_nat (List.length added).
Proof.
  assert (Hrefl : forall s : Server.state,
    exists added,
      Store.employees (Server.db s) = (Store.employees (Server.db s) ++ added)%list /\
      Store.tables (Server.db s) = Store.tables (Server.db s) /\
      Store.auto_increment (Server.db s) =
        Store.auto_increment (Server.db s) + Z.of_nat (List.length added)).
  { intros s. exists []. rewrite app_nil_r. cbn. repeat split; lia. }
  assert (Hturn : forall env s r s' ev,
    Server.turn env key s = (r, s', ev) ->
    exists added,
      Store.employees (Server.db s') = (Store.employees (Server.db s) ++ added)%list /\
      Store.tables (Server.db s') = Store.tables (Server.db s) /\
      Store.auto_increment (Server.db s') =
        Store.auto_increment (Server.db s) + Z.of_nat (List.length added)).
  { intros env s r s' ev Ht.
    destruct (turn_db _ _ _ _ _ _ Ht) as (s1 & ev1 & Hp & ->).
    destruct (prepare_db _ _ _ _ _ Hp) as [-> |[_ (p & o & ->)]]; [apply Hrefl|].
    eexists [_]. cbn. repeat split; lia. }
  induction rounds as [|env rest IH]; intros s r s' ev Hrun.
  - cbn in Hrun. destruct (Server.quit_seen s); inversion Hrun; subst; apply Hrefl.
  - destruct (Server.quit_seen s) eqn:Hq.
    + cbn in Hrun. rewrite Hq in Hrun. inversion Hrun; subst; apply Hrefl.
    + rewrite serve_cons in Hrun by assumption. unfold bind in Hrun.
      destruct (Server.turn env key s) as [[[[]|e] s1] ev1] eqn:Ht.
      * destruct (Server.serve key rest s1) as [[r2 s2] ev2] eqn:Hrest.
        inversion Hrun; subst.
        destruct (Hturn _ _ _ _ _ Ht) as (a1 & E1 & T1 & A1).
        destruct (IH _ _ _ _ Hrest) as (a2 & E2 & T2 & A2).
        exists (a1 ++ a2)%list. rewrite E2, E1, T2, T1, A2, A1, <- app_assoc, length_app.
        repeat split. lia.
      * inversion Hrun; subst. eapply Hturn; eauto.
Qed.
End StoreAcrossRounds.

(** ** QUIT and ADD on the server *)

Lemma lookup_newest rows k p o :
  Forall (fun r => Store.row_id r < k) rows ->
  filter (Store.id_in k k) (rows ++ [Store.mk_row k p o]) = [Store.mk_row k p o].
Proof.
  intros Hlt. rewrite filter_app. cbn. unfold Store.id_in at 2. cbn.
  rewrite Z.eqb_refl. cbn.
  replace (filter (Store.id_in k k) rows) with (@nil Store.row); [reflexivity|].
  symmetry. induction Hlt as [|r rows Hr _ IH]; cbn; [reflexivity|].
  unfold Store.id_in at 1.
  destruct (Z.eqb_spec (Store.row_id r) k); [lia|]. cbn. exact IH.
Qed.

Lemma frames_sent_of_writes ev : Session.writes ev = [] -> Session.frames_sent ev = [].
Proof.
  induction ev as [|e ev IH]; cbn; [reflexivity|].
  destruct e; cbn; try discriminate; auto.
Qed.

Lemma frames_sent_app ev ev' :
  Session.frames_sent (ev ++ ev') = (Session.frames_sent ev ++ Session.frames_sent ev')%list.
Proof. unfold Session.frames_sent. apply flat_map_app. Qed.

Section QuitAndAdd.
Context `{Crypto}.

(** QUIT *)
Lemma dispatch_quit env key s j :
  res_bind (getitem j "instruction") int = Ok 0 ->
  Server.dispatch env key (Server.after_read s j) =
    (Ok tt,
     Server.mk_state
       (Server.mk_Instruction (Some 0) j
          (dict_set (dict_set (Server.result_data (Server.self s)) "result" (JStr "0"))
                    "data" (JStr "quit")))
       (Server.db s),
     []).
Proof.
  intros Hc.
  destruct (getitem j "instruction") as [v|] eqn:Hv; cbn in Hc; [|discriminate].
  unfold Server.dispatch, Server.quit, Server.set_instruction, Server.set_result,
    bind, get, lift, raise, ret, modify.
  repeat (cbn; rewrite ?Hv, ?Hc). reflexivity.
Qed.

(** QUIT on the server: once the answer (result 0, data quit) is delivered the
    loop is left.  The frames that follow are never read and the store is
    untouched. *)
Theorem quit_answered_then_loop_ends key env rest s j :
  Server.quit_seen s = false ->
  Server.result_data (Server.self s) = [] ->
  Server.incoming env = Doc j ->
  res_bind (getitem j "instruction") int = Ok 0 ->
  Server.send_ok env = true ->
  Server.serve key (env :: rest) s =
    (Ok Server.Finished,
     Server.mk_state (Server.mk_Instruction (Some 0) j []) (Server.db s),
     [Sent (JObj [("result", JStr "0"); ("data", JStr "quit")])]).
Proof.
  intros Hq He Hi Hc Hs.
  rewrite serve_cons by assumption. unfold bind at 1.
  erewrite turn_delivered;
    [| eapply prepare_done; [eassumption | eapply dispatch_quit; eassumption]
     | assumption].
  unfold Server.emptied. cbn. rewrite He. cbn.
  destruct rest; reflexivity.
Qed.

(** QUIT whose answer cannot be sent: [send_result] resets the instruction to
    [None] and writes result code 3 instead, so the loop does not end; it
    goes on with the next frame. *)
Theorem quit_with_lost_answer_keeps_serving key env rest s j :
  Server.quit_seen s = false ->
  Server.result_data (Server.self s) = [] ->
  Server.incoming env = Doc j ->
  res_bind (getitem j "instruction") int = Ok 0 ->
  Server.send_ok env = false ->
  Server.retry_ok env = true ->
  let s' := Server.mk_state (Server.mk_Instruction None j []) (Server.db s) in
  Server.quit_seen s' = false /\
  Server.serve key (env :: rest) s =
    let '(r, s'', ev) := Server.serve key rest s' in
    (r, s'',
     ([SendFailed (JObj [("result", JStr "0"); ("data", JStr "quit")]);
       Sent (JObj [("result", JStr "3")]);
       LogError "failed to send result"] ++ ev)%list).
Proof.
  intros Hq He Hi Hc Hs Hr s'. split; [reflexivity|].
  apply serve_step; [assumption|].
  erewrite turn_degraded;
    [| eapply prepare_done; [eassumption | eapply dispatch_quit; eassumption]
     | assumption..].
  unfold Server.emptied. cbn. now rewrite He.
Qed.

(** ADD *)
Lemma turn_add key env s j d p o :
  Server.result_data (Server.self s) = [] ->
  Server.incoming env = Doc j ->
  res_bind (getitem j "instruction") int = Ok 2 ->
  getitem j "data" = Ok d ->
  getitem d "paillier_salary" = Ok p ->
  getitem d "ope_salary" = Ok o ->
  Server.db_up env = true ->
  Server.send_ok env = true ->
  Server.turn env key s =
    (Ok tt,
     Server.mk_state (Server.mk_Instruction (Some 2) j [])
                     (Store.insert_employee (Server.db s) (str p) (str o)),
     [Sent (JObj [("result", JStr "0"); ("data", JStr "OK")])]).
Proof.
  intros He Hi Hc Hd Hp Ho Hup Hs.
  assert (Hdis : Server.dispatch env key (Server.after_read s j) =
               (Ok tt,
                Server.mk_state
                  (Server.mk_Instruction (Some 2) j
                     [("result", JStr "0"); ("data", JStr "OK")])
                  (Store.insert_employee (Server.db s) (str p) (str o)),
                [])).
  { destruct (getitem j "instruction") as [v|] eqn:Hv; cbn in Hc; [|discriminate].
    unfold Server.dispatch, Server.add_employee, Server.data_field,
      Server.db_execute, Server.set_instruction, Server.set_result,
      bind, get, lift, raise, ret, modify.
    repeat (cbn; rewrite ?Hv, ?Hc, ?Hd, ?Hp, ?Ho, ?Hup, ?He).
    reflexivity. }
  erewrite turn_delivered; [| eapply prepare_done; eassumption | assumption].
  reflexivity.
Qed.

(** ADD on a ready server whose store answers: the two ciphertexts are kept as
    their [str] texts under the next id, which that line alone has; the
    answer is OK and the ids stay unique. *)
Theorem add_stores_then_finds key env s j d p o :
  Server.ready s ->
  Server.incoming env = Doc j ->
  res_bind (getitem j "instruction") int = Ok 2 ->
  getitem j "data" = Ok d ->
  getitem d "paillier_salary" = Ok p ->
  getitem d "ope_salary" = Ok o ->
  Server.db_up env = true ->
  Server.send_ok env = true ->
  let id := Store.auto_increment (Server.db s) in
  let db' := Store.insert_employee (Server.db s) (str p) (str o) in
  Server.turn env key s =
    (Ok tt, Server.mk_state (Server.mk_Instruction (Some 2) j []) db',
     [Sent (JObj [("result", JStr "0"); ("data", JStr "OK")])]) /\
  filter (Store.id_in id id) (Store.employees db') = [Store.mk_row id (str p) (str o)] /\
  Store.well_formed db'.
Proof.
  intros [He Hwf] Hi Hc Hd Hp Ho Hup Hs id db'. split; [|split].
  - eapply turn_add; eassumption.
  - apply lookup_newest. exact (proj2 Hwf).
  - apply insert_well_formed. exact Hwf.
Qed.
End QuitAndAdd.

(** ** COMPARE, SUM and the answer of a round *)

Section CompareAndSum.
Context `{Crypto}.

Lemma turn_compare key env s j a b w :
  Server.result_data (Server.self s) = [] ->
  Server.incoming env = Doc j ->
  res_bind (getitem j "instruction") int = Ok 3 ->
  res_bind (res_bind (getitem j "data") (fun d => getitem d "id_1")) int = Ok a ->
  res_bind (res_bind (getitem j "data") (fun d => getitem d "id_2")) int = Ok b ->
  Server.db_up env = true ->
  Store.select_top_id (Server.db s) a b = Some w ->
  Server.send_ok env = true ->
  Server.turn env key s =
    (Ok tt, Server.mk_state (Server.mk_Instruction (Some 3) j []) (Server.db s),
     [Sent (JObj [("result", JStr "0");
                  ("data", JStr ("Id " ++ str_of_Z w ++ " has a higher salary"))])]).
Proof.
  intros He Hi Hc Ha Hb Hup Hw Hs.
  erewrite turn_delivered;
    [| eapply prepare_done; [eassumption | eapply dispatch_compare; eassumption]
     | assumption].
  unfold Server.emptied. cbn. now rewrite He.
Qed.

(** COMPARE when a single line of the table has one of the two ids (the other
    id is unknown, or both are the same): that line is named as having the
    higher salary. *)
Theorem compare_with_one_match_names_it key env s j a b r :
  Server.result_data (Server.self s) = [] ->
  Server.incoming env = Doc j ->
  res_bind (getitem j "instruction") int = Ok 3 ->
  res_bind (res_bind (getitem j "data") (fun d => getitem d "id_1")) int = Ok a ->
  res_bind (res_bind (getitem j "data") (fun d => getitem d "id_2")) int = Ok b ->
  Server.db_up env = true ->
  filter (Store.id_in a b) (Store.employees (Server.db s)) = [r] ->
  Server.send_ok env = true ->
  Server.turn env key s =
    (Ok tt, Server.mk_state (Server.mk_Instruction (Some 3) j []) (Server.db s),
     [Sent (JObj [("result", JStr "0");
                  ("data",
                   JStr ("Id " ++ str_of_Z (Store.row_id r) ++ " has a higher salary"))])]).
Proof.
  intros He Hi Hc Ha Hb Hup Hone Hs.
  eapply turn_compare; try eassumption.
  unfold Store.select_top_id. now rewrite Hone.
Qed.

(** COMPARE of two lines whose order ciphertexts are decimal texts that begin
    with different digits: under a collation in which the first digit
    decides, the line with the larger first digit is named, whatever the
    lengths of the two texts and the numbers they spell. *)
Theorem compare_first_digit_decides key env s j r1 r2 c1 t1 c2 t2 :
  Store.first_digit_decides coll ->
  Server.result_data (Server.self s) = [] ->
  Store.unique_ids (Server.db s) ->
  Server.incoming env = Doc j ->
  res_bind (getitem j "instruction") int = Ok 3 ->
  res_bind (res_bind (getitem j "data") (fun d => getitem d "id_1")) int
    = Ok (Store.row_id r1) ->
  res_bind (res_bind (getitem j "data") (fun d => getitem d "id_2")) int
    = Ok (Store.row_id r2) ->
  In r1 (Store.employees (Server.db s)) ->
  In r2 (Store.employees (Server.db s)) ->
  Store.row_id r1 <> Store.row_id r2 ->
  Store.ope_salary r1 = String c1 t1 ->
  Store.ope_salary r2 = String c2 t2 ->
  all_digits (String c1 t1) = true ->
  all_digits (String c2 t2) = true ->
  (N_of_ascii c2 < N_of_ascii c1)%N ->
  Server.db_up env = true ->
  Server.send_ok env = true ->
  Server.turn env key s =
    (Ok tt, Server.mk_state (Server.mk_Instruction (Some 3) j []) (Server.db s),
     [Sent (JObj [("result", JStr "0");
                  ("data",
                   JStr ("Id " ++ str_of_Z (Store.row_id r1) ++ " has a higher salary"))])]).
Proof.
  intros Hlaw He Hu Hi Hc Ha Hb Hin1 Hin2 Hne Ho1 Ho2 Hd1 Hd2 Hlt Hup Hs.
  eapply turn_compare; try eassumption.
  unfold Store.select_top_id.
  destruct (Hlaw c2 t2 c1 t1 Hd2 Hd1 Hlt) as [H21 H12].
  rewrite <- Ho1, <- Ho2 in H12, H21.
  destruct (filter_two_rows _ r1 r2 Hu Hin1 Hin2 Hne) as [-> | ->]; cbn.
  - now rewrite H12.
  - now rewrite H21.
Qed.

(** Claim C2 does not hold of the code.  With the order ciphertexts 9 (id 1)
    and 10 (id 2), COMPARE(1,2) names id 1, whose order ciphertext is the
    smaller number: [ope_salary] is a [TEXT] column, [ORDER BY ope_salary
    DESC] orders texts, and the text 9 comes after the text 10 under every
    collation in which the first digit decides.  The message ends in
    "salary" where the claim has "value". *)
Theorem compare_orders_text_not_numbers key :
  Store.first_digit_decides coll ->
  let '(_, _, ev) :=
    Server.serve key [Example.heard (Example.instr_ids "3" "1" "2")]
                 (Example.start Example.nine_and_ten) in
  ev = [Sent (JObj [("result", JStr "0"); ("data", JStr "Id 1 has a higher salary")])]
  /\ int_of_text "9" = Ok 9 /\ int_of_text "10" = Ok 10 /\ 9 < 10.
Proof.
  intros Hlaw.
  destruct (Hlaw "1"%char "0" "9"%char "" eq_refl eq_refl eq_refl) as [_ Hgt].
  assert (Hw : Store.select_top_id Example.nine_and_ten 1 2 = Some 1).
  { unfold Store.select_top_id. cbn. now rewrite Hgt. }
  rewrite (serve_step key (Example.heard (Example.instr_ids "3" "1" "2")) []
             (Example.start Example.nine_and_ten)
             (Server.mk_state
                (Server.mk_Instruction (Some 3) (Example.instr_ids "3" "1" "2") [])
                Example.nine_and_ten)
             [Sent (JObj [("result", JStr "0");
                          ("data", JStr "Id 1 has a higher salary")])]
             eq_refl).
  - cbn. repeat split; reflexivity.
  - exact (turn_compare key (Example.heard (Example.instr_ids "3" "1" "2"))
             (Example.start Example.nine_and_ten) (Example.instr_ids "3" "1" "2")
             1 2 1 eq_refl eq_refl eq_refl eq_refl eq_refl eq_refl Hw eq_refl).
Qed.

(** SUM on a server that holds no public key (the key frame never came, or
    could not be read) is answered with result code 2, and the store is left
    as it was. *)
Theorem sum_without_key_yields_2 key env s j :
  Server.phe_public_key key = None ->
  Server.result_data (Server.self s) = [] ->
  Server.incoming env = Doc j ->
  res_bind (getitem j "instruction") int = Ok 4 ->
  Server.send_ok env = true ->
  Server.turn env key s =
    (Ok tt, Server.mk_state (Server.mk_Instruction None j []) (Server.db s),
     [LogError "failed to execute instruction"; Sent (JObj [("result", JStr "2")])]).
Proof.
  intros Hkey He Hi Hc Hs.
  destruct (Server.dispatch env key (Server.after_read s j)) as [[[[]|e] s1] ev1] eqn:Hd.
  - exfalso. revert Hd.
    destruct (getitem j "instruction") as [v|] eqn:Hv; cbn in Hc; [|discriminate].
    unfold Server.dispatch, bind, get, lift. cbn. rewrite Hv. cbn. rewrite Hc. cbn.
    unfold Server.get_salaries_sum, Server.data_field, Server.db_execute,
      Server.set_result, bind, get, lift, raise, ret, modify. rewrite Hkey.
    intros Hrun. repeat run_step.
  - eapply turn_failed_execution; eassumption.
Qed.

(** A round of the server loop that completes has delivered exactly one frame,
    and a round that raises has delivered none; no round hands more than two
    frames to [send]. *)
Theorem one_answer_per_round env key s :
  let '(r, _, ev) := Server.turn env key s in
  match r with
  | Ok _ => List.length (Session.frames_sent ev) = 1%nat
  | Raise _ => Session.frames_sent ev = []
  end /\
  (List.length (Session.writes ev) <= 2)%nat.
Proof.
  destruct (Server.turn env key s) as [[r s'] ev] eqn:Ht.
  destruct (prepare_total env key s) as (s1 & ev1 & Hp).
  pose proof (prepare_writes_nothing _ _ _ _ _ _ Hp) as Hw.
  pose proof (frames_sent_of_writes _ Hw) as Hf.
  destruct (Server.send_ok env) eqn:Hs; [|destruct (Server.retry_ok env) eqn:Hr].
  - rewrite (turn_delivered _ _ _ _ _ Hp Hs) in Ht. inversion Ht; subst.
    rewrite frames_sent_app, writes_app, Hf, Hw. cbn. lia.
  - rewrite (turn_degraded _ _ _ _ _ Hp Hs Hr) in Ht. inversion Ht; subst.
    rewrite frames_sent_app, writes_app, Hf, Hw. cbn. lia.
  - rewrite (turn_lost _ _ _ _ _ Hp Hs Hr) in Ht. inversion Ht; subst.
    rewrite frames_sent_app, writes_app, Hf, Hw. cbn. split; [reflexivity|lia].
Qed.
End CompareAndSum.

(** ** Whole sessions of the server *)

Lemma lookup_two_newest rows k p1 o1 p2 o2 :
  Forall (fun r => Store.row_id r < k) rows ->
  filter (Store.id_in k (k + 1))
    ((rows ++ [Store.mk_row k p1 o1]) ++ [Store.mk_row (k + 1) p2 o2]) =
  [Store.mk_row k p1 o1; Store.mk_row (k + 1) p2 o2].
Proof.
  intros Hlt. rewrite !filter_app. cbn. unfold Store.id_in at 2 3. cbn.
  rewrite !Z.eqb_refl. cbn. rewrite orb_true_r. cbn.
  replace (filter (Store.id_in k (k + 1)) rows) with (@nil Store.row); [reflexivity|].
  symmetry. induction Hlt as [|r rows Hr _ IH]; cbn; [reflexivity|].
  unfold Store.id_in at 1.
  destruct (Z.eqb_spec (Store.row_id r) k); [lia|].
  destruct (Z.eqb_spec (Store.row_id r) (k + 1)); [lia|]. cbn. exact IH.
Qed.

Lemma ids_frame_fields code a b :
  res_bind (getitem (Frames.ids code a b) "instruction") int = Ok code /\
  res_bind (res_bind (getitem (Frames.ids code a b) "data")
                     (fun d => getitem d "id_1")) int = Ok a /\
  res_bind (res_bind (getitem (Frames.ids code a b) "data")
                     (fun d => getitem d "id_2")) int = Ok b.
Proof. cbn. repeat split; apply int_of_text_str. Qed.

Section WholeSessions.
Context `{Crypto}.

(** Two ADDs followed by the SUM of the two ids they were given: the server
    answers OK twice, then result 0 with the homomorphic sum of exactly the
    two ciphertexts added, read back from the texts it stored. *)
Theorem add_add_sum_combines key n s rest c1 o1 c2 o2 r1 r2 r3 c :
  Server.quit_seen s = false ->
  Server.ready s ->
  Server.phe_public_key key = Some n ->
  phe_add n c1 c2 r3 = Ok c ->
  let k := Store.auto_increment (Server.db s) in
  let db2 :=
    Store.insert_employee
      (Store.insert_employee (Server.db s) (str_of_Z c1) (str_of_Z o1))
      (str_of_Z c2) (str_of_Z o2) in
  let asked := Frames.ids 4 k (k + 1) in
  Server.serve key
    (Session.server_round (Frames.add c1 o1) r1
     :: Session.server_round (Frames.add c2 o2) r2
     :: Session.server_round asked r3 :: rest) s =
    let '(r, s', ev) :=
      Server.serve key rest
        (Server.mk_state (Server.mk_Instruction (Some 4) asked []) db2) in
    (r, s',
     ([Sent (JObj [("result", JStr "0"); ("data", JStr "OK")]);
       Sent (JObj [("result", JStr "0"); ("data", JStr "OK")]);
       Sent (JObj [("result", JStr "0"); ("data", JInt c)])] ++ ev)%list).
Proof.
  intros Hq [He Hwf] Hkey Hadd k db2 asked.
  set (db1 := Store.insert_employee (Server.db s) (str_of_Z c1) (str_of_Z o1)).
  set (s1 := Server.mk_state (Server.mk_Instruction (Some 2) (Frames.add c1 o1) []) db1).
  set (s2 := Server.mk_state (Server.mk_Instruction (Some 2) (Frames.add c2 o2) []) db2).
  assert (T1 : Server.turn (Session.server_round (Frames.add c1 o1) r1) key s =
               (Ok tt, s1, [Sent (JObj [("result", JStr "0"); ("data", JStr "OK")])])).
  { apply (turn_add key _ s (Frames.add c1 o1)
             (JObj [("paillier_salary", JInt c1); ("ope_salary", JInt o1)])
             (JInt c1) (JInt o1)); try reflexivity; assumption. }
  assert (T2 : Server.turn (Session.server_round (Frames.add c2 o2) r2) key s1 =
               (Ok tt, s2, [Sent (JObj [("result", JStr "0"); ("data", JStr "OK")])])).
  { apply (turn_add key _ s1 (Frames.add c2 o2)
             (JObj [("paillier_salary", JInt c2); ("ope_salary", JInt o2)])
             (JInt c2) (JInt o2)); reflexivity. }
  destruct (ids_frame_fields 4 k (k + 1)) as (Hc & Ha & Hb).
  assert (T3 : Server.turn (Session.server_round asked r3) key s2 =
               (Ok tt, Server.mk_state (Server.mk_Instruction (Some 4) asked []) db2,
                [Sent (JObj [("result", JStr "0"); ("data", JInt c)])])).
  { eapply (turn_sum_combines key (Session.server_round asked r3) s2 asked k (k + 1)
              (str_of_Z c1) (str_of_Z c2) [] n c1 c2 c);
      try reflexivity; try assumption.
    - unfold Store.select_phe, s2, db2, db1. cbn [Server.db Store.insert_employee Store.employees].
      rewrite (lookup_two_newest _ k _ _ _ _ (proj2 Hwf)). reflexivity.
    - exact (int_of_text_str c1).
    - exact (int_of_text_str c2). }
  rewrite (serve_step key _ _ s _ _ Hq T1).
  rewrite (serve_step key _ _ s1 _ _ eq_refl T2).
  rewrite (serve_step key _ _ s2 _ _ eq_refl T3).
  now destruct (Server.serve key rest _) as [[r s'] ev].
Qed.

(** The lines an [Employees] table holds when the server starts are still
    there, in their order, when the session is over: the [TRUNCATE] of
    [_connect_to_db] names another table, and no instruction deletes. *)
Theorem earlier_rows_survive key_frame existing rounds :
  existsb (String.eqb "Employees") (Store.tables existing) = true ->
  let '(_, s, _) := Server.app key_frame existing rounds in
  exists added,
    Store.employees (Server.db s) = (Store.employees existing ++ added)%list.
Proof.
  intros Hex. unfold Server.app.
  destruct (Server.read_paillier_public_key _ key_frame) as [key ev_key].
  assert (Hdb : fst (Server.connect_to_db existing) = existing).
  { unfold Server.connect_to_db. rewrite Hex. cbn zeta.
    destruct (existsb (String.eqb "Employes") (Store.tables existing)); reflexivity. }
  destruct (Server.connect_to_db existing) as [db0 ev_db]. cbn in Hdb. subst db0.
  destruct (Server.serve key rounds _) as [[r s] ev] eqn:Hrun.
  destruct (Server.conclude r ev) as [st ev'].
  destruct (serve_grows _ _ _ _ _ _ Hrun) as (added & E & _).
  exists added. exact E.
Qed.

(** From a store whose ids are unique and below the next id, a session leaves
    the server ready whatever the frames were: result data cleared, ids unique
    and below the next id. *)
Theorem session_keeps_ids_unique key_frame existing rounds :
  Store.well_formed existing ->
  let '(_, s, _) := Server.app key_frame existing rounds in
  Server.ready s.
Proof.
  intros Hwf. unfold Server.app.
  destruct (Server.read_paillier_public_key _ key_frame) as [key ev_key].
  pose proof (app_starts_ready existing Hwf) as Hready.
  destruct (Server.connect_to_db existing) as [db0 ev_db]. cbn in Hready.
  destruct (Server.serve key rounds _) as [[r s] ev] eqn:Hrun.
  destruct (Server.conclude r ev) as [st ev'].
  eapply serve_ready; eauto.
Qed.
End WholeSessions.

(** ** The start of the two programs *)

Section StartFacts.
Context `{Crypto}.

(** The frame [send_public_key] writes rebuilds on the server the modulus the
    client holds, with nothing logged; so does a frame that carries the
    modulus as decimal text. *)
Theorem key_announcement_round_trip (keys : Client.Keys) n :
  Client.phe_public_key keys = Some n ->
  exists f,
    Client.send_public_key keys true = [Sent f] /\
    Server.read_paillier_public_key (Server.mk_Key None) (Doc f)
      = (Server.mk_Key (Some n), []) /\
    Server.read_paillier_public_key (Server.mk_Key None)
        (Doc (JObj [("n", JStr (str_of_Z n))]))
      = (Server.mk_Key (Some n), []).
Proof.
  intros Hn. exists (JObj [("n", JInt n)]). split; [|split].
  - unfold Client.send_public_key. now rewrite Hn.
  - reflexivity.
  - assert (E : res_bind (getitem (JObj [("n", JStr (str_of_Z n))]) "n") int = Ok n)
      by exact (int_of_text_str n).
    unfold Server.read_paillier_public_key, Server.rebuild_pailler_public_key.
    cbn [recv_loads]. now rewrite E.
Qed.

Lemma launch_serves up key_frame existing rounds :
  Launch.listen up <> Launch.NoSocket ->
  Launch.accept_ok up = true ->
  Launch.db_connected up = true ->
  Launch.app up key_frame existing rounds =
    let '(st, s, ev) := Server.app key_frame existing rounds in
    Launch.Served st s (snd (Launch._listen_to (Launch.listen up)) ++ ev)%list.
Proof.
  intros Hl Ha Hd. unfold Launch.app, Server.app, Launch._connect_to_db.
  rewrite Ha, Hd. cbn.
  destruct (Server.read_paillier_public_key _ key_frame) as [key ev_key].
  destruct (Server.connect_to_db existing) as [db0 ev_db].
  destruct (Server.serve key rounds _) as [[r s] ev].
  destruct (Server.conclude r ev) as [st ev'].
  destruct (Launch.listen up); cbn; try reflexivity. congruence.
Qed.

(** When no listening socket can be made, [accept] fails, or the store cannot
    be reached, [app] of the server dies before its [try]: no instruction is
    read, nothing is written to the socket and nothing is closed. *)
Theorem failed_start_reads_no_instruction up key_frame existing rounds :
  Launch.listen up = Launch.NoSocket \/
  Launch.accept_ok up = false \/
  Launch.db_connected up = false ->
  exists ev,
    Launch.app up key_frame existing rounds = Launch.Died ev /\
    Session.writes ev = [] /\
    ~ In Closed ev /\
    Launch.app up key_frame existing [] = Launch.Died ev.
Proof.
  intros Hfail. unfold Launch.app.
  destruct (Launch.listen up) eqn:Hl; cbn.
  3: { eexists. repeat split. cbn. intuition discriminate. }
  all: destruct (Launch.accept_ok up) eqn:Ha; cbn;
    [| eexists; repeat split; cbn; intuition discriminate ].
  all: destruct (Launch.db_connected up) eqn:Hd;
    [ exfalso; destruct Hfail as [Hx|[Hx|Hx]]; discriminate |].
  all: unfold Launch._connect_to_db, Server.read_paillier_public_key,
         Server.rebuild_pailler_public_key.
  all: destruct (recv_loads key_frame) as [j|e]; cbn;
    [destruct (res_bind (getitem j "n") int); cbn|];
    eexists; repeat split; cbn; intuition discriminate.
Qed.
End StartFacts.

(** ** The client loop *)

Lemma int_of_ascii_raises s e : int_of_ascii s = Raise e -> e = ValueError.
Proof.
  unfold int_of_ascii. cbv zeta.
  match goal with |- match ?p with _ => _ end = _ -> _ => destruct p end; congruence.
Qed.

Lemma int_of_input_raises s e : int_of_input s = Raise e -> e = ValueError.
Proof.
  unfold int_of_input. destruct (is_ascii s).
  - destruct (limits_digits && (4300 <? count_digits s)); [congruence|].
    apply int_of_ascii_raises.
  - destruct (int_of_unicode s); congruence.
Qed.

Ltac unfold_client :=
  unfold Client.turn, Client.read_instruction, Client.send_instruction, Client.read_result,
    Client.quit, Client.get_table, Client.add_employee, Client.compare_employees,
    Client.get_salaries_sum, Client.show_success, Client.send, Client.clear_data,
    Client.clear_result, Client.set_data, Client.set_instruction, Client.set_result_data,
    Client.attr,
    try_finally, try_except, try_except_ValueError,
    bind, get, lift, modify, ret, raise, emit.

Section ClientLoopFacts.
Context `{Crypto}.

Lemma read_instruction_ok env i code :
  int_of_input (Client.command env) = Ok code ->
  Client.read_instruction env i =
    (Ok true,
     Client.mk_Instruction (Some code) (Client.instruction_data i) (Client.result_data i),
     []).
Proof.
  intros Hc. unfold Client.read_instruction, Client.set_instruction,
    try_except_ValueError, bind, lift, modify, ret.
  now rewrite Hc.
Qed.

Lemma read_instruction_bad env i e :
  int_of_input (Client.command env) = Raise e ->
  Client.read_instruction env i =
    (Ok false,
     Client.mk_Instruction None (Client.instruction_data i) (Client.result_data i),
     [LogError "wrong input type"]).
Proof.
  intros Hc. pose proof (int_of_input_raises _ _ Hc) as ->.
  unfold Client.read_instruction, Client.set_instruction,
    try_except_ValueError, bind, lift, modify, ret, emit.
  now rewrite Hc.
Qed.

Lemma send_instruction_unknown env keys code d rd :
  code < 0 \/ 4 < code ->
  Client.send_instruction env keys (Client.mk_Instruction (Some code) d rd) =
    (Ok false, Client.mk_Instruction (Some code) [] rd,
     [LogError "wrong input value"]).
Proof.
  intros Hout.
  unfold Client.send_instruction, Client.set_data, Client.clear_data,
    try_finally, try_except, bind, get, modify, ret, emit.
  cbn.
  destruct code as [|p|p]; [lia| |reflexivity].
  do 3 (destruct p as [p|p|]; try lia; try reflexivity).
Qed.

Lemma send_instruction_bare env keys code rd :
  code = 0 \/ code = 1 ->
  Client.send_instruction env keys (Client.mk_Instruction (Some code) [] rd) =
    if Client.send_ok env then
      (Ok true, Client.mk_Instruction (Some code) [] rd, [Sent (Frames.bare code)])
    else
      (Ok false, Client.mk_Instruction None [] rd, [SendFailed (Frames.bare code)]).
Proof.
  intros Hcode.
  unfold Client.send_instruction, Client.quit, Client.get_table, Client.send,
    Client.set_data, Client.clear_data, Client.set_instruction,
    try_finally, try_except, bind, get, modify, ret, emit, raise.
  destruct Hcode as [-> | ->]; cbn; destruct (Client.send_ok env); reflexivity.
Qed.

Lemma read_result_keeps env keys i r i' ev :
  Client.read_result env keys i = (r, i', ev) ->
  Client.instruction i' = Client.instruction i /\
  Client.instruction_data i' = Client.instruction_data i /\
  (forall e, r = Raise e -> e = AttributeError).
Proof.
  unfold Client.read_result, Client.show_success, Client.clear_result,
    Client.set_result_data, Client.attr,
    try_finally, try_except, bind, get, lift, modify, ret, raise, emit.
  intros Hrun.
  repeat run_step; cbn; repeat split; auto; intros e0 He0; congruence.
Qed.

Lemma run_cons keys env rest i :
  Client.quit_seen i = false ->
  Client.run keys (env :: rest) i =
    match Client.turn env keys i with
    | (Ok _, i', ev) =>
        let '(r, i'', ev') := Client.run keys rest i' in (r, i'', (ev ++ ev')%list)
    | (Raise e, i', ev) => (Raise e, i', ev)
    end.
Proof.
  intros Hq. cbn [Client.run]. rewrite Hq. unfold bind.
  destruct (Client.turn env keys i) as [[[[]|e] i'] ev]; reflexivity.
Qed.

Lemma run_one_more keys i :
  Client.quit_seen i = true -> forall rest, Client.run keys rest i = (Ok Client.Finished, i, []).
Proof. intros Hq [|env rest]; cbn; now rewrite Hq. Qed.

Lemma turn_steps env keys i :
  Client.turn env keys i =
    match Client.read_instruction env i with
    | (Ok true, i0, ev0) =>
        match Client.send_instruction env keys i0 with
        | (Ok true, i1, ev1) =>
            match Client.read_result env keys i1 with
            | (Ok true, i2, ev2) => (Ok tt, i2, ev0 ++ ev1 ++ ev2 ++ [])
            | (Ok false, i2, ev2) =>
                (Ok tt, i2, ev0 ++ ev1 ++ ev2 ++ [LogError "failed to read result"])
            | (Raise e, i2, ev2) => (Raise e, i2, ev0 ++ ev1 ++ ev2)
            end
        | (Ok false, i1, ev1) =>
            (Ok tt, i1, ev0 ++ ev1 ++ [LogError "failed to send instruction"])
        | (Raise e, i1, ev1) => (Raise e, i1, ev0 ++ ev1)
        end
    | (Ok false, i0, ev0) => (Ok tt, i0, ev0 ++ [LogError "failed to read instruction"])
    | (Raise e, i0, ev0) => (Raise e, i0, ev0)
    end%list.
Proof.
  unfold Client.turn, bind, ret, emit.
  destruct (Client.read_instruction env i) as [[[[|]|e] i0] ev0]; try reflexivity.
  destruct (Client.send_instruction env keys i0) as [[[[|]|e] i1] ev1]; try reflexivity.
  destruct (Client.read_result env keys i1) as [[[[|]|e] i2] ev2]; reflexivity.
Qed.

(** A command that is no integer, or an integer outside 0..4, makes the client
    write nothing; the loop does not end and goes on with the next command. *)
Theorem unusable_command_writes_nothing env keys i :
  Client.quit_seen i = false ->
  (exists e, int_of_input (Client.command env) = Raise e) \/
  (exists code, int_of_input (Client.command env) = Ok code /\ (code < 0 \/ 4 < code)) ->
  exists i' ev,
    Client.turn env keys i = (Ok tt, i', ev) /\
    Session.writes ev = [] /\
    Client.quit_seen i' = false /\
    forall rest,
      Client.run keys (env :: rest) i =
        let '(r, i'', ev') := Client.run keys rest i' in (r, i'', (ev ++ ev')%list).
Proof.
  intros Hq [[e He]|[code [Hc Hout]]].
  - eexists _, _. setoid_rewrite (run_cons keys env _ i Hq). rewrite turn_steps.
    rewrite (read_instruction_bad _ _ _ He).
    split; [reflexivity|]. split; [reflexivity|]. split; [reflexivity|].
    intros rest. reflexivity.
  - eexists _, _. setoid_rewrite (run_cons keys env _ i Hq). rewrite turn_steps.
    rewrite (read_instruction_ok _ _ _ Hc).
    rewrite (send_instruction_unknown env keys code _ _ Hout).
    split; [reflexivity|]. split; [reflexivity|].
    split; [unfold Client.quit_seen; cbn; destruct code as [|p|p]; auto; lia|].
    intros rest. reflexivity.
Qed.

(** QUIT typed at the client: once its frame is delivered the loop is over,
    either left normally or aborted by a reply that cannot be cleared.  The
    commands typed after it are never read. *)
Theorem quit_delivered_ends_client env keys i rest :
  Client.quit_seen i = false ->
  Client.instruction_data i = [] ->
  int_of_input (Client.command env) = Ok 0 ->
  Client.send_ok env = true ->
  let '(r, i', ev) := Client.run keys (env :: rest) i in
  Client.run keys [env] i = (r, i', ev) /\
  hd_error ev = Some (Sent (Frames.bare 0)) /\
  (r = Ok Client.Finished \/ r = Raise AttributeError).
Proof.
  intros Hq He Hc Hs.
  rewrite !(run_cons _ _ _ _ Hq), turn_steps.
  rewrite (read_instruction_ok _ _ _ Hc).
  rewrite He, (send_instruction_bare env keys 0 _ (or_introl eq_refl)), Hs.
  destruct (Client.read_result env keys _) as [[r1 i1] ev1] eqn:Hread.
  destruct (read_result_keeps _ _ _ _ _ _ Hread) as [Hkeep [_ Hexn]].
  cbn in Hkeep.
  assert (Hseen : Client.quit_seen i1 = true) by (unfold Client.quit_seen; now rewrite Hkeep).
  destruct r1 as [[|]|e]; rewrite ?(run_one_more keys i1 Hseen); cbn.
  - repeat split; auto.
  - repeat split; auto.
  - repeat split; auto. right. f_equal. now apply Hexn.
Qed.

(** QUIT whose frame cannot be sent: [send_instruction] resets the instruction
    to [None], so the client loop does not end; it goes on with the next
    command. *)
Theorem quit_undelivered_keeps_client env keys i rest :
  Client.quit_seen i = false ->
  Client.instruction_data i = [] ->
  int_of_input (Client.command env) = Ok 0 ->
  Client.send_ok env = false ->
  let i' := Client.mk_Instruction None [] (Client.result_data i) in
  Client.quit_seen i' = false /\
  Client.run keys (env :: rest) i =
    let '(r, i'', ev) := Client.run keys rest i' in
    (r, i'',
     ([SendFailed (Frames.bare 0); LogError "failed to send instruction"] ++ ev)%list).
Proof.
  intros Hq He Hc Hs i'. split; [reflexivity|].
  rewrite (run_cons _ _ _ _ Hq), turn_steps.
  rewrite (read_instruction_ok _ _ _ Hc).
  rewrite He, (send_instruction_bare env keys 0 _ (or_introl eq_refl)), Hs.
  reflexivity.
Qed.
End ClientLoopFacts.

(** ** Replies read by the client *)

Section ClientReplyFacts.
Context `{Crypto}.

Lemma read_instruction_keeps env i r i0 ev0 :
  Client.read_instruction env i = (r, i0, ev0) ->
  Client.instruction_data i0 = Client.instruction_data i /\
  Client.result_data i0 = Client.result_data i /\
  Session.writes ev0 = [] /\ Session.printed ev0 = [].
Proof.
  unfold Client.read_instruction, Client.set_instruction,
    try_except_ValueError, bind, lift, modify, ret, emit.
  intros Hrun. repeat run_step; cbn; auto.
Qed.

Lemma send_instruction_keeps env keys i r i1 ev1 :
  Client.send_instruction env keys i = (r, i1, ev1) ->
  Client.instruction_data i1 = [] /\
  Client.result_data i1 = Client.result_data i /\
  (List.length (Session.writes ev1) <= 1)%nat /\ Session.printed ev1 = [] /\
  (forall e, r <> Raise e).
Proof.
  unfold Client.send_instruction,
    Client.quit, Client.get_table, Client.add_employee, Client.compare_employees,
    Client.get_salaries_sum, Client.send, Client.clear_data,
    Client.set_data, Client.set_instruction, Client.attr,
    try_finally, try_except, bind, get, lift, modify, ret, raise, emit.
  intros Hrun. repeat run_step; cbn; repeat split; auto; try lia; congruence.
Qed.

Lemma read_result_scalar env keys i j :
  Client.reply env = Doc j ->
  Between.container j = false ->
  Client.read_result env keys i =
    (Raise AttributeError,
     Client.mk_Instruction (Client.instruction i) (Client.instruction_data i) j, []).
Proof.
  intros Hr Hj.
  unfold Client.read_result, Client.clear_result, Client.set_result_data,
    try_finally, try_except, bind, get, lift, modify, ret, raise, emit.
  rewrite Hr. destruct j; try discriminate; reflexivity.
Qed.

(** A reply that is valid JSON but neither an object nor an array (a number, a
    text, a boolean, null): [clear()] in the [finally] of [read_result] raises
    [AttributeError], which leaves the loop; [app] logs it and closes the
    socket. *)
Theorem scalar_reply_aborts_client env keys i i0 ev0 i1 ev1 j rest :
  Client.quit_seen i = false ->
  Client.read_instruction env i = (Ok true, i0, ev0) ->
  Client.send_instruction env keys i0 = (Ok true, i1, ev1) ->
  Client.reply env = Doc j ->
  Between.container j = false ->
  Client.run keys (env :: rest) i =
    (Raise AttributeError,
     Client.mk_Instruction (Client.instruction i1) (Client.instruction_data i1) j,
     (ev0 ++ ev1)%list) /\
  Client.conclude (Raise AttributeError) (ev0 ++ ev1)%list =
    (Client.Aborted, (ev0 ++ ev1 ++ [LogError "something went wrong!"; Closed])%list).
Proof.
  intros Hq H0 H1 Hr Hj. split.
  - rewrite (run_cons _ _ _ _ Hq), turn_steps, H0, H1.
    rewrite (read_result_scalar env keys i1 j Hr Hj).
    now rewrite !app_nil_r.
  - cbn. now rewrite <- app_assoc.
Qed.

Lemma read_result_unreadable env keys i :
  Client.result_data i = JObj [] \/ Client.result_data i = JList [] ->
  Client.reply env = RecvError \/
  (exists raw, Client.reply env = Garbage raw) \/
  (exists l, Client.reply env = Doc (JList l)) \/
  (exists d, Client.reply env = Doc (JObj d) /\ dict_get d "result" = None) ->
  exists rd,
    Client.read_result env keys i =
      (Ok false,
       Client.mk_Instruction (Client.instruction i) (Client.instruction_data i) rd, []) /\
    (rd = JObj [] \/ rd = JList []).
Proof.
  intros Hrd Hr.
  unfold Client.read_result, Client.clear_result, Client.set_result_data,
    try_finally, try_except, bind, get, lift, modify, ret, raise, emit.
  destruct Hr as [Hr|[[raw Hr]|[[l Hr]|[d [Hr Hd]]]]]; rewrite Hr; cbn; rewrite ?Hd; cbn.
  - destruct Hrd as [-> | ->]; eexists; split; eauto.
  - destruct Hrd as [-> | ->]; eexists; split; eauto.
  - eexists; split; eauto.
  - eexists; split; eauto.
Qed.

(** A reply that cannot be received or decoded, that is an array, or that is
    an object without [result]: the client logs that it failed to read the
    result and completes the round, its instruction kept and its data
    cleared. *)
Theorem unreadable_reply_is_skipped env keys i i0 ev0 i1 ev1 :
  Between.client_cleared i ->
  Client.read_instruction env i = (Ok true, i0, ev0) ->
  Client.send_instruction env keys i0 = (Ok true, i1, ev1) ->
  Client.reply env = RecvError \/
  (exists raw, Client.reply env = Garbage raw) \/
  (exists l, Client.reply env = Doc (JList l)) \/
  (exists d, Client.reply env = Doc (JObj d) /\ dict_get d "result" = None) ->
  exists i2,
    Client.turn env keys i =
      (Ok tt, i2, (ev0 ++ ev1 ++ [LogError "failed to read result"])%list) /\
    Client.instruction i2 = Client.instruction i1 /\
    Between.client_cleared i2.
Proof.
  intros [Hd Hrd] H0 H1 Hr.
  destruct (read_instruction_keeps _ _ _ _ _ H0) as (_ & Hrd0 & _).
  destruct (send_instruction_keeps _ _ _ _ _ _ H1) as (Hd1 & Hrd1 & _).
  assert (Hrd' : Client.result_data i1 = JObj [] \/ Client.result_data i1 = JList [])
    by (rewrite Hrd1, Hrd0; exact Hrd).
  destruct (read_result_unreadable env keys i1 Hrd' Hr) as (rd & Hread & Hshape).
  eexists. rewrite turn_steps, H0, H1, Hread. split; [reflexivity|].
  split; [reflexivity|]. split; [exact Hd1 | exact Hshape].
Qed.

(** ADD at the client when the salary typed is no integer, or when a key was
    never generated: nothing is written to the socket, and the instruction is
    reset to [None]. *)
Theorem add_without_salary_or_keys_writes_nothing env keys i :
  int_of_input (Client.command env) = Ok 2 ->
  (exists e, int_of_input (Client.answer_1 env) = Raise e) \/
  Client.phe_public_key keys = None \/ Client.ope_key_of keys = None ->
  Client.turn env keys i =
    (Ok tt, Client.mk_Instruction None [] (Client.result_data i),
     [LogError "failed to send instruction"]).
Proof.
  intros Hc Hbad. rewrite turn_steps, (read_instruction_ok _ _ _ Hc).
  assert (Hsend : forall d rd,
            Client.send_instruction env keys (Client.mk_Instruction (Some 2) d rd) =
              (Ok false, Client.mk_Instruction None [] rd, [])).
  { intros d rd.
    unfold Client.send_instruction, Client.add_employee, Client.send, Client.clear_data,
      Client.set_data, Client.set_instruction, Client.attr,
      try_finally, try_except, bind, get, lift, modify, ret, raise, emit.
    cbn.
    destruct (int_of_input (Client.answer_1 env)) as [salary|e0] eqn:Hs; cbn;
      [|reflexivity].
    destruct Hbad as [[e He]|[Hk|Hk]]; [discriminate| |].
    - rewrite Hk. reflexivity.
    - destruct (Client.phe_public_key keys) as [n|]; cbn; [|reflexivity].
      destruct (phe_encrypt n salary (Client.noise env)); cbn; [|reflexivity].
      rewrite Hk. reflexivity. }
  rewrite Hsend. reflexivity.
Qed.

Lemma read_result_quiet env keys i r i' ev :
  Client.read_result env keys i = (r, i', ev) ->
  Session.writes ev = [] /\
  (Client.result_data i = JObj [] \/ Client.result_data i = JList [] ->
   forall b, r = Ok b ->
   Client.result_data i' = JObj [] \/ Client.result_data i' = JList []).
Proof.
  unfold Client.read_result, Client.show_success, Client.clear_result,
    Client.set_result_data, Client.attr,
    try_finally, try_except, bind, get, lift, modify, ret, raise, emit.
  intros Hrun.
  repeat run_step; cbn; (split; [reflexivity|]); intros Hrd b0 Hb0;
    try discriminate; auto.
Qed.

(** A round of the client loop hands at most one frame to [send]; a round that
    hands none prints nothing; and a round that completes leaves instruction
    data and result data cleared. *)
Theorem client_round_writes_at_most_once env keys i :
  Between.client_cleared i ->
  let '(r, i', ev) := Client.turn env keys i in
  (List.length (Session.writes ev) <= 1)%nat /\
  (Session.writes ev = [] -> Session.printed ev = []) /\
  (forall u, r = Ok u -> Between.client_cleared i').
Proof.
  intros [Hd Hrd]. rewrite turn_steps.
  destruct (Client.read_instruction env i) as [[r0 i0] ev0] eqn:H0.
  destruct (read_instruction_keeps _ _ _ _ _ H0) as (Hd0 & Hrd0 & Hw0 & Hp0).
  destruct r0 as [[|]|e].
  2:{ rewrite writes_app, Hw0. unfold Session.printed. rewrite flat_map_app.
      fold (Session.printed ev0). rewrite Hp0. cbn.
      repeat split; auto; try lia. now rewrite Hd0. now rewrite Hrd0. }
  2:{ rewrite Hw0. repeat split; auto; try lia. discriminate. discriminate. }
  destruct (Client.send_instruction env keys i0) as [[r1 i1] ev1] eqn:H1.
  destruct (send_instruction_keeps _ _ _ _ _ _ H1) as (Hd1 & Hrd1 & Hw1 & Hp1 & Hne).
  destruct r1 as [[|]|e]; [| |now destruct (Hne e)].
  2:{ rewrite !writes_app, Hw0. unfold Session.printed. rewrite !flat_map_app.
      fold (Session.printed ev0) (Session.printed ev1). rewrite Hp0, Hp1. cbn.
      rewrite app_nil_r.
      repeat split; auto. now rewrite Hrd1, Hrd0. }
  destruct (Client.read_result env keys i1) as [[r2 i2] ev2] eqn:H2.
  destruct (read_result_keeps _ _ _ _ _ _ H2) as (_ & Hd2 & _).
  destruct (read_result_quiet _ _ _ _ _ _ H2) as (Hw2 & Hrd2).
  assert (Hrd' : Client.result_data i1 = JObj [] \/ Client.result_data i1 = JList [])
    by (rewrite Hrd1, Hrd0; exact Hrd).
  assert (Hsent : Session.writes ev1 = [] -> False).
  { clear - H1. revert H1.
    unfold Client.send_instruction,
      Client.quit, Client.get_table, Client.add_employee, Client.compare_employees,
      Client.get_salaries_sum, Client.send, Client.clear_data,
      Client.set_data, Client.set_instruction, Client.attr,
      try_finally, try_except, bind, get, lift, modify, ret, raise, emit.
    intros Hrun. repeat run_step; cbn; discriminate. }
  destruct r2 as [[|]|e]; rewrite !writes_app, Hw0, Hw2; cbn; rewrite ?app_nil_r.
  - repeat split; auto. intros Hn. now destruct (Hsent Hn).
    now rewrite Hd2. eapply Hrd2; eauto.
  - repeat split; auto. intros Hn. now destruct (Hsent Hn).
    now rewrite Hd2. eapply Hrd2; eauto.
  - repeat split; auto. intros Hn. now destruct (Hsent Hn). discriminate. discriminate.
Qed.

End ClientReplyFacts.

(** ** ADD from the operator to the store *)

Section EndToEndFacts.
Context `{Crypto}.

(** [read_result] prints only when the reply is an object whose [result] equals
    the integer 0 as a [case 0:] tests it; no text, so none of the codes the
    server writes, gets anything printed. *)
Theorem client_prints_only_on_integer_zero env keys i r i' ev t :
  Client.read_result env keys i = (r, i', ev) ->
  In (Printed t) ev ->
  exists d code,
    Client.reply env = Doc (JObj d) /\
    dict_get d "result" = Some code /\
    Client.eq_literal code 0 = true /\
    forall c, code <> JStr c.
Proof.
  unfold Client.read_result, Client.show_success, Client.clear_result,
    Client.set_result_data, Client.attr,
    try_finally, try_except, bind, get, lift, modify, ret, raise, emit.
  destruct (Client.reply env) as [|raw|j]; cbn.
  - intros Hrun; repeat run_step; cbn; intros [].
  - intros Hrun; repeat run_step; cbn; intros [].
  - destruct j as [| | | | | |d]; cbn;
      try (intros Hrun; repeat run_step; cbn; intros []; fail).
    destruct (dict_get d "result") as [code|] eqn:Hcode; cbn;
      [|intros Hrun; repeat run_step; cbn; intros []].
    destruct (Client.eq_literal code 0) eqn:Hz.
    + intros _ _. exists d, code. repeat split; auto.
      intros c ->. discriminate.
    + intros Hrun Hin. exfalso. revert Hin.
      repeat run_step; cbn; intuition discriminate.
Qed.

Lemma send_instruction_add env keys salary n k c1 c2 rd :
  int_of_input (Client.answer_1 env) = Ok salary ->
  Client.phe_public_key keys = Some n ->
  Client.ope_key_of keys = Some k ->
  phe_encrypt n salary (Client.noise env) = Ok c1 ->
  ope_encrypt k salary = Ok c2 ->
  Client.send_ok env = true ->
  Client.send_instruction env keys (Client.mk_Instruction (Some 2) [] rd) =
    (Ok true, Client.mk_Instruction (Some 2) [] rd, [Sent (Frames.add c1 c2)]).
Proof.
  intros Hs Hn Hk H1 H2 Hok.
  unfold Client.send_instruction, Client.add_employee, Client.send, Client.clear_data,
    Client.set_data, Client.set_instruction, Client.attr,
    try_finally, try_except, bind, get, lift, modify, ret, raise, emit.
  repeat (cbn; rewrite ?Hs, ?Hn, ?Hk, ?H1, ?H2, ?Hok).
  reflexivity.
Qed.

(** ADD from the operator to the store: the frame the client writes for a
    salary makes the server keep, under the next id, two texts that read
    back as the Paillier and the order ciphertext the client computed. *)
Theorem added_salary_is_stored_as_encrypted
    env keys i salary n k c1 c2 key s noise :
  Client.instruction_data i = [] ->
  int_of_input (Client.command env) = Ok 2 ->
  int_of_input (Client.answer_1 env) = Ok salary ->
  Client.phe_public_key keys = Some n ->
  Client.ope_key_of keys = Some k ->
  phe_encrypt n salary (Client.noise env) = Ok c1 ->
  ope_encrypt k salary = Ok c2 ->
  Client.send_ok env = true ->
  Server.ready s ->
  exists f i1 s' r,
    Client.read_instruction env i = (Ok true, i1, []) /\
    Client.send_instruction env keys i1 = (Ok true, i1, [Sent f]) /\
    Server.turn (Session.server_round f noise) key s =
      (Ok tt, s', [Sent (JObj [("result", JStr "0"); ("data", JStr "OK")])]) /\
    filter (Store.id_in (Store.auto_increment (Server.db s))
                        (Store.auto_increment (Server.db s)))
           (Store.employees (Server.db s')) = [r] /\
    int (JStr (Store.phe_salary r)) = Ok c1 /\
    int (JStr (Store.ope_salary r)) = Ok c2 /\
    Server.ready s'.
Proof.
  intros Hd Hc Hs Hn Hk H1 H2 Hok [Hres Hwf].
  exists (Frames.add c1 c2).
  eexists. eexists.
  exists (Store.mk_row (Store.auto_increment (Server.db s)) (str_of_Z c1) (str_of_Z c2)).
  rewrite (read_instruction_ok _ _ _ Hc), Hd.
  split; [reflexivity|].
  split; [exact (send_instruction_add env keys salary n k c1 c2 _ Hs Hn Hk H1 H2 Hok)|].
  split.
  { apply (turn_add key _ s (Frames.add c1 c2)
             (JObj [("paillier_salary", JInt c1); ("ope_salary", JInt c2)])
             (JInt c1) (JInt c2)); try reflexivity; assumption. }
  cbn [Server.db].
  split; [apply lookup_newest; apply Hwf|].
  split; [apply int_of_text_str|].
  split; [apply int_of_text_str|].
  split; [reflexivity|]. now apply insert_well_formed.
Qed.

End EndToEndFacts.

(** ** SHOW TABLES and a store that does not answer *)

Lemma connect_has_employees existing :
  In "Employees" (Store.tables (fst (Server.connect_to_db existing))).
Proof.
  unfold Server.connect_to_db.
  destruct (existsb (String.eqb "Employees") (Store.tables existing)) eqn:Hex; cbn zeta.
  - assert (Hin : In "Employees" (Store.tables existing)).
    { apply existsb_exists in Hex. destruct Hex as (t & Hin & Ht).
      apply String.eqb_eq in Ht. now subst t. }
    destruct (existsb (String.eqb "Employes") (Store.tables existing)); exact Hin.
  - match goal with |- context [if ?b then _ else _] => destruct b end;
      cbn; apply in_or_app; right; left; reflexivity.
Qed.

Section StoreDown.
Context `{Crypto}.

Lemma dispatch_show_tables env key s j :
  res_bind (getitem j "instruction") int = Ok 1 ->
  Server.db_up env = true ->
  Server.dispatch env key (Server.after_read s j) =
    (Ok tt,
     Server.mk_state
       (Server.mk_Instruction (Some 1) j
          (dict_set (dict_set (Server.result_data (Server.self s)) "result" (JStr "0"))
             "data"
             (JList (map (fun t => JList (map JStr t)) (Store.show_tables (Server.db s))))))
       (Server.db s),
     []).
Proof.
  intros Hc Hup.
  destruct (getitem j "instruction") as [v|] eqn:Hv; cbn in Hc; [|discriminate].
  unfold Server.dispatch, Server.get_table, Server.db_execute, Server.set_instruction,
    Server.set_result, bind, get, lift, raise, ret, modify.
  repeat (cbn; rewrite ?Hv, ?Hc, ?Hup). reflexivity.
Qed.

(** SHOW TABLES as the first instruction of a session: whatever the store
    held at the start, the answer is result 0 with one entry per table, the
    entry of [Employees] among them, since [_connect_to_db] has created the
    table if it was not there. *)
Theorem first_show_tables_lists_employees key existing env j :
  Server.incoming env = Doc j ->
  res_bind (getitem j "instruction") int = Ok 1 ->
  Server.db_up env = true ->
  Server.send_ok env = true ->
  let db0 := fst (Server.connect_to_db existing) in
  exists names,
    Server.turn env key (Server.mk_state Server.new_Instruction db0) =
      (Ok tt, Server.mk_state (Server.mk_Instruction (Some 1) j []) db0,
       [Sent (JObj [("result", JStr "0"); ("data", JList names)])]) /\
    In (JList [JStr "Employees"]) names /\
    List.length names = List.length (Store.tables db0).
Proof.
  intros Hi Hc Hup Hs db0.
  exists (map (fun t => JList (map JStr t)) (Store.show_tables db0)).
  split; [|split].
  - erewrite turn_delivered;
      [| eapply prepare_done; [eassumption | eapply dispatch_show_tables; eassumption]
       | assumption].
    reflexivity.
  - unfold Store.show_tables. rewrite map_map. cbn.
    apply in_map_iff. exists "Employees". split; [reflexivity|].
    apply connect_has_employees.
  - unfold Store.show_tables. now rewrite !length_map.
Qed.

Lemma dispatch_down env key s j code :
  res_bind (getitem j "instruction") int = Ok code ->
  1 <= code <= 4 ->
  Server.db_up env = false ->
  exists e s1 ev1, Server.dispatch env key (Server.after_read s j) = (Raise e, s1, ev1).
Proof.
  intros Hc Hcode Hup.
  destruct (Server.dispatch env key (Server.after_read s j)) as [[[[]|e] s1] ev1] eqn:Hd;
    [|eauto].
  exfalso. revert Hd.
  destruct (getitem j "instruction") as [v|] eqn:Hv; cbn in Hc; [|discriminate].
  assert (Hcases : code = 1 \/ code = 2 \/ code = 3 \/ code = 4) by lia.
  unfold_handlers. cbn. rewrite Hv. cbn. rewrite Hc. cbn. rewrite Hup.
  destruct Hcases as [-> |[-> |[-> | ->]]]; cbn; intros Hrun; repeat run_step.
Qed.

(** With the store not answering, SHOW TABLES, ADD, COMPARE and SUM are each
    answered with result code 2, whatever else the frame holds; nothing is
    stored and the loop goes on. *)
Theorem store_down_yields_2 key env s j code :
  Server.result_data (Server.self s) = [] ->
  Server.incoming env = Doc j ->
  res_bind (getitem j "instruction") int = Ok code ->
  1 <= code <= 4 ->
  Server.db_up env = false ->
  Server.send_ok env = true ->
  Server.turn env key s =
    (Ok tt, Server.mk_state (Server.mk_Instruction None j []) (Server.db s),
     [LogError "failed to execute instruction"; Sent (JObj [("result", JStr "2")])]).
Proof.
  intros He Hi Hc Hcode Hup Hs.
  destruct (dispatch_down env key s j code Hc Hcode Hup) as (e & s1 & ev1 & Hd).
  eapply turn_failed_execution; eassumption.
Qed.

End StoreDown.

End Facts.

(* ===================================================================== *)
(** * Sessions on concrete inputs *)
(* ===================================================================== *)

#[local] Existing Instance Toy.crypto.
#[local] Existing Instance Toy.collation.
#[local] Existing Instance Toy.interpreter.

(** Claim C1, at ADD(5000), ADD(7000), SUM(1,2) on a fresh store.  The server
    answers the SUM with result code "0" and a ciphertext that decrypts to
    12000, but the client prints nothing: it logs "unknown result code: 0"
    and the total is never decrypted. *)
Theorem sum_session_reply_goes_undecrypted :
  let '(cev, sev) :=
    Session.back_to_back Toy.keys Example.fresh Example.add_add_sum in
  Session.frames_sent sev =
    [JObj [("result", JStr "0"); ("data", JStr "OK")];
     JObj [("result", JStr "0"); ("data", JStr "OK")];
     JObj [("result", JStr "0"); ("data", JInt 1877953421)]]
  /\ Toy.decrypt (Toy.lambda, Toy.mu) Toy.n 1877953421 = Ok 12000
  /\ Session.printed cev = []
  /\ last cev Closed = LogError "unknown result code: 0".
Proof. vm_compute. repeat split; reflexivity. Qed.

Lemma toy_first_digit_decides : Store.first_digit_decides Toy.collation.
Proof.
  intros c1 t1 c2 t2 H1 H2 Hlt.
  cbn in H1, H2. apply andb_true_iff in H1, H2.
  destruct H1 as [H1 _], H2 as [H2 _].
  assert (Hw : forall c, is_digit c = true -> Toy.weight c = N_of_ascii c).
  { intros c Hc. unfold is_digit in Hc. unfold Toy.weight.
    apply andb_true_iff in Hc. destruct Hc as [Ha Hb]. apply N.leb_le in Ha, Hb.
    destruct (97 <=? N_of_ascii c)%N eqn:E; cbn; auto. apply N.leb_le in E. lia. }
  cbn [Store.collate Toy.collation Toy.collate]. rewrite (Hw c1 H1), (Hw c2 H2).
  rewrite (proj2 (N.compare_lt_iff _ _) Hlt), (proj2 (N.compare_gt_iff _ _) Hlt).
  split; reflexivity.
Qed.

(** C2 under the collation of [Toy]. *)
Lemma compare_orders_text_not_numbers_witness :
  let '(_, _, ev) :=
    Server.serve Example.key [Example.heard (Example.instr_ids "3" "1" "2")]
                 (Example.start Example.nine_and_ten) in
  ev = [Sent (JObj [("result", JStr "0"); ("data", JStr "Id 1 has a higher salary")])]
  /\ int_of_text "9" = Ok 9 /\ int_of_text "10" = Ok 10 /\ 9 < 10.
Proof.
  apply (compare_orders_text_not_numbers Example.key).
  exact toy_first_digit_decides.
Defined.

(** C3 at a session that adds one salary. *)
Lemma client_writes_only_ciphertexts_witness :
  Client.client_frame (fst (Client.generate Toy.keys)) [Example.op "2" "5000" "" 17]
    (JObj [("instruction", JStr "2");
           ("data", JObj [("paillier_salary", JInt 1827328072);
                          ("ope_salary", JInt 325015977)])]).
Proof.
  pose (run := Client.app Toy.keys true [Example.op "2" "5000" "" 17]).
  apply (client_writes_only_ciphertexts Toy.keys true [Example.op "2" "5000" "" 17]
           (fst (fst run)) (snd (fst run)) (snd run)).
  - vm_compute. reflexivity.
  - vm_compute. auto.
Defined.

(** C4 at a SUM on an empty table, followed by a LIST. *)
Lemma failed_execution_yields_2_witness :
  let j := Example.instr_ids "4" "1" "2" in
  let s' := Server.mk_state (Server.mk_Instruction None j []) Example.fresh in
  Server.quit_seen s' = false /\
  Server.serve Example.key (Example.heard j :: [Example.heard (Example.instr "1")])
               (Example.start Example.fresh) =
    let '(r, s'', ev) :=
      Server.serve Example.key [Example.heard (Example.instr "1")] s' in
    (r, s'',
     ([LogError "failed to execute instruction"]
      ++ [Sent (JObj [("result", JStr "2")])] ++ ev)%list).
Proof.
  intros j s'.
  apply (failed_execution_yields_2 Example.key (Example.heard j)
           [Example.heard (Example.instr "1")] (Example.start Example.fresh) j
           IndexError
           (Server.mk_state (Server.mk_Instruction (Some 4) j []) Example.fresh) []);
    try reflexivity.
  left. reflexivity.
Defined.

(** Claim C5 fails as stated: after a failed key generation the client, which
    connected first, still sends QUIT; after a key frame with no modulus the
    server still answers LIST. *)
Lemma setup_failures_do_not_stop_session :
  Client.app Client.PaillierFailed true
    [Client.mk_round "0" "" "" 0 true
       (Doc (JObj [("result", JStr "0"); ("data", JStr "quit")]))]
  = (Client.Finished,
     Client.mk_Instruction (Some 0) [] (JObj []),
     [Connected;
      LogError "keys generation failed!";
      LogError "failed to send paillier public key!";
      Sent (JObj [("instruction", JStr "0")]);
      LogError "unknown result code: 0";
      Closed])
  /\
  Server.app (Doc (JObj [])) Example.fresh [Example.heard (Example.instr "1")]
  = (Server.Waiting,
     Server.mk_state
       (Server.mk_Instruction (Some 1) (Example.instr "1") [])
       (Store.mk_database ["Employees"] [] 1),
     [LogError "failed to rebuild paillier public key!";
      LogError "failed to create a new table";
      Sent (JObj [("result", JStr "0"); ("data", JList [JList [JStr "Employees"]])])]).
Proof. vm_compute. repeat split; reflexivity. Qed.

(** The amended C5 at a client without order-preserving key and a server given a modulus that is no number. *)
Lemma setup_failures_are_logged_and_skipped_witness :
  Client.app (Client.OpeFailed Toy.n (Toy.lambda, Toy.mu)) true
             [Example.op "2" "5000" "" 17] =
    (let keys := fst (Client.generate (Client.OpeFailed Toy.n (Toy.lambda, Toy.mu))) in
     let '(r, i, ev) :=
       Client.run keys [Example.op "2" "5000" "" 17] Client.new_Instruction in
     let '(st, ev') := Client.conclude r ev in
     (st, i,
      ([Connected; LogError "keys generation failed!"]
       ++ Client.send_public_key keys true ++ ev')%list))
  /\
  Server.app (Doc (JObj [("n", JStr "no modulus")])) Example.fresh
             [Example.heard (Example.instr "1")] =
    (let '(db0, ev_db) := Server.connect_to_db Example.fresh in
     let '(r, s, ev) :=
       Server.serve (Server.mk_Key None) [Example.heard (Example.instr "1")]
                    (Server.mk_state Server.new_Instruction db0) in
     let '(st, ev') := Server.conclude r ev in
     (st, s,
      ([LogError "failed to rebuild paillier public key!"] ++ ev_db ++ ev')%list)).
Proof.
  split.
  - apply (proj1 setup_failures_are_logged_and_skipped). discriminate.
  - apply (proj2 (proj2 setup_failures_are_logged_and_skipped)
             (JObj [("n", JStr "no modulus")]) ValueError).
    reflexivity.
Defined.

(** Claim C6 fails as stated: the mapping with no field at all is answered
    with result code 2, not 1. *)
Lemma missing_field_yields_2 :
  let '(_, _, ev) :=
    Server.serve Example.key [Example.heard (JObj [])] (Example.start Example.fresh) in
  ev = [LogError "failed to execute instruction"; Sent (JObj [("result", JStr "2")])]
  /\ Session.frames_sent ev <> [JObj [("result", JStr "1")]].
Proof. vm_compute. split; [reflexivity|discriminate]. Qed.

(** The amended C6 at a frame that is no JSON and at the empty mapping. *)
Lemma undecodable_frame_yields_1_witness :
  let key := Example.key in
  let s := Example.start Example.fresh in
  let garbled := Server.mk_round (Garbage "not json") true 0 true true in
  Server.serve key (garbled :: []) s =
    (let '(r, s'', ev) :=
       Server.serve key []
         (Server.mk_state
            (Server.mk_Instruction None (Server.instruction_data (Server.self s)) [])
            (Server.db s)) in
     (r, s'',
      ([LogError "failed to read instruction"; Sent (JObj [("result", JStr "1")])]
       ++ ev)%list))
  /\
  Server.serve key (Example.heard (JObj []) :: []) s =
    (let '(r, s'', ev) :=
       Server.serve key []
         (Server.mk_state (Server.mk_Instruction None (JObj []) []) (Server.db s)) in
     (r, s'',
      ([LogError "failed to execute instruction"; Sent (JObj [("result", JStr "2")])]
       ++ ev)%list)).
Proof.
  intros key s garbled. split.
  - apply (proj1 (undecodable_frame_yields_1 key garbled [] s
                    eq_refl eq_refl eq_refl) ValueError).
    reflexivity.
  - apply (proj2 (undecodable_frame_yields_1 key (Example.heard (JObj [])) [] s
                    eq_refl eq_refl eq_refl) (JObj []) KeyError);
      reflexivity.
Defined.

(** Claim C7 fails as stated: when both sends of the first round fail the
    session is aborted and logged, and the QUIT that follows is never
    answered. *)
Lemma second_send_failure_ends_session :
  let '(st, _, ev) :=
    Server.app (Doc (JObj [("n", JInt Toy.n)])) Example.fresh
      [Server.mk_round (Doc (Example.instr "1")) true 0 false false;
       Example.heard (Example.instr "0")] in
  st = Server.Aborted
  /\ ev = [LogError "failed to create a new table";
           SendFailed (JObj [("result", JStr "0");
                             ("data", JList [JList [JStr "Employees"]])]);
           SendFailed (JObj [("result", JStr "3")]);
           LogError "something went wrong!";
           Closed]
  /\ Session.frames_sent ev = [].
Proof. vm_compute. repeat split; reflexivity. Qed.

(** The amended C7 at a LIST whose first send fails. *)
Lemma undelivered_result_retried_once_witness :
  let env := Server.mk_round (Doc (Example.instr "1")) true 0 false true in
  exists s1 ev1,
    Server.prepare env Example.key (Example.start Example.two_employees)
      = (Ok tt, s1, ev1) /\ Session.writes ev1 = [] /\
    (Server.retry_ok env = true ->
       Server.serve Example.key (env :: []) (Example.start Example.two_employees) =
         let '(r, s'', ev) := Server.serve Example.key [] (Server.emptied None s1) in
         (r, s'',
          (ev1 ++ [SendFailed (JObj (Server.result_data (Server.self s1)));
                   Sent (JObj [("result", JStr "3")]);
                   LogError "failed to send result"] ++ ev)%list)) /\
    (Server.retry_ok env = false ->
       let lost := (ev1 ++ [SendFailed (JObj (Server.result_data (Server.self s1)));
                            SendFailed (JObj [("result", JStr "3")])])%list in
       Server.serve Example.key (env :: []) (Example.start Example.two_employees)
         = (Raise OSError, Server.emptied None s1, lost) /\
       Server.conclude (Raise OSError) lost =
         (Server.Aborted, (lost ++ [LogError "something went wrong!"; Closed])%list)).
Proof.
  intros env.
  apply (undelivered_result_retried_once Example.key env []
           (Example.start Example.two_employees)); reflexivity.
Defined.

(** C8 at the code 99, followed by a COMPARE. *)
Lemma unknown_code_yields_21_witness :
  let j := Example.instr "99" in
  let s' := Server.mk_state (Server.mk_Instruction (Some 99) j []) Example.two_employees in
  Server.quit_seen s' = false /\
  Server.serve Example.key
    (Example.heard j :: [Example.heard (Example.instr_ids "3" "1" "2")])
    (Example.start Example.two_employees) =
    let '(r, s'', ev) :=
      Server.serve Example.key [Example.heard (Example.instr_ids "3" "1" "2")] s' in
    (r, s'',
     ([LogError "wrong instruction value";
       Sent (JObj [("result", JStr "21"); ("data", JStr "wrong instruction value")])]
      ++ ev)%list).
Proof.
  intros j s'.
  apply (unknown_code_yields_21 Example.key (Example.heard j)
           [Example.heard (Example.instr_ids "3" "1" "2")]
           (Example.start Example.two_employees) j 99);
    try reflexivity.
  right. reflexivity.
Defined.

(** C9 at the answer to a SUM. *)
Lemma server_results_reach_default_branch_witness :
  exists c,
    In c Session.result_codes /\
    getitem (JObj [("result", JStr "0"); ("data", JInt 1877953421)]) "result"
      = Ok (JStr c) /\
    forall env keys ci,
      Client.reply env = Doc (JObj [("result", JStr "0"); ("data", JInt 1877953421)]) ->
      Client.read_result env keys ci =
        (Ok true,
         Client.mk_Instruction (Client.instruction ci) (Client.instruction_data ci)
                               (JObj []),
         [LogError ("unknown result code: " ++ c)%string]).
Proof.
  pose (run := Server.serve Example.key
                 [Server.mk_round (Doc (Example.instr_ids "4" "1" "2")) true 31 true true]
                 (Example.start Example.two_employees)).
  apply (server_results_reach_default_branch Example.key
           [Server.mk_round (Doc (Example.instr_ids "4" "1" "2")) true 31 true true]
           (Example.start Example.two_employees)
           (fst (fst run)) (snd (fst run)) (snd run)).
  - vm_compute. reflexivity.
  - vm_compute. auto.
Defined.

(** C10 at SUM(1,1) on a table of one line. *)
Lemma sum_of_fewer_than_two_rows_yields_2_witness :
  let j := Example.instr_ids "4" "1" "1" in
  let s := Example.start Example.one_employee in
  let s' := Server.mk_state (Server.mk_Instruction None j []) (Server.db s) in
  (List.length (Store.select_phe (Server.db s) 1 1) < 2)%nat /\
  Server.serve Example.key (Example.heard j :: []) s =
    let '(r, s'', ev) := Server.serve Example.key [] s' in
    (r, s'',
     ([LogError "failed to execute instruction"; Sent (JObj [("result", JStr "2")])]
      ++ ev)%list).
Proof.
  intros j s s'.
  apply (sum_of_fewer_than_two_rows_yields_2 Example.key (Example.heard j) [] s j 1 1);
    try reflexivity.
  - unfold Store.unique_ids. cbn. repeat constructor. cbn. tauto.
  - left. reflexivity.
Defined.

(* ===================================================================== *)
(** ** Further runs on concrete inputs *)
(* ===================================================================== *)

(** [Store.well_formed] of a concrete table. *)
Ltac store_well_formed :=
  split;
  [ unfold Store.unique_ids; cbn; repeat constructor; cbn; intuition discriminate
  | repeat constructor; try (cbn; lia) ].

(** COMPARE(1,2) on a table of two lines leaves the table as it was. *)
Lemma only_add_changes_store_witness :
  let env := Example.heard (Example.instr_ids "3" "1" "2") in
  let s := Example.start Example.two_employees in
  let '(_, s', _) := Server.turn env Example.key s in
  Server.db s' = Server.db s.
Proof.
  intros env s.
  destruct (Server.turn env Example.key s) as [[r s'] ev] eqn:Ht.
  apply (only_add_changes_store env Example.key s r s' ev Ht).
  intros j Hj. injection Hj as <-. vm_compute. discriminate.
Defined.

(** QUIT followed by a frame that is never read. *)
Lemma quit_answered_then_loop_ends_witness :
  let j := Example.instr "0" in
  let s := Example.start Example.two_employees in
  Server.serve Example.key [Example.heard j; Example.heard (Example.instr "1")] s =
    (Ok Server.Finished,
     Server.mk_state (Server.mk_Instruction (Some 0) j []) (Server.db s),
     [Sent (JObj [("result", JStr "0"); ("data", JStr "quit")])]).
Proof.
  intros j s.
  apply (quit_answered_then_loop_ends Example.key (Example.heard j)
           [Example.heard (Example.instr "1")] s j); reflexivity.
Defined.

(** QUIT whose answer is lost, then SHOW TABLES is still served. *)
Lemma quit_with_lost_answer_keeps_serving_witness :
  let j := Example.instr "0" in
  let env := Server.mk_round (Doc j) true 0 false true in
  let rest := [Example.heard (Example.instr "1")] in
  let s := Example.start Example.two_employees in
  let s' := Server.mk_state (Server.mk_Instruction None j []) (Server.db s) in
  Server.quit_seen s' = false /\
  Server.serve Example.key (env :: rest) s =
    let '(r, s'', ev) := Server.serve Example.key rest s' in
    (r, s'',
     ([SendFailed (JObj [("result", JStr "0"); ("data", JStr "quit")]);
       Sent (JObj [("result", JStr "3")]);
       LogError "failed to send result"] ++ ev)%list).
Proof.
  intros j env rest s s'.
  apply (quit_with_lost_answer_keeps_serving Example.key env rest s j); reflexivity.
Defined.

(** ADD of the ciphertexts 11 and 22 to a table of one line: the new line
    has id 2. *)
Lemma add_stores_then_finds_witness :
  let j := Frames.add 11 22 in
  let s := Example.start Example.one_employee in
  let db' := Store.insert_employee (Server.db s) "11" "22" in
  Server.turn (Example.heard j) Example.key s =
    (Ok tt, Server.mk_state (Server.mk_Instruction (Some 2) j []) db',
     [Sent (JObj [("result", JStr "0"); ("data", JStr "OK")])]) /\
  filter (Store.id_in 2 2) (Store.employees db') = [Store.mk_row 2 "11" "22"] /\
  Store.well_formed db'.
Proof.
  intros j s db'.
  apply (add_stores_then_finds Example.key (Example.heard j) s j
           (JObj [("paillier_salary", JInt 11); ("ope_salary", JInt 22)])
           (JInt 11) (JInt 22)); try reflexivity.
  split; [reflexivity|store_well_formed].
Defined.

(** COMPARE(1,5) where no line has id 5. *)
Lemma compare_with_one_match_names_it_witness :
  let j := Example.instr_ids "3" "1" "5" in
  let s := Example.start Example.two_employees in
  Server.turn (Example.heard j) Example.key s =
    (Ok tt, Server.mk_state (Server.mk_Instruction (Some 3) j []) (Server.db s),
     [Sent (JObj [("result", JStr "0"); ("data", JStr "Id 1 has a higher salary")])]).
Proof.
  intros j s.
  apply (compare_with_one_match_names_it Example.key (Example.heard j) s j 1 5
           (Store.mk_row 1 "1827328072" "325015977")); reflexivity.
Defined.

(** COMPARE(1,2) with the order ciphertexts 9 and 10, under the collation of
    [Toy]. *)
Lemma compare_first_digit_decides_witness :
  let j := Example.instr_ids "3" "1" "2" in
  let s := Example.start Example.nine_and_ten in
  Server.turn (Example.heard j) Example.key s =
    (Ok tt, Server.mk_state (Server.mk_Instruction (Some 3) j []) (Server.db s),
     [Sent (JObj [("result", JStr "0"); ("data", JStr "Id 1 has a higher salary")])]).
Proof.
  intros j s.
  apply (compare_first_digit_decides Example.key (Example.heard j) s j
           (Store.mk_row 1 "1827328072" "9") (Store.mk_row 2 "2124259098" "10")
           "9"%char "" "1"%char "0"); try reflexivity.
  - exact toy_first_digit_decides.
  - unfold Store.unique_ids. cbn. repeat constructor; cbn; intuition discriminate.
  - cbn. auto.
  - cbn. auto.
  - cbn. discriminate.
Defined.

(** SUM(1,2) on a server that never received a key. *)
Lemma sum_without_key_yields_2_witness :
  let j := Example.instr_ids "4" "1" "2" in
  let s := Example.start Example.two_employees in
  Server.turn (Example.heard j) (Server.mk_Key None) s =
    (Ok tt, Server.mk_state (Server.mk_Instruction None j []) (Server.db s),
     [LogError "failed to execute instruction"; Sent (JObj [("result", JStr "2")])]).
Proof.
  intros j s.
  apply (sum_without_key_yields_2 (Server.mk_Key None) (Example.heard j) s j);
    reflexivity.
Defined.

(** Two ADDs and the SUM of the two new ids, after one earlier line. *)
Lemma add_add_sum_combines_witness :
  let s := Example.start Example.one_employee in
  let db2 :=
    Store.insert_employee
      (Store.insert_employee (Server.db s) "1827328072" "325015977")
      "2124259098" "455021977" in
  let asked := Frames.ids 4 2 3 in
  Server.serve Example.key
    [Session.server_round (Frames.add 1827328072 325015977) 17;
     Session.server_round (Frames.add 2124259098 455021977) 23;
     Session.server_round asked 31] s =
    (Ok Server.Waiting,
     Server.mk_state (Server.mk_Instruction (Some 4) asked []) db2,
     [Sent (JObj [("result", JStr "0"); ("data", JStr "OK")]);
      Sent (JObj [("result", JStr "0"); ("data", JStr "OK")]);
      Sent (JObj [("result", JStr "0"); ("data", JInt 1877953421)])]).
Proof.
  intros s db2 asked.
  apply (add_add_sum_combines Example.key Toy.n s []
           1827328072 325015977 2124259098 455021977 17 23 31 1877953421);
    try reflexivity.
  split; [reflexivity|store_well_formed].
Defined.

(** A session on a store that already holds two lines. *)
Lemma earlier_rows_survive_witness :
  let '(_, s, _) :=
    Server.app (Doc (JObj [("n", JInt Toy.n)])) Example.two_employees
               [Example.heard (Frames.add 5 6)] in
  exists added,
    Store.employees (Server.db s) = (Store.employees Example.two_employees ++ added)%list.
Proof.
  apply (earlier_rows_survive (Doc (JObj [("n", JInt Toy.n)])) Example.two_employees
           [Example.heard (Frames.add 5 6)]).
  reflexivity.
Defined.

Lemma session_keeps_ids_unique_witness :
  let '(_, s, _) :=
    Server.app (Doc (JObj [("n", JInt Toy.n)])) Example.two_employees
               [Example.heard (Frames.add 5 6); Example.heard (Frames.add 7 8)] in
  Server.ready s.
Proof.
  apply (session_keeps_ids_unique (Doc (JObj [("n", JInt Toy.n)])) Example.two_employees
           [Example.heard (Frames.add 5 6); Example.heard (Frames.add 7 8)]).
  store_well_formed.
Defined.

(** The key of [Toy] from the client to the server. *)
Lemma key_announcement_round_trip_witness :
  exists f,
    Client.send_public_key (fst (Client.generate Toy.keys)) true = [Sent f] /\
    Server.read_paillier_public_key (Server.mk_Key None) (Doc f)
      = (Server.mk_Key (Some Toy.n), []) /\
    Server.read_paillier_public_key (Server.mk_Key None)
        (Doc (JObj [("n", JStr (str_of_Z Toy.n))]))
      = (Server.mk_Key (Some Toy.n), []).
Proof.
  apply (key_announcement_round_trip (fst (Client.generate Toy.keys)) Toy.n).
  reflexivity.
Defined.

(** A server whose store cannot be reached. *)
Lemma failed_start_reads_no_instruction_witness :
  let up := Launch.mk_startup Launch.Listening true false "root" in
  let key_frame := Doc (JObj [("n", JInt Toy.n)]) in
  let rounds := [Example.heard (Example.instr "1")] in
  exists ev,
    Launch.app up key_frame Example.fresh rounds = Launch.Died ev /\
    Session.writes ev = [] /\
    ~ In Closed ev /\
    Launch.app up key_frame Example.fresh [] = Launch.Died ev.
Proof.
  intros up key_frame rounds.
  apply (failed_start_reads_no_instruction up key_frame Example.fresh rounds).
  right. right. reflexivity.
Defined.

(** The command 7. *)
Lemma unusable_command_writes_nothing_witness :
  let env := Example.op "7" "" "" 0 in
  let keys := fst (Client.generate Toy.keys) in
  let i := Client.new_Instruction in
  exists i' ev,
    Client.turn env keys i = (Ok tt, i', ev) /\
    Session.writes ev = [] /\
    Client.quit_seen i' = false /\
    forall rest,
      Client.run keys (env :: rest) i =
        let '(r, i'', ev') := Client.run keys rest i' in (r, i'', (ev ++ ev')%list).
Proof.
  intros env keys i.
  apply (unusable_command_writes_nothing env keys i).
  - reflexivity.
  - right. exists 7. split; [reflexivity|lia].
Defined.

(** QUIT typed before SHOW TABLES. *)
Lemma quit_delivered_ends_client_witness :
  let env := Example.op "0" "" "" 0 in
  let keys := fst (Client.generate Toy.keys) in
  let '(r, i', ev) :=
    Client.run keys [env; Example.op "1" "" "" 0] Client.new_Instruction in
  Client.run keys [env] Client.new_Instruction = (r, i', ev) /\
  hd_error ev = Some (Sent (Frames.bare 0)) /\
  (r = Ok Client.Finished \/ r = Raise AttributeError).
Proof.
  intros env keys.
  apply (quit_delivered_ends_client env keys Client.new_Instruction
           [Example.op "1" "" "" 0]); reflexivity.
Defined.

(** QUIT on a socket that refuses the frame. *)
Lemma quit_undelivered_keeps_client_witness :
  let env := Client.mk_round "0" "" "" 0 false RecvError in
  let keys := fst (Client.generate Toy.keys) in
  let rest := [Example.op "1" "" "" 0] in
  let i' := Client.mk_Instruction None [] (JObj []) in
  Client.quit_seen i' = false /\
  Client.run keys (env :: rest) Client.new_Instruction =
    let '(r, i'', ev) := Client.run keys rest i' in
    (r, i'',
     ([SendFailed (Frames.bare 0); LogError "failed to send instruction"] ++ ev)%list).
Proof.
  intros env keys rest i'.
  apply (quit_undelivered_keeps_client env keys Client.new_Instruction rest);
    reflexivity.
Defined.

(** SHOW TABLES answered by the document [5]. *)
Lemma scalar_reply_aborts_client_witness :
  let env := Client.mk_round "1" "" "" 0 true (Doc (JInt 5)) in
  let keys := fst (Client.generate Toy.keys) in
  let i1 := Client.mk_Instruction (Some 1) [] (JObj []) in
  Client.run keys [env; Example.op "0" "" "" 0] Client.new_Instruction =
    (Raise AttributeError, Client.mk_Instruction (Some 1) [] (JInt 5),
     [Sent (Frames.bare 1)]) /\
  Client.conclude (Raise AttributeError) [Sent (Frames.bare 1)] =
    (Client.Aborted,
     [Sent (Frames.bare 1); LogError "something went wrong!"; Closed]).
Proof.
  intros env keys i1.
  apply (scalar_reply_aborts_client env keys Client.new_Instruction i1 [] i1
           [Sent (Frames.bare 1)] (JInt 5) [Example.op "0" "" "" 0]); reflexivity.
Defined.

(** SHOW TABLES answered by text that is no JSON. *)
Lemma unreadable_reply_is_skipped_witness :
  let env := Client.mk_round "1" "" "" 0 true (Garbage "oops") in
  let keys := fst (Client.generate Toy.keys) in
  exists i2,
    Client.turn env keys Client.new_Instruction =
      (Ok tt, i2, [Sent (Frames.bare 1); LogError "failed to read result"]) /\
    Client.instruction i2 = Some 1 /\
    Between.client_cleared i2.
Proof.
  intros env keys.
  apply (unreadable_reply_is_skipped env keys Client.new_Instruction
           (Client.mk_Instruction (Some 1) [] (JObj [])) []
           (Client.mk_Instruction (Some 1) [] (JObj [])) [Sent (Frames.bare 1)]).
  - split; [reflexivity|left; reflexivity].
  - reflexivity.
  - reflexivity.
  - right. left. exists "oops". reflexivity.
Defined.

(** ADD with the salary typed as "lots". *)
Lemma add_without_salary_or_keys_writes_nothing_witness :
  let env := Example.op "2" "lots" "" 17 in
  Client.turn env (fst (Client.generate Toy.keys)) Client.new_Instruction =
    (Ok tt, Client.mk_Instruction None [] (JObj []),
     [LogError "failed to send instruction"]).
Proof.
  intros env.
  apply (add_without_salary_or_keys_writes_nothing env
           (fst (Client.generate Toy.keys)) Client.new_Instruction).
  - reflexivity.
  - left. exists ValueError. reflexivity.
Defined.

(** COMPARE(1,2) from the operator, with no reply. *)
Lemma client_round_writes_at_most_once_witness :
  let '(r, i', ev) :=
    Client.turn (Example.op "3" "1" "2" 0) (fst (Client.generate Toy.keys))
                Client.new_Instruction in
  (List.length (Session.writes ev) <= 1)%nat /\
  (Session.writes ev = [] -> Session.printed ev = []) /\
  (forall u, r = Ok u -> Between.client_cleared i').
Proof.
  apply (client_round_writes_at_most_once (Example.op "3" "1" "2" 0)
           (fst (Client.generate Toy.keys)) Client.new_Instruction).
  split; [reflexivity|left; reflexivity].
Defined.

(** A reply whose result code is the integer 0. *)
Lemma client_prints_only_on_integer_zero_witness :
  let d := [("result", JInt 0); ("data", JStr "hello")] in
  let env := Client.mk_round "1" "" "" 0 true (Doc (JObj d)) in
  Client.read_result env (fst (Client.generate Toy.keys))
      (Client.mk_Instruction (Some 1) [] (JObj []))
    = (Ok true, Client.mk_Instruction (Some 1) [] (JObj []), [Printed "hello"]) /\
  exists d' code,
    Client.reply env = Doc (JObj d') /\
    dict_get d' "result" = Some code /\
    Client.eq_literal code 0 = true /\
    forall c, code <> JStr c.
Proof.
  intros d env. split; [reflexivity|].
  apply (client_prints_only_on_integer_zero env (fst (Client.generate Toy.keys))
           (Client.mk_Instruction (Some 1) [] (JObj []))
           (Ok true) (Client.mk_Instruction (Some 1) [] (JObj [])) [Printed "hello"]
           "hello").
  - reflexivity.
  - left. reflexivity.
Defined.

(** ADD(5000) typed at the client, served on a table of one line. *)
Lemma added_salary_is_stored_as_encrypted_witness :
  let env := Example.op "2" "5000" "" 17 in
  let keys := fst (Client.generate Toy.keys) in
  let s := Example.start Example.one_employee in
  exists f i1 s' r,
    Client.read_instruction env Client.new_Instruction = (Ok true, i1, []) /\
    Client.send_instruction env keys i1 = (Ok true, i1, [Sent f]) /\
    Server.turn (Session.server_round f 0) Example.key s =
      (Ok tt, s', [Sent (JObj [("result", JStr "0"); ("data", JStr "OK")])]) /\
    filter (Store.id_in 2 2) (Store.employees (Server.db s')) = [r] /\
    int (JStr (Store.phe_salary r)) = Ok 1827328072 /\
    int (JStr (Store.ope_salary r)) = Ok 325015977 /\
    Server.ready s'.
Proof.
  intros env keys s.
  apply (added_salary_is_stored_as_encrypted env keys Client.new_Instruction
           5000 Toy.n 65003 1827328072 325015977 Example.key s 0);
    try reflexivity.
  split; [reflexivity|store_well_formed].
Defined.

(** SHOW TABLES on a store that had no table. *)
Lemma first_show_tables_lists_employees_witness :
  let j := Example.instr "1" in
  let db0 := fst (Server.connect_to_db Example.fresh) in
  exists names,
    Server.turn (Example.heard j) Example.key (Server.mk_state Server.new_Instruction db0) =
      (Ok tt, Server.mk_state (Server.mk_Instruction (Some 1) j []) db0,
       [Sent (JObj [("result", JStr "0"); ("data", JList names)])]) /\
    In (JList [JStr "Employees"]) names /\
    List.length names = List.length (Store.tables db0).
Proof.
  intros j db0.
  apply (first_show_tables_lists_employees Example.key Example.fresh (Example.heard j) j);
    reflexivity.
Defined.

(** ADD while the store is down. *)
Lemma store_down_yields_2_witness :
  let j := Frames.add 11 22 in
  let env := Server.mk_round (Doc j) false 0 true true in
  let s := Example.start Example.one_employee in
  Server.turn env Example.key s =
    (Ok tt, Server.mk_state (Server.mk_Instruction None j []) (Server.db s),
     [LogError "failed to execute instruction"; Sent (JObj [("result", JStr "2")])]).
Proof.
  intros j env s.
  apply (store_down_yields_2 Example.key env s j 2); try reflexivity. lia.
Defined.
